(** * KiadasReact: the temporal aggregation engine of [src/App.js]

    A shallow embedding of the pure computations of the application
    (net-worth history merger, recurrence evaluator, monthly and dashboard
    aggregation, projection, asset life cycle) and the properties the
    specification states about them.

    The program is embedded twice.

    - Part I reads a number as an exact rational ([Q]) and a date string
      ['YYYY-MM-DD'] through its own calendar fields.  It serves the
      properties of Parts III and IV, which are about order and structure:
      which entries a list or a lookup holds, in which order, and what an
      action leaves untouched.  These rest on no law of arithmetic that
      binary64 lacks and on nothing the getters of a parsed date answer.
    - Module [Js] of Part I, continued, follows the host: a number is an
      IEEE 754 binary64 value (the kernel's primitive [float]) and the
      arithmetic is its correctly rounded one; an amount read from
      storage is any value the store holds, and [+] concatenates as soon
      as one operand is a string; [new Date('YYYY-MM-DD')] is the UTC
      midnight that begins the date, read in local time by [getFullYear]
      and [getMonth]; an object used as a dictionary lists its array
      indices first and reads unknown names from [Object.prototype].
      The claims about sums, rounding, activity in a month and the years
      on offer are settled on it, in Part V.

    In both, a date is a well-formed string ['YYYY-MM-DD'], as the date
    inputs of the forms give it, held as the record of its three fields;
    [Array.prototype.sort] is a stable sort; two date strings are ordered
    as their time stamps are, that is lexicographically; and a [Map] and
    a [Set] keep their keys in insertion order. *)

From Stdlib Require Import ZArith QArith Qround Qpower List Ascii String Bool.
From Stdlib Require Import Lia Lqa.
From Stdlib Require Import Permutation Sorted Setoid Morphisms Floats.
Import ListNotations.

Set Implicit Arguments.
Set Warnings "-inexact-float".

(* ================================================================== *)
(** * Part I.  The program *)
(* ================================================================== *)

(** ** JavaScript values that reach the arithmetic of the engine *)

Module JsNum.

Inductive jsval : Type :=
| JUndefined
| JNull
| JNaN
| JNum (q : Q).

(** [ToNumber]: [None] stands for [NaN]. *)
Definition toNumber (v : jsval) : option Q :=
  match v with
  | JNum q => Some q
  | JNull => Some 0%Q
  | JUndefined | JNaN => None
  end.

(** [a + b] on the values above (no operand is a string). *)
Definition add (a b : jsval) : jsval :=
  match toNumber a, toNumber b with
  | Some x, Some y => JNum (x + y)
  | _, _ => JNaN
  end.

(** [a - b]. *)
Definition sub (a b : jsval) : jsval :=
  match toNumber a, toNumber b with
  | Some x, Some y => JNum (x - y)
  | _, _ => JNaN
  end.

(** [ToBoolean]. *)
Definition truthy (v : jsval) : bool :=
  match v with
  | JNum q => negb (Qeq_bool q 0)
  | JUndefined | JNull | JNaN => false
  end.

(** [v || 0], where [v] is a property read that may find nothing. *)
Definition orZero (v : option jsval) : jsval :=
  match v with
  | Some x => if truthy x then x else JNum 0
  | None => JNum 0
  end.

(** Sign of a comparator result [r]; [NaN] counts as [0]. *)
Definition signOf (r : jsval) : comparison :=
  match r with
  | JNum d => (d ?= 0)%Q
  | _ => Eq
  end.

Definition isNum (v : jsval) : Prop :=
  match v with JNum _ => True | _ => False end.

(** Equality of values, numbers up to [Qeq]. *)
Definition jseq (a b : jsval) : Prop :=
  match a, b with
  | JNum x, JNum y => (x == y)%Q
  | JUndefined, JUndefined | JNull, JNull | JNaN, JNaN => True
  | _, _ => False
  end.

(** [x.toFixed(2)] read back by [parseFloat]: the nearest multiple of
    [1/100], a tie going away from zero. *)
Definition toFixed2 (x : Q) : Q :=
  if Qle_bool 0 x
  then Qfloor (x * 100 + (1 # 2)) # 100
  else - (Qfloor ((- x) * 100 + (1 # 2)) # 100).

Definition round2 (x : Q) : Q := Qred (toFixed2 x).

(** [q || 0] on a number. *)
Definition numOrZero (q : Q) : Q := if Qeq_bool q 0 then 0%Q else q.

End JsNum.
Import JsNum.

(** ** Calendar dates and [Date] objects *)

Record isodate : Type := mkDate { year : Z; month : Z; day : Z }.

Definition date_compare (a b : isodate) : comparison :=
  match (year a ?= year b)%Z with
  | Eq => match (month a ?= month b)%Z with
          | Eq => (day a ?= day b)%Z
          | c => c
          end
  | c => c
  end.

Definition date_eqb (a b : isodate) : bool :=
  match date_compare a b with Eq => true | _ => false end.

Definition date_leb (a b : isodate) : bool :=
  match date_compare a b with Gt => false | _ => true end.

(** The two getters the engine reads from a [Date]. *)
Record jsDate : Type := mkJsDate { getFullYear : Z; getMonth : Z }.

(** [new Date(s)] for a date string [s], read through [getFullYear] and
    [getMonth] by a host whose clock is not behind UTC: the fields of
    [s].  ([Js.newDate] reads it in any host.) *)
Definition newDate (s : isodate) : jsDate :=
  {| getFullYear := year s; getMonth := (month s - 1)%Z |}.

(** [new Date(y, m, 1)]: the month index is normalised into the year, and
    a year from 0 to 99 denotes 1900 + y. *)
Definition newDateYM (y m : Z) : jsDate :=
  let yr := if ((0 <=? y) && (y <=? 99))%Z then (1900 + y)%Z else y in
  {| getFullYear := (yr + m / 12)%Z; getMonth := (m mod 12)%Z |}.

(** ** Stable sort with a comparator *)

Section Sort.
Variable A : Type.
Variable cmp : A -> A -> comparison.

Fixpoint insertSorted (x : A) (l : list A) : list A :=
  match l with
  | [] => [x]
  | y :: l' =>
      match cmp x y with
      | Gt => y :: insertSorted x l'
      | _ => x :: l
      end
  end.

Fixpoint jsSort (l : list A) : list A :=
  match l with
  | [] => []
  | x :: l' => insertSorted x (jsSort l')
  end.
End Sort.

(** ** Insertion-ordered dictionaries ([Map], [Set], plain objects) *)

Module JsMap.
Section Dict.
Variables K V : Type.
Variable eqb : K -> K -> bool.

Definition t : Type := list (K * V).

Fixpoint get (m : t) (k : K) : option V :=
  match m with
  | [] => None
  | (k', v) :: m' => if eqb k' k then Some v else get m' k
  end.

Definition has (m : t) (k : K) : bool :=
  match get m k with Some _ => true | None => false end.

(** An existing key keeps its place, a new key goes last. *)
Fixpoint set (m : t) (k : K) (v : V) : t :=
  match m with
  | [] => [(k, v)]
  | (k', v') :: m' =>
      if eqb k' k then (k', v) :: m' else (k', v') :: set m' k v
  end.

Definition keys (m : t) : list K := map fst m.
Definition values (m : t) : list V := map snd m.
End Dict.
End JsMap.

Module JsSet.
Section SetOf.
Variable K : Type.
Variable eqb : K -> K -> bool.

Definition add (s : list K) (k : K) : list K :=
  if existsb (eqb k) s then s else s ++ [k].
End SetOf.
End JsSet.

(** ** Records of the data model *)

Module ValueEntry.
Record t : Type := mk
  { value : Q;
    date : isodate;
    type : option string   (* ['contribution'] on a contribution *) }.
End ValueEntry.

Module Contribution.
Record t : Type := mk { amount : Q; date : isodate }.
End Contribution.

Module Asset.
Record t : Type := mk
  { id : string;
    name : string;
    type : string;
    initialValue : Q;
    currentValue : Q;
    contributions : option (list Contribution.t);  (* [None]: not an array *)
    valueHistory : option (list ValueEntry.t) }.
End Asset.

(** Income and expense documents.  [category] and [type] exist on expenses
    only; [endDate] is [None] when the field is absent or the empty
    string. *)
Module Tx.
Record t : Type := mk
  { id : string;
    amount : jsval;
    description : string;
    category : option string;
    type : option string;
    date : isodate;
    isRecurring : bool;
    frequency : string;
    endDate : option isodate }.
End Tx.

(** Property key made of a field that may be absent. *)
Definition propKey (k : option string) : string :=
  match k with Some s => s | None => "undefined"%string end.

(** ** Value History Merger ([calculateNetWorthHistory]) *)

Module Merger.

Record Point : Type := mk { date : isodate; totalNetWorth : Q }.

(** [Map: 'YYYY-MM-DD' -> Map: assetId -> value] *)
Definition DailyValues : Type := JsMap.t isodate (JsMap.t string Q).

(** [asset.valueHistory || []] *)
Definition historyOf (asset : Asset.t) : list ValueEntry.t :=
  match Asset.valueHistory asset with Some h => h | None => [] end.

Definition byDate (a b : ValueEntry.t) : comparison :=
  date_compare (ValueEntry.date a) (ValueEntry.date b).

(** Body of [sortedValueHistory.forEach]: the inner map of the date is
    created when missing and then updated in place. *)
Definition recordEntry (assetId : string) (dailyValuesMap : DailyValues)
    (entry : ValueEntry.t) : DailyValues :=
  let date := ValueEntry.date entry in
  let m :=
    if JsMap.has date_eqb dailyValuesMap date then dailyValuesMap
    else JsMap.set date_eqb dailyValuesMap date [] in
  match JsMap.get date_eqb m date with
  | Some inner =>
      JsMap.set date_eqb m date
        (JsMap.set String.eqb inner assetId (ValueEntry.value entry))
  | None => m
  end.

(** First pass: all known asset values per day. *)
Definition firstPass (assets : list Asset.t) : DailyValues :=
  fold_left
    (fun dailyValuesMap asset =>
       let sortedValueHistory := jsSort byDate (historyOf asset) in
       fold_left (recordEntry (Asset.id asset)) sortedValueHistory
         dailyValuesMap)
    assets [].

Definition uniqueDates (dailyValuesMap : DailyValues) : list isodate :=
  jsSort date_compare (JsMap.keys dailyValuesMap).

(** [dailyValuesMap.get(date)?.get(asset.id)] *)
Definition valueOn (dailyValuesMap : DailyValues) (date : isodate)
    (assetId : string) : option Q :=
  match JsMap.get date_eqb dailyValuesMap date with
  | Some inner => JsMap.get String.eqb inner assetId
  | None => None
  end.

(** The inner [assets.forEach] of the second pass. *)
Definition carryForward (dailyValuesMap : DailyValues)
    (assets : list Asset.t) (currentAssetValuesAtDate : JsMap.t string Q)
    (date : isodate) : JsMap.t string Q :=
  fold_left
    (fun cur asset =>
       match valueOn dailyValuesMap date (Asset.id asset) with
       | Some valueForThisAssetOnThisDate =>
           JsMap.set String.eqb cur (Asset.id asset)
             valueForThisAssetOnThisDate
       | None => cur
       end)
    assets currentAssetValuesAtDate.

Definition sumValues (currentAssetValuesAtDate : JsMap.t string Q) : Q :=
  fold_left Qplus (JsMap.values currentAssetValuesAtDate) 0%Q.

(** [uniqueDates.forEach]: the state is the carried map and the series
    built so far. *)
Fixpoint walk (dailyValuesMap : DailyValues) (assets : list Asset.t)
    (dates : list isodate) (currentAssetValuesAtDate : JsMap.t string Q)
    (aggregatedHistory : list Point) : list Point :=
  match dates with
  | [] => aggregatedHistory
  | date :: rest =>
      let cur :=
        carryForward dailyValuesMap assets currentAssetValuesAtDate date in
      walk dailyValuesMap assets rest cur
        (aggregatedHistory
           ++ [ {| date := date; totalNetWorth := round2 (sumValues cur) |} ])
  end.

Definition chartData (assets : list Asset.t) : list Point :=
  let dailyValuesMap := firstPass assets in
  walk dailyValuesMap assets (uniqueDates dailyValuesMap) [] [].

(** The [Map] of objects built from [dailyValuesMap]. *)
Definition detailedDailyValues (assets : list Asset.t) : DailyValues :=
  fold_left
    (fun detailed (p : isodate * JsMap.t string Q) =>
       let obj :=
         fold_left
           (fun o (kv : string * Q) =>
              JsMap.set String.eqb o (fst kv) (snd kv))
           (snd p) [] in
       JsMap.set date_eqb detailed (fst p) obj)
    (firstPass assets) [].

Definition calculateNetWorthHistory (assets : list Asset.t)
  : list Point * DailyValues :=
  (chartData assets, detailedDailyValues assets).

End Merger.

(** ** Recurrence Activity Evaluator and Monthly Overview *)

Module Monthly.

Definition isTransactionActiveInMonth (transaction : Tx.t)
    (selectedMonthDate : jsDate) : bool :=
  let startDate := newDate (Tx.date transaction) in
  let endDate := option_map newDate (Tx.endDate transaction) in
  let startsBeforeOrInSelectedMonth :=
    ((getFullYear startDate <? getFullYear selectedMonthDate)
     || ((getFullYear startDate =? getFullYear selectedMonthDate)
         && (getMonth startDate <=? getMonth selectedMonthDate)))%Z in
  let endsAfterOrInSelectedMonth :=
    match endDate with
    | None => true
    | Some e =>
        ((getFullYear e >? getFullYear selectedMonthDate)
         || ((getFullYear e =? getFullYear selectedMonthDate)
             && (getMonth e >=? getMonth selectedMonthDate)))%Z
    end in
  startsBeforeOrInSelectedMonth && endsAfterOrInSelectedMonth.

(** The callback of [income.filter] and of [expenses.filter]. *)
Definition monthFilter (selectedMonthDate : jsDate) (item : Tx.t) : bool :=
  if Tx.isRecurring item && (Tx.frequency item =? "Monthly")%string
  then isTransactionActiveInMonth item selectedMonthDate
  else
    let itemDate := newDate (Tx.date item) in
    ((getFullYear itemDate =? getFullYear selectedMonthDate)
     && (getMonth itemDate =? getMonth selectedMonthDate))%Z.

(** [(a, b) => new Date(b.date) - new Date(a.date)] *)
Definition newestFirst (a b : Tx.t) : comparison :=
  date_compare (Tx.date b) (Tx.date a).

Definition filtered (items : list Tx.t) (selectedMonth selectedYear : Z)
  : list Tx.t :=
  let selectedMonthDate := newDateYM selectedYear (selectedMonth - 1) in
  jsSort newestFirst (filter (monthFilter selectedMonthDate) items).

Definition filteredIncome := filtered.
Definition filteredExpenses := filtered.

(** [items.reduce((sum, item) => sum + item.amount, 0)] *)
Definition total (items : list Tx.t) : jsval :=
  fold_left (fun sum item => add sum (Tx.amount item)) items (JNum 0).

Definition totalMonthlyIncome (income : list Tx.t) (m y : Z) : jsval :=
  total (filteredIncome income m y).

Definition totalMonthlyExpenses (expenses : list Tx.t) (m y : Z) : jsval :=
  total (filteredExpenses expenses m y).

Definition monthlyBalance (income expenses : list Tx.t) (m y : Z) : jsval :=
  sub (totalMonthlyIncome income m y) (totalMonthlyExpenses expenses m y).

(** [summary[k] = (summary[k] || 0) + exp.amount] for every expense. *)
Definition summarise (keyOf : Tx.t -> option string)
    (filteredExpenses : list Tx.t) : JsMap.t string jsval :=
  fold_left
    (fun summary exp =>
       let k := propKey (keyOf exp) in
       JsMap.set String.eqb summary k
         (add (orZero (JsMap.get String.eqb summary k)) (Tx.amount exp)))
    filteredExpenses [].

(** [([, a], [, b]) => b - a] *)
Definition largestFirst (x y : string * jsval) : comparison :=
  signOf (sub (snd y) (snd x)).

Definition expenseSummaryByCategory (filteredExpenses : list Tx.t)
  : list (string * jsval) :=
  jsSort largestFirst (summarise Tx.category filteredExpenses).

Definition expenseSummaryByType (filteredExpenses : list Tx.t)
  : list (string * jsval) :=
  jsSort largestFirst (summarise Tx.type filteredExpenses).

End Monthly.

(** ** Net Worth Projection Simulator ([projectionData]) *)

Module Projection.

Record Point : Type := mk { year : Z; projectedNetWorth : Q }.

Section Inputs.
Variable currentYear : Z.            (* [new Date().getFullYear()] *)
Variables annualGrowthRate monthlyContribution : Q.

Definition monthlyGrowthRate : Q := annualGrowthRate / 100 / 12.

(** One turn of the inner loop. *)
Definition monthStep (projectedValue : Q) : Q :=
  (projectedValue + monthlyContribution) * (1 + monthlyGrowthRate).

(** [for (let month = 0; month < 12; month++)], [n] turns left. *)
Fixpoint months (n : nat) (projectedValue : Q) : Q :=
  match n with
  | O => projectedValue
  | S k => months k (monthStep projectedValue)
  end.

(** [for (let year = 1; year <= projectionPeriodYears; year++)], [n]
    turns left, the loop variable being [year]. *)
Fixpoint years (n : nat) (year : Z) (projectedValue : Q)
    (data : list Point) : list Point :=
  match n with
  | O => data
  | S k =>
      let projectedValue := months 12 projectedValue in
      years k (year + 1)%Z projectedValue
        (data ++ [ {| year := (currentYear + year)%Z;
                      projectedNetWorth := round2 projectedValue |} ])
  end.

(** [currentNetWorth] is [None] when [undefined] or [null]. *)
Definition projectionData (loading : bool) (currentNetWorth : option Q)
    (projectionPeriodYears : Z) : list Point :=
  match currentNetWorth with
  | None => []
  | Some net =>
      if loading then []
      else
        years (Z.to_nat projectionPeriodYears) 1%Z net
          [ {| year := currentYear;
               projectedNetWorth := round2 net |} ]
  end.
End Inputs.

End Projection.

(** ** Asset life cycle ([addAsset], [updateAssetValue], [addContribution],
       [deleteAsset]) over the collection of asset documents

    The functions are taken with the database at hand (the early return
    on a missing handle or user does nothing), and the values the forms
    pass are the numbers [parseFloat] reads from them. *)

Module Store.

Inductive result (A : Type) : Type :=
| Ok (a : A)
| Failed (msg : string).
Arguments Failed {A} msg.

Definition assets : Type := list Asset.t.

(** [assets.find(a => a.id === assetId)] *)
Definition findAsset (db : assets) (assetId : string) : option Asset.t :=
  find (fun a => String.eqb (Asset.id a) assetId) db.

(** [updateDoc] on the document [assetId]. *)
Fixpoint updateDoc (db : assets) (assetId : string)
    (f : Asset.t -> Asset.t) : assets :=
  match db with
  | [] => []
  | a :: db' =>
      if String.eqb (Asset.id a) assetId then f a :: db'
      else a :: updateDoc db' assetId f
  end.

(** [addDoc]; [newId] is the identifier the database gives the
    document. *)
Definition addAsset (db : assets) (newId name type : string)
    (initialValue : Q) (initialDate : isodate) : assets :=
  db ++ [ {| Asset.id := newId;
             Asset.name := name;
             Asset.type := type;
             Asset.initialValue := initialValue;
             Asset.currentValue := initialValue;
             Asset.contributions := Some [];
             Asset.valueHistory :=
               Some [ ValueEntry.mk initialValue initialDate None ] |} ].

(** [today] is [new Date().toISOString().split('T')[0]].  When the asset
    is not found, reading [assetToUpdate.valueHistory] throws and the
    [catch] reports the failure. *)
Definition updateAssetValue (db : assets) (assetId : string)
    (newValue : Q) (today : isodate) : result assets :=
  match findAsset db assetId with
  | None => Failed "Failed to update asset value."
  | Some assetToUpdate =>
      let entry := ValueEntry.mk newValue today None in
      let updatedValueHistory :=
        match Asset.valueHistory assetToUpdate with
        | Some h => h ++ [entry]
        | None => [entry]
        end in
      Ok (updateDoc db assetId
            (fun a =>
               {| Asset.id := Asset.id a;
                  Asset.name := Asset.name a;
                  Asset.type := Asset.type a;
                  Asset.initialValue := Asset.initialValue a;
                  Asset.currentValue := newValue;
                  Asset.contributions := Asset.contributions a;
                  Asset.valueHistory := Some updatedValueHistory |}))
  end.

Definition addContribution (db : assets) (assetId : string)
    (amount : Q) (contributionDate : isodate) : result assets :=
  match findAsset db assetId with
  | None => Failed "Failed to add contribution."
  | Some assetToUpdate =>
      let newContribution := Contribution.mk amount contributionDate in
      let updatedContributions :=
        match Asset.contributions assetToUpdate with
        | Some c => c ++ [newContribution]
        | None => [newContribution]
        end in
      let newCurrentValue :=
        (numOrZero (Asset.currentValue assetToUpdate) + amount)%Q in
      let entry :=
        ValueEntry.mk newCurrentValue contributionDate
          (Some "contribution"%string) in
      let updatedValueHistory :=
        match Asset.valueHistory assetToUpdate with
        | Some h => h ++ [entry]
        | None => [entry]
        end in
      Ok (updateDoc db assetId
            (fun a =>
               {| Asset.id := Asset.id a;
                  Asset.name := Asset.name a;
                  Asset.type := Asset.type a;
                  Asset.initialValue := Asset.initialValue a;
                  Asset.currentValue := newCurrentValue;
                  Asset.contributions := Some updatedContributions;
                  Asset.valueHistory := Some updatedValueHistory |}))
  end.

(** [deleteDoc] *)
Definition deleteAsset (db : assets) (assetId : string) : assets :=
  filter (fun a => negb (String.eqb (Asset.id a) assetId)) db.

(** The user's actions on the collection. *)
Inductive action : Type :=
| AddAsset (newId name type : string) (initialValue : Q)
    (initialDate : isodate)
| UpdateAssetValue (assetId : string) (newValue : Q) (today : isodate)
| AddContribution (assetId : string) (amount : Q)
    (contributionDate : isodate)
| DeleteAsset (assetId : string).

(** A failed action leaves the collection as it was. *)
Definition perform (db : assets) (a : action) : assets :=
  match a with
  | AddAsset newId name type v d => addAsset db newId name type v d
  | UpdateAssetValue i v today =>
      match updateAssetValue db i v today with
      | Ok db' => db'
      | Failed _ => db
      end
  | AddContribution i amount d =>
      match addContribution db i amount d with
      | Ok db' => db'
      | Failed _ => db
      end
  | DeleteAsset i => deleteAsset db i
  end.

Definition run (actions : list action) : assets :=
  fold_left perform actions [].

End Store.

(** ** Expense documents as [addExpense] and [updateExpense] write them *)

Module Writer.

(** The field set both functions build from the form values; the empty
    string given for [endDate] is [None]. *)
Definition expenseFields (docId : string) (amount : Q)
    (description category : string) (date : isodate) (isRecurring : bool)
    (frequency : string) (endDate : option isodate) : Tx.t :=
  {| Tx.id := docId;
     Tx.amount := JNum amount;
     Tx.description := description;
     Tx.category := Some category;
     Tx.type := Some (if isRecurring then "Recurring" else "One-Off")%string;
     Tx.date := date;
     Tx.isRecurring := isRecurring;
     Tx.frequency := if isRecurring then frequency else ""%string;
     Tx.endDate := if isRecurring then endDate else None |}.

End Writer.

(** ** Asset cards and history views ([AssetsPage], [MiniAssetChart],
       [AssetHistoryDetailsModal], the hover breakdown of
       [NetWorthHistoryChart]) *)

Module AssetViews.

(** [AssetHistoryDetailsModal]: the history by date. *)
Definition sortedHistory (asset : Asset.t) : list ValueEntry.t :=
  jsSort Merger.byDate (Merger.historyOf asset).

(** The label of the row at [index]. *)
Definition rowLabel (index : nat) (entry : ValueEntry.t) : string :=
  match ValueEntry.type entry with
  | Some "contribution"%string => "Contribution"
  | _ => match index with O => "Initial Value" | S _ => "Value Update" end
  end.

(** [MiniAssetChart], with the drawing library at hand: the points that
    are drawn, [None] when the chart is cleared instead ([data] missing,
    or fewer than two points before or after the entries of one date are
    merged). *)
Definition uniqueDatesDataMap (sortedData : list ValueEntry.t)
  : JsMap.t isodate ValueEntry.t :=
  fold_left (fun m d => JsMap.set date_eqb m (ValueEntry.date d) d)
    sortedData [].

Definition uniqueSortedData (data : option (list ValueEntry.t))
  : option (list ValueEntry.t) :=
  match data with
  | None => None
  | Some data =>
      if (List.length data <? 2)%nat then None
      else
        let sortedData := jsSort Merger.byDate data in
        let uniqueSortedData :=
          jsSort Merger.byDate
            (JsMap.values (uniqueDatesDataMap sortedData)) in
        if (List.length uniqueSortedData <? 2)%nat then None
        else Some uniqueSortedData
  end.

(** The hover breakdown ([handleMouseMove]) for a date of the chart, and
    the order in which the table shows it. *)
Record Row : Type := mkRow
  { rowId : string; rowName : string; rowValue : Q; rowType : string }.

Definition breakdown (assets : list Asset.t) (hoveredDate : isodate)
  : list Row :=
  let detailedDailyValues := snd (Merger.calculateNetWorthHistory assets) in
  let valuesForHoveredDate :=
    match JsMap.get date_eqb detailedDailyValues hoveredDate with
    | Some o => o
    | None => []
    end in
  flat_map
    (fun kv : string * Q =>
       match find (fun a => String.eqb (Asset.id a) (fst kv)) assets with
       | Some assetInfo =>
           [ {| rowId := fst kv; rowName := Asset.name assetInfo;
                rowValue := snd kv; rowType := Asset.type assetInfo |} ]
       | None => []
       end)
    valuesForHoveredDate.

(** [(a, b) => b.value - a.value] *)
Definition byValueDesc (a b : Row) : comparison :=
  (rowValue b - rowValue a ?= 0)%Q.

Definition breakdownTable (assets : list Asset.t) (hoveredDate : isodate)
  : list Row :=
  jsSort byValueDesc (breakdown assets hoveredDate).

End AssetViews.

(** ** Lists of transactions ([IncomeExpensesPage] and the recent
       transactions of the dashboard) *)

Module Lists.

(** [[...income].sort((a, b) => new Date(b.date) - new Date(a.date))] *)
Definition sortedIncome (income : list Tx.t) : list Tx.t :=
  jsSort Monthly.newestFirst income.

Definition sortedExpenses (expenses : list Tx.t) : list Tx.t :=
  jsSort Monthly.newestFirst expenses.

(** [[...income, ...expenses].sort(...).slice(0, 5)] *)
Definition recentTransactions (income expenses : list Tx.t) : list Tx.t :=
  firstn 5 (jsSort Monthly.newestFirst (income ++ expenses)).

End Lists.

(** ** Income and expense documents with their change history
       ([addIncome], [updateIncome], [deleteIncome], [addExpense],
       [updateExpense], [deleteExpense])

    A document is its identifier, its field set and its [history]; the
    aggregation reads it as the transaction [toTx].  The amounts are the
    numbers the forms pass, [now] is [new Date().toISOString()], and the
    empty string given for an end date is [None]. *)

Module Ledger.

Record Snapshot : Type := mkSnapshot
  { snapFields : Tx.t; timestamp : string; changeType : string }.

Record Doc : Type := mkDoc
  { fields : Tx.t;                       (* with [Tx.id] the document's id *)
    history : option (list Snapshot)     (* [None]: not an array *) }.


Definition docId (d : Doc) : string := Tx.id (fields d).

(** The field set of an income, as both income functions build it. *)
Definition incomeFields (id : string) (amount : Q) (description : string)
    (category type : option string) (date : isodate) (isRecurring : bool)
    (frequency : string) (endDate : option isodate) : Tx.t :=
  {| Tx.id := id;
     Tx.amount := JNum amount;
     Tx.description := description;
     Tx.category := category;
     Tx.type := type;
     Tx.date := date;
     Tx.isRecurring := isRecurring;
     Tx.frequency := if isRecurring then frequency else ""%string;
     Tx.endDate := if isRecurring then endDate else None |}.

Definition findDoc (docs : list Doc) (id : string) : option Doc :=
  find (fun d => String.eqb (docId d) id) docs.

Fixpoint updateDoc (docs : list Doc) (id : string) (f : Doc -> Doc)
  : list Doc :=
  match docs with
  | [] => []
  | d :: docs' =>
      if String.eqb (docId d) id then f d :: docs'
      else d :: updateDoc docs' id f
  end.

Definition deleteDoc (docs : list Doc) (id : string) : list Doc :=
  filter (fun d => negb (String.eqb (docId d) id)) docs.

(** [addDoc] of the new field set with its first snapshot. *)
Definition addWith (docs : list Doc) (newFields : Tx.t) (now : string)
  : list Doc :=
  docs ++ [ {| fields := newFields;
               history :=
                 Some [ {| snapFields := newFields; timestamp := now;
                           changeType := "Initial Entry" |} ] |} ].

(** [updateDoc] with the history extended by a snapshot of the [updated]
    field set; [stored] is the field set of the document afterwards.  When
    the document is not found, reading its [history] throws and the
    function answers [false], here [None]. *)
Definition updateWith (docs : list Doc) (id : string) (updated : Tx.t)
    (stored : Doc -> Tx.t) (now : string) : option (list Doc) :=
  match findDoc docs id with
  | None => None
  | Some toUpdate =>
      let updatedHistory :=
        match history toUpdate with
        | Some h =>
            h ++ [ {| snapFields := updated; timestamp := now;
                      changeType := "Update" |} ]
        | None =>
            [ {| snapFields := updated; timestamp := now;
                 changeType := "Initial Entry" |} ]
        end in
      Some (updateDoc docs id
              (fun old => {| fields := stored old;
                             history := Some updatedHistory |}))
  end.

Definition addIncome (income : list Doc) (newId : string) (amount : Q)
    (description : string) (date : isodate) (isRecurring : bool)
    (frequency : string) (endDate : option isodate) (now : string)
  : list Doc :=
  addWith income
    (incomeFields newId amount description None None date isRecurring
       frequency endDate)
    now.

(** The update writes the fields of an income; a [category] or [type]
    the document may have besides stays. *)
Definition updateIncome (income : list Doc) (incomeId : string)
    (newAmount : Q) (newDescription : string) (newDate : isodate)
    (newIsRecurring : bool) (newFrequency : string)
    (newEndDate : option isodate) (now : string) : option (list Doc) :=
  updateWith income incomeId
    (incomeFields incomeId newAmount newDescription None None newDate
       newIsRecurring newFrequency newEndDate)
    (fun old =>
       incomeFields incomeId newAmount newDescription
         (Tx.category (fields old)) (Tx.type (fields old)) newDate
         newIsRecurring newFrequency newEndDate)
    now.

Definition deleteIncome := deleteDoc.

Definition addExpense (expenses : list Doc) (newId : string) (amount : Q)
    (description category : string) (date : isodate) (isRecurring : bool)
    (frequency : string) (endDate : option isodate) (now : string)
  : list Doc :=
  addWith expenses
    (Writer.expenseFields newId amount description category date
       isRecurring frequency endDate)
    now.

Definition updateExpense (expenses : list Doc) (expenseId : string)
    (newAmount : Q) (newDescription newCategory : string)
    (newDate : isodate) (newIsRecurring : bool) (newFrequency : string)
    (newEndDate : option isodate) (now : string) : option (list Doc) :=
  let updatedExpense :=
    Writer.expenseFields expenseId newAmount newDescription newCategory
      newDate newIsRecurring newFrequency newEndDate in
  updateWith expenses expenseId updatedExpense (fun _ => updatedExpense) now.

Definition deleteExpense := deleteDoc.

(** The user's actions on the two collections. *)
Inductive action : Type :=
| AddIncome (newId : string) (amount : Q) (description : string)
    (date : isodate) (isRecurring : bool) (frequency : string)
    (endDate : option isodate) (now : string)
| UpdateIncome (incomeId : string) (newAmount : Q) (newDescription : string)
    (newDate : isodate) (newIsRecurring : bool) (newFrequency : string)
    (newEndDate : option isodate) (now : string)
| DeleteIncome (incomeId : string)
| AddExpense (newId : string) (amount : Q) (description category : string)
    (date : isodate) (isRecurring : bool) (frequency : string)
    (endDate : option isodate) (now : string)
| UpdateExpense (expenseId : string) (newAmount : Q)
    (newDescription newCategory : string) (newDate : isodate)
    (newIsRecurring : bool) (newFrequency : string)
    (newEndDate : option isodate) (now : string)
| DeleteExpense (expenseId : string).

Record Books : Type := mkBooks { income : list Doc; expenses : list Doc }.

Definition orElse (r : option (list Doc)) (docs : list Doc) : list Doc :=
  match r with Some docs' => docs' | None => docs end.

(** A failed update leaves the collection as it was. *)
Definition perform (b : Books) (a : action) : Books :=
  match a with
  | AddIncome i amt desc d r f e now =>
      {| income := addIncome (income b) i amt desc d r f e now;
         expenses := expenses b |}
  | UpdateIncome i amt desc d r f e now =>
      {| income := orElse (updateIncome (income b) i amt desc d r f e now)
                     (income b);
         expenses := expenses b |}
  | DeleteIncome i =>
      {| income := deleteIncome (income b) i; expenses := expenses b |}
  | AddExpense i amt desc c d r f e now =>
      {| income := income b;
         expenses := addExpense (expenses b) i amt desc c d r f e now |}
  | UpdateExpense i amt desc c d r f e now =>
      {| income := income b;
         expenses :=
           orElse (updateExpense (expenses b) i amt desc c d r f e now)
             (expenses b) |}
  | DeleteExpense i =>
      {| income := income b; expenses := deleteExpense (expenses b) i |}
  end.

Definition run (actions : list action) : Books :=
  fold_left perform actions {| income := []; expenses := [] |}.

End Ledger.

(* ================================================================== *)
(** * Part I, continued.  The program on its JavaScript host

    Module [Js] embeds the functions as the host runs them:
    - a number is an IEEE 754 binary64 value (the kernel's primitive
      [float]), [+], [-], [*] and [/] are its correctly rounded
      operations, and [NaN], the infinities and [-0] are values of it;
    - an amount read from storage is any value the store can hold
      (missing, [null], a boolean, a number, a string or an object), and
      [+] on such values concatenates as soon as one operand is a string;
    - [new Date('YYYY-MM-DD')] is the UTC midnight that begins the date and
      [getFullYear] and [getMonth] read it on the local clock, which in a
      host behind UTC still shows the day before;
    - an object used as a dictionary lists its array-index keys first, in
      ascending order, and reads a key it does not own from
      [Object.prototype]. *)
(* ================================================================== *)

Module Js.

(** ** Numbers *)

(** [x || 0]: [0], [-0] and [NaN] are falsy. *)
Definition numOrZero (x : float) : float :=
  if (PrimFloat.is_nan x || PrimFloat.eqb x 0)%bool then 0%float else x.

(** [Number.prototype.toFixed(2)] takes the integer [n] for which
    [n / 100 - x] is as close to zero as possible, the larger one of two
    such; [cents m e] is this [n] for the magnitude [m * 2 ^ e] of a
    finite number. *)
Definition cents (m : positive) (e : Z) : Z :=
  match e with
  | Zneg p => (200 * Zpos m + 2 ^ Zpos p) / 2 ^ (Zpos p + 1)
  | _ => 100 * Zpos m * 2 ^ e
  end%Z.

(** [1e21 <= m * 2 ^ e]: from there on [toFixed] answers the plain
    numeral of the number. *)
Definition fromSextillion (m : positive) (e : Z) : bool :=
  match e with
  | Zneg p => (10 ^ 21 * 2 ^ Zpos p <=? Zpos m)%Z
  | _ => (10 ^ 21 <=? Zpos m * 2 ^ e)%Z
  end.

(** [parseFloat] of the decimal numeral of [n / 100]: the binary64 value
    nearest to it, ties to even. *)
Definition ofCents (n : Z) : float :=
  match n with
  | Zpos p =>
      SF2Prim
        (SFdiv prec emax (S754_finite false p 0) (S754_finite false 100 0))
  | _ => 0%float
  end.

(** [parseFloat(x.toFixed(2))].  [toFixed] answers ["NaN"], ["Infinity"]
    and, from [1e21] on, the plain numeral of the number, all of which
    [parseFloat] reads back as the number itself; below that it answers
    the numeral with two decimals, with a minus sign when [x < 0] (so
    ["0.00"] for [-0]). *)
Definition round2 (x : float) : float :=
  match Prim2SF x with
  | S754_nan | S754_infinity _ => x
  | S754_zero _ => 0%float
  | S754_finite s m e =>
      if fromSextillion m e then x
      else if s then PrimFloat.opp (ofCents (cents m e))
      else ofCents (cents m e)
  end.

(** ** Net Worth Projection Simulator ([projectionData]) *)

Module Projection.

Record Point : Type := mk { year : Z; projectedNetWorth : float }.

Section Inputs.
Variable currentYear : Z.            (* [new Date().getFullYear()] *)
Variables annualGrowthRate monthlyContribution : float.

Definition monthlyGrowthRate : float :=
  (annualGrowthRate / 100 / 12)%float.

(** One turn of the inner loop. *)
Definition monthStep (projectedValue : float) : float :=
  ((projectedValue + monthlyContribution) * (1 + monthlyGrowthRate))%float.

(** [for (let month = 0; month < 12; month++)], [n] turns left. *)
Fixpoint months (n : nat) (projectedValue : float) : float :=
  match n with
  | O => projectedValue
  | S k => months k (monthStep projectedValue)
  end.

(** [for (let year = 1; year <= projectionPeriodYears; year++)], [n]
    turns left, the loop variable being [year]. *)
Fixpoint years (n : nat) (year : Z) (projectedValue : float)
    (data : list Point) : list Point :=
  match n with
  | O => data
  | S k =>
      let projectedValue := months 12 projectedValue in
      years k (year + 1)%Z projectedValue
        (data ++ [ {| year := (currentYear + year)%Z;
                      projectedNetWorth := round2 projectedValue |} ])
  end.

(** [currentNetWorth] is [None] when [undefined] or [null];
    [projectionPeriodYears] is the integer [parseInt] read, [None] when it
    read [NaN], with which the loop does not run. *)
Definition projectionData (loading : bool) (currentNetWorth : option float)
    (projectionPeriodYears : option Z) : list Point :=
  match currentNetWorth with
  | None => []
  | Some net =>
      if loading then []
      else
        years
          (match projectionPeriodYears with
           | Some h => Z.to_nat h
           | None => O
           end)
          1%Z net
          [ {| year := currentYear;
               projectedNetWorth := round2 net |} ]
  end.
End Inputs.

End Projection.

(** ** Values read from storage, and [+], [-] and [||] on them *)

Inductive value : Type :=
| VUndefined                   (* the field is missing *)
| VNull
| VBool (b : bool)
| VNum (x : float)
| VStr (s : string)
| VObj (s : string).           (* an array, a map or a timestamp; [s] is the
                                  string its conversion to a primitive gives *)

(** The conversions between numbers and strings of the runtime,
    [Number::toString] and [StringToNumber], and the text it gives for
    the built-in function of a name.  The engine reaches them only
    through an amount or a key that is not what the forms write; they
    are taken as given. *)
Record conversions : Type := mkConversions
  { numberToString : float -> string;
    stringToNumber : string -> float;
    functionToString : string -> string }.

Section Values.
Variable rt : conversions.

(** [ToPrimitive] *)
Definition toPrimitive (v : value) : value :=
  match v with VObj s => VStr s | _ => v end.

(** [ToString] of a primitive. *)
Definition toString (v : value) : string :=
  match v with
  | VUndefined => "undefined"
  | VNull => "null"
  | VBool true => "true"
  | VBool false => "false"
  | VNum x => numberToString rt x
  | VStr s | VObj s => s
  end.

(** [ToNumber] of a primitive. *)
Definition toNumber (v : value) : float :=
  match v with
  | VUndefined => nan
  | VNull => 0%float
  | VBool true => 1%float
  | VBool false => 0%float
  | VNum x => x
  | VStr s | VObj s => stringToNumber rt s
  end.

Definition isString (v : value) : bool :=
  match v with VStr _ => true | _ => false end.

(** [a + b]: when either operand is a string after [ToPrimitive] the
    two are run together as strings, and else they are added as
    numbers. *)
Definition plus (a b : value) : value :=
  let a := toPrimitive a in
  let b := toPrimitive b in
  if (isString a || isString b)%bool
  then VStr (toString a ++ toString b)
  else VNum (toNumber a + toNumber b)%float.

(** [a - b] *)
Definition minus (a b : value) : float :=
  (toNumber (toPrimitive a) - toNumber (toPrimitive b))%float.

(** [ToBoolean] *)
Definition truthy (v : value) : bool :=
  match v with
  | VUndefined | VNull => false
  | VBool b => b
  | VNum x => negb (PrimFloat.is_nan x || PrimFloat.eqb x 0)
  | VStr s => negb (String.eqb s "")
  | VObj _ => true
  end.

(** [v || 0] *)
Definition orZero (v : value) : value :=
  if truthy v then v else VNum 0.


(** What a comparator's answer means to [sort]: negative, positive, and
    [NaN] taken as [0]. *)
Definition signOf (x : float) : comparison :=
  if PrimFloat.ltb x 0 then Lt
  else if PrimFloat.ltb 0 x then Gt
  else Eq.

End Values.

(** ** Plain objects used as dictionaries *)

Module Obj.

(** The methods an object inherits from [Object.prototype]: the name of
    the property and the name of the function it holds. *)
Definition methods : list (string * string) :=
  [ ("constructor", "Object");
    ("hasOwnProperty", "hasOwnProperty");
    ("isPrototypeOf", "isPrototypeOf");
    ("propertyIsEnumerable", "propertyIsEnumerable");
    ("toLocaleString", "toLocaleString");
    ("toString", "toString");
    ("valueOf", "valueOf");
    ("__defineGetter__", "__defineGetter__");
    ("__defineSetter__", "__defineSetter__");
    ("__lookupGetter__", "__lookupGetter__");
    ("__lookupSetter__", "__lookupSetter__") ]%string.

(** The own properties, in the order of their creation. *)
Definition t : Type := JsMap.t string value.

(** A decimal numeral read from the left; [None] when a character is not
    a digit. *)
Fixpoint digits (s : string) (acc : N) : option N :=
  match s with
  | EmptyString => Some acc
  | String c s' =>
      let n := Ascii.N_of_ascii c in
      if ((48 <=? n) && (n <=? 57))%N
      then digits s' (10 * acc + (n - 48))%N
      else None
  end.

(** The array index a property name denotes: the canonical numeral of an
    integer from [0] to [2^32 - 2]. *)
Definition arrayIndex (k : string) : option N :=
  match k with
  | EmptyString => None
  | String c rest =>
      if (Ascii.eqb c "0"%char && negb (String.eqb rest ""))%bool then None
      else
        match digits k 0 with
        | Some n => if (n <? 2 ^ 32 - 1)%N then Some n else None
        | None => None
        end
  end.

Definition isArrayIndex (k : string) : bool :=
  match arrayIndex k with Some _ => true | None => false end.

Definition byIndex (x y : string * value) : comparison :=
  match arrayIndex (fst x), arrayIndex (fst y) with
  | Some a, Some b => (a ?= b)%N
  | _, _ => Eq
  end.

(** [Object.entries(o)]: the array indices in ascending order, then the
    other names in the order of their creation. *)
Definition entries (o : t) : list (string * value) :=
  jsSort byIndex (filter (fun kv => isArrayIndex (fst kv)) o)
  ++ filter (fun kv => negb (isArrayIndex (fst kv))) o.

Section Reads.
Variable rt : conversions.

(** What a name that is not an own property reads: the prototype itself
    under [__proto__], a method of it, or [undefined]. *)
Definition inherited (k : string) : value :=
  if (k =? "__proto__")%string then VObj "[object Object]"
  else
    match JsMap.get String.eqb methods k with
    | Some name => VObj (functionToString rt name)
    | None => VUndefined
    end.

(** [o[k]] *)
Definition get (o : t) (k : string) : value :=
  match JsMap.get String.eqb o k with
  | Some v => v
  | None => inherited k
  end.

(** [o[k] = (o[k] || 0) + amount].  The sum is a number or a string.
    Under [__proto__] the assignment reaches the setter of
    [Object.prototype], which does nothing with such a value; under any
    other name it writes an own property, a new one going last. *)
Definition addTo (o : t) (k : string) (amount : value) : t :=
  if (k =? "__proto__")%string then o
  else JsMap.set String.eqb o k (plus rt (orZero (get o k)) amount).

End Reads.

End Obj.

(** ** Dates on the host's clock *)

(** The host's time zone as the engine meets it: [behind d] says whether,
    at the UTC midnight that begins the calendar date [d], the local
    clock is behind UTC (as it is all year in the Americas).  Local time
    differs from UTC by less than a day, so the local clock then still
    shows the day before [d], and else shows [d]. *)
Definition host : Type := isodate -> bool.

Definition utc : host := fun _ => false.
Definition west : host := fun _ => true.

(** [new Date(s)] for a date string [s], read through [getFullYear] and
    [getMonth]: the fields of [s], or of the day before it. *)
Definition newDate (behind : host) (s : isodate) : jsDate :=
  if behind s && (day s <=? 1)%Z
  then
    if (month s <=? 1)%Z
    then {| getFullYear := (year s - 1)%Z; getMonth := 11%Z |}
    else {| getFullYear := year s; getMonth := (month s - 2)%Z |}
  else {| getFullYear := year s; getMonth := (month s - 1)%Z |}.

(** ** Income and expense records *)

Module Tx.
Record t : Type := mk
  { id : string;
    amount : value;
    description : string;
    category : option string;    (* [None]: the field is missing *)
    type : option string;
    date : isodate;
    isRecurring : bool;
    frequency : string;
    endDate : option isodate     (* [None]: missing or empty *) }.
End Tx.

(** ** Recurrence Activity Evaluator and Monthly Overview *)

Module Monthly.

Section OnHost.
Variable behind : host.

Definition isTransactionActiveInMonth (transaction : Tx.t)
    (selectedMonthDate : jsDate) : bool :=
  let startDate := newDate behind (Tx.date transaction) in
  let endDate := option_map (newDate behind) (Tx.endDate transaction) in
  let startsBeforeOrInSelectedMonth :=
    ((getFullYear startDate <? getFullYear selectedMonthDate)
     || ((getFullYear startDate =? getFullYear selectedMonthDate)
         && (getMonth startDate <=? getMonth selectedMonthDate)))%Z in
  let endsAfterOrInSelectedMonth :=
    match endDate with
    | None => true
    | Some e =>
        ((getFullYear e >? getFullYear selectedMonthDate)
         || ((getFullYear e =? getFullYear selectedMonthDate)
             && (getMonth e >=? getMonth selectedMonthDate)))%Z
    end in
  startsBeforeOrInSelectedMonth && endsAfterOrInSelectedMonth.

(** The callback of [income.filter] and of [expenses.filter]. *)
Definition monthFilter (selectedMonthDate : jsDate) (item : Tx.t) : bool :=
  if Tx.isRecurring item && (Tx.frequency item =? "Monthly")%string
  then isTransactionActiveInMonth item selectedMonthDate
  else
    let itemDate := newDate behind (Tx.date item) in
    ((getFullYear itemDate =? getFullYear selectedMonthDate)
     && (getMonth itemDate =? getMonth selectedMonthDate))%Z.

(** [(a, b) => new Date(b.date) - new Date(a.date)]: a difference of UTC
    time stamps, whose sign is that of the comparison of the dates. *)
Definition newestFirst (a b : Tx.t) : comparison :=
  date_compare (Tx.date b) (Tx.date a).

Definition filtered (items : list Tx.t) (selectedMonth selectedYear : Z)
  : list Tx.t :=
  let selectedMonthDate := newDateYM selectedYear (selectedMonth - 1) in
  jsSort newestFirst (filter (monthFilter selectedMonthDate) items).

Definition filteredIncome := filtered.
Definition filteredExpenses := filtered.

(** [availableYears]; [currentYear] is [new Date().getFullYear()]. *)
Definition addYears (years : list Z) (dates : list isodate) : list Z :=
  fold_left
    (fun ys d => JsSet.add Z.eqb ys (getFullYear (newDate behind d)))
    dates years.

(** [items.filter(i => i.isRecurring && i.endDate)], and the end dates the
    [forEach] then reads. *)
Definition withRecurringEnd (items : list Tx.t) : list Tx.t :=
  filter
    (fun i =>
       Tx.isRecurring i
       && match Tx.endDate i with Some _ => true | None => false end)
    items.

Definition recurringEndDates (items : list Tx.t) : list isodate :=
  flat_map
    (fun i => match Tx.endDate i with Some e => [e] | None => [] end)
    (withRecurringEnd items).

Definition availableYears (currentYear : Z) (income expenses : list Tx.t)
  : list Z :=
  let years := JsSet.add Z.eqb [] currentYear in
  let years := JsSet.add Z.eqb years (currentYear - 1)%Z in
  let years := JsSet.add Z.eqb years (currentYear + 1)%Z in
  let years := addYears years (map Tx.date income) in
  let years := addYears years (map Tx.date expenses) in
  let years := addYears years (recurringEndDates income) in
  let years := addYears years (recurringEndDates expenses) in
  jsSort (fun a b => (b ?= a)%Z) years.

Variable rt : conversions.

(** [items.reduce((sum, item) => sum + item.amount, 0)] *)
Definition total (items : list Tx.t) : value :=
  fold_left (fun sum item => plus rt sum (Tx.amount item)) items
    (VNum 0).

Definition totalMonthlyIncome (income : list Tx.t) (m y : Z) : value :=
  total (filteredIncome income m y).

Definition totalMonthlyExpenses (expenses : list Tx.t) (m y : Z) : value :=
  total (filteredExpenses expenses m y).

Definition monthlyBalance (income expenses : list Tx.t) (m y : Z) : float :=
  minus rt (totalMonthlyIncome income m y)
    (totalMonthlyExpenses expenses m y).


(** [summary[exp.category] = (summary[exp.category] || 0) + exp.amount]
    for every expense, on [summary = {}]; [keyOf] reads the field. *)
Definition summarise (keyOf : Tx.t -> option string)
    (filteredExpenses : list Tx.t) : Obj.t :=
  fold_left
    (fun summary exp =>
       Obj.addTo rt summary (propKey (keyOf exp)) (Tx.amount exp))
    filteredExpenses [].

(** [([, a], [, b]) => b - a] *)
Definition largestFirst (x y : string * value) : comparison :=
  signOf (minus rt (snd y) (snd x)).

Definition expenseSummaryByCategory (filteredExpenses : list Tx.t)
  : list (string * value) :=
  jsSort largestFirst (Obj.entries (summarise Tx.category filteredExpenses)).

Definition expenseSummaryByType (filteredExpenses : list Tx.t)
  : list (string * value) :=
  jsSort largestFirst (Obj.entries (summarise Tx.type filteredExpenses)).

End OnHost.

End Monthly.

(** ** Dashboard: the current month *)

Module Dashboard.

Section Now.
Variable behind : host.
(** [new Date().getMonth()] and [new Date().getFullYear()] *)
Variables currentMonth currentYear : Z.

Definition isTransactionActiveInCurrentMonth (transaction : Tx.t) : bool :=
  let startDate := newDate behind (Tx.date transaction) in
  let endDate := option_map (newDate behind) (Tx.endDate transaction) in
  let startsBeforeOrInCurrentMonth :=
    ((getFullYear startDate <? currentYear)
     || ((getFullYear startDate =? currentYear)
         && (getMonth startDate <=? currentMonth)))%Z in
  let endsAfterOrInCurrentMonth :=
    match endDate with
    | None => true
    | Some e =>
        ((getFullYear e >? currentYear)
         || ((getFullYear e =? currentYear)
             && (getMonth e >=? currentMonth)))%Z
    end in
  startsBeforeOrInCurrentMonth && endsAfterOrInCurrentMonth.

(** The callback of the three [filter] calls of the dashboard. *)
Definition currentMonthFilter (item : Tx.t) : bool :=
  if Tx.isRecurring item && (Tx.frequency item =? "Monthly")%string
  then isTransactionActiveInCurrentMonth item
  else
    let itemDate := newDate behind (Tx.date item) in
    ((getMonth itemDate =? currentMonth)
     && (getFullYear itemDate =? currentYear))%Z.

Variable rt : conversions.

Definition currentMonthTotal (items : list Tx.t) : value :=
  fold_left (fun sum item => plus rt sum (Tx.amount item))
    (filter currentMonthFilter items) (VNum 0).

Definition currentMonthIncome := currentMonthTotal.
Definition currentMonthExpenses := currentMonthTotal.

Definition currentMonthBalance (income expenses : list Tx.t) : float :=
  minus rt (currentMonthIncome income) (currentMonthExpenses expenses).
End Now.

End Dashboard.

(** ** Assets and their value histories *)

Module ValueEntry.
Record t : Type := mk
  { value : float;
    date : isodate;
    type : option string   (* ['contribution'] on a contribution *) }.
End ValueEntry.

Module Contribution.
Record t : Type := mk { amount : float; date : isodate }.
End Contribution.

Module Asset.
Record t : Type := mk
  { id : string;
    name : string;
    type : string;
    initialValue : float;
    currentValue : float;
    contributions : option (list Contribution.t);  (* [None]: not an array *)
    valueHistory : option (list ValueEntry.t) }.
End Asset.

(** ** Value History Merger ([calculateNetWorthHistory]) *)

Module Merger.

Record Point : Type := mk { date : isodate; totalNetWorth : float }.

(** [Map: 'YYYY-MM-DD' -> Map: assetId -> value] *)
Definition DailyValues : Type := JsMap.t isodate (JsMap.t string float).

(** [asset.valueHistory || []] *)
Definition historyOf (asset : Asset.t) : list ValueEntry.t :=
  match Asset.valueHistory asset with Some h => h | None => [] end.

(** [(a, b) => new Date(a.date) - new Date(b.date)]: a difference of UTC
    time stamps, whose sign is that of the comparison of the dates. *)
Definition byDate (a b : ValueEntry.t) : comparison :=
  date_compare (ValueEntry.date a) (ValueEntry.date b).

(** Body of [sortedValueHistory.forEach]: the inner map of the date is
    created when missing and then updated in place. *)
Definition recordEntry (assetId : string) (dailyValuesMap : DailyValues)
    (entry : ValueEntry.t) : DailyValues :=
  let date := ValueEntry.date entry in
  let m :=
    if JsMap.has date_eqb dailyValuesMap date then dailyValuesMap
    else JsMap.set date_eqb dailyValuesMap date [] in
  match JsMap.get date_eqb m date with
  | Some inner =>
      JsMap.set date_eqb m date
        (JsMap.set String.eqb inner assetId (ValueEntry.value entry))
  | None => m
  end.

(** First pass: all known asset values per day. *)
Definition firstPass (assets : list Asset.t) : DailyValues :=
  fold_left
    (fun dailyValuesMap asset =>
       let sortedValueHistory := jsSort byDate (historyOf asset) in
       fold_left (recordEntry (Asset.id asset)) sortedValueHistory
         dailyValuesMap)
    assets [].

Definition uniqueDates (dailyValuesMap : DailyValues) : list isodate :=
  jsSort date_compare (JsMap.keys dailyValuesMap).

(** [dailyValuesMap.get(date)?.get(asset.id)] *)
Definition valueOn (dailyValuesMap : DailyValues) (date : isodate)
    (assetId : string) : option float :=
  match JsMap.get date_eqb dailyValuesMap date with
  | Some inner => JsMap.get String.eqb inner assetId
  | None => None
  end.

(** The inner [assets.forEach] of the second pass. *)
Definition carryForward (dailyValuesMap : DailyValues)
    (assets : list Asset.t)
    (currentAssetValuesAtDate : JsMap.t string float)
    (date : isodate) : JsMap.t string float :=
  fold_left
    (fun cur asset =>
       match valueOn dailyValuesMap date (Asset.id asset) with
       | Some valueForThisAssetOnThisDate =>
           JsMap.set String.eqb cur (Asset.id asset)
             valueForThisAssetOnThisDate
       | None => cur
       end)
    assets currentAssetValuesAtDate.

(** [currentAssetValuesAtDate.forEach(value => { totalNetWorthOnDate +=
    value; })] on [totalNetWorthOnDate = 0]: the values are added in the
    order in which the map received its keys. *)
Definition sumValues (currentAssetValuesAtDate : JsMap.t string float)
  : float :=
  fold_left PrimFloat.add (JsMap.values currentAssetValuesAtDate) 0%float.

(** [uniqueDates.forEach]: the state is the carried map and the series
    built so far. *)
Fixpoint walk (dailyValuesMap : DailyValues) (assets : list Asset.t)
    (dates : list isodate) (currentAssetValuesAtDate : JsMap.t string float)
    (aggregatedHistory : list Point) : list Point :=
  match dates with
  | [] => aggregatedHistory
  | date :: rest =>
      let cur :=
        carryForward dailyValuesMap assets currentAssetValuesAtDate date in
      walk dailyValuesMap assets rest cur
        (aggregatedHistory
           ++ [ {| date := date; totalNetWorth := round2 (sumValues cur) |} ])
  end.

Definition chartData (assets : list Asset.t) : list Point :=
  let dailyValuesMap := firstPass assets in
  walk dailyValuesMap assets (uniqueDates dailyValuesMap) [] [].

End Merger.

(** ** The dashboard's chart of categories *)

Module Lists.

Record Slice : Type := mkSlice { name : string; value : value }.

Section Chart.
Variable behind : host.
Variables currentMonth currentYear : Z.
Variable rt : conversions.

(** [expenseCategoriesData]: [{ name, value }] per entry of the summary
    of the expenses of the current month. *)
Definition expenseCategoriesData (expenses : list Tx.t) : list Slice :=
  map (fun kv => {| name := fst kv; value := snd kv |})
    (Obj.entries
       (Monthly.summarise rt Tx.category
          (filter
             (Dashboard.currentMonthFilter behind currentMonth currentYear)
             expenses))).
End Chart.

End Lists.

End Js.


(* ================================================================== *)
(** * Part II.  The specification's vocabulary *)
(* ================================================================== *)

(** A calendar month: (year, month) with months counted from 1. *)
Definition ym : Type := (Z * Z)%type.

Definition ymOf (d : isodate) : ym := (year d, month d).

(** Year first, then month. *)
Definition ym_le (a b : ym) : Prop :=
  (fst a < fst b)%Z \/ (fst a = fst b /\ (snd a <= snd b)%Z).

Definition ym_lt (a b : ym) : Prop :=
  (fst a < fst b)%Z \/ (fst a = fst b /\ (snd a < snd b)%Z).

(** The [Date] object of the first day of a calendar month. *)
Definition monthDate (target : ym) : jsDate :=
  {| getFullYear := fst target; getMonth := (snd target - 1)%Z |}.

(** The chronologically latest entry of a history: latest by date, and
    among entries of one date the one inserted last. *)
Definition laterOf (best : option ValueEntry.t) (e : ValueEntry.t)
  : option ValueEntry.t :=
  match best with
  | None => Some e
  | Some b =>
      if date_leb (ValueEntry.date b) (ValueEntry.date e) then Some e
      else Some b
  end.

Definition chronLatest (h : list ValueEntry.t) : option ValueEntry.t :=
  fold_left laterOf h None.

(** The value an asset is known to have on a date: that of its latest
    entry dated on or before it. *)
Definition knownValue (asset : Asset.t) (d : isodate) : option Q :=
  option_map ValueEntry.value
    (chronLatest
       (filter (fun e => date_leb (ValueEntry.date e) d)
          (Merger.historyOf asset))).

(** Values of the assets that have one; the others add no term. *)
Definition knownValues (assets : list Asset.t) (d : isodate) : list Q :=
  flat_map
    (fun a => match knownValue a d with Some v => [v] | None => [] end)
    assets.

Definition sumQ (l : list Q) : Q := fold_right Qplus 0%Q l.

(** All dates on which some asset has an entry. *)
Definition recordedDates (assets : list Asset.t) : list isodate :=
  flat_map (fun a => map ValueEntry.date (Merger.historyOf a)) assets.

Definition date_lt (a b : isodate) : Prop := date_compare a b = Lt.




Definition numericAmount (t : Tx.t) : Prop := isNum (Tx.amount t).


(** The [type] field agrees with the [isRecurring] flag, as the writers of
    expense documents make it. *)
Definition typeDerived (t : Tx.t) : Prop :=
  Tx.type t = Some (if Tx.isRecurring t then "Recurring" else "One-Off")%string.






(** The last element of a history. *)
Definition lastEntry (h : list ValueEntry.t) : option ValueEntry.t :=
  match rev h with e :: _ => Some e | [] => None end.

(** The value an asset records on a date itself: that of the last entry
    of this date in its history. *)
Definition onDate (d : isodate) (e : ValueEntry.t) : bool :=
  date_eqb (ValueEntry.date e) d.

Definition explicitEntry (asset : Asset.t) (d : isodate)
  : option ValueEntry.t :=
  lastEntry (filter (onDate d) (Merger.historyOf asset)).

Definition explicitOn (asset : Asset.t) (d : isodate) : option Q :=
  option_map ValueEntry.value (explicitEntry asset d).

(** The value a carried map holds for an identifier, [0] when none. *)
Definition valueOr0 (cur : JsMap.t string Q) (i : string) : Q :=
  match JsMap.get String.eqb cur i with Some v => v | None => 0%Q end.

(** Is the identifier that of an asset of the collection? *)
Definition isAssetOf (assets : list Asset.t) (i : string) : bool :=
  existsb (fun a => String.eqb (Asset.id a) i) assets.

(** The value carried for an identifier over the dates [ds], from the
    values recorded per day. *)
Definition carriedIn (dailyValuesMap : Merger.DailyValues) (i : string)
    (ds : list isodate) (start : option Q) : option Q :=
  fold_left
    (fun acc d =>
       match Merger.valueOn dailyValuesMap d i with
       | Some v => Some v
       | None => acc
       end)
    ds start.

(** The entry carried over the dates [ds] from a history. *)
Definition carriedEntry (h : list ValueEntry.t) (ds : list isodate)
    (start : option ValueEntry.t) : option ValueEntry.t :=
  fold_left
    (fun acc d =>
       match lastEntry (filter (onDate d) h) with
       | Some e => Some e
       | None => acc
       end)
    ds start.

(** [currentValue] is the value of the entry appended last. *)
Definition currentIsLast (a : Asset.t) : Prop :=
  exists e, lastEntry (Merger.historyOf a) = Some e
            /\ Asset.currentValue a = ValueEntry.value e.

(** [currentValue] is the value of the chronologically latest entry. *)
Definition currentIsChronLatest (a : Asset.t) : Prop :=
  exists e, chronLatest (Merger.historyOf a) = Some e
            /\ (Asset.currentValue a == ValueEntry.value e)%Q.

(** ** Sample data used in the examples *)

(** Two incomes and two expenses around March 2024. *)
Definition salary : Tx.t :=
  {| Tx.id := "i1"; Tx.amount := JNum 3000; Tx.description := "salary";
     Tx.category := None; Tx.type := None;
     Tx.date := mkDate 2023 9 1;
     Tx.isRecurring := true; Tx.frequency := "Monthly";
     Tx.endDate := None |}.

Definition bonus : Tx.t :=
  {| Tx.id := "i2"; Tx.amount := JNum 500; Tx.description := "bonus";
     Tx.category := None; Tx.type := None;
     Tx.date := mkDate 2024 3 20;
     Tx.isRecurring := false; Tx.frequency := "";
     Tx.endDate := None |}.




(** An asset created on 2024-06-01 receives a contribution dated
    2024-01-15. *)
Definition backdated : list Store.action :=
  [ Store.AddAsset "a1" "Savings" "Cash" 100 (mkDate 2024 6 1);
    Store.AddContribution "a1" 50 (mkDate 2024 1 15) ].

Definition backdatedAsset : Asset.t :=
  {| Asset.id := "a1"; Asset.name := "Savings"; Asset.type := "Cash";
     Asset.initialValue := 100; Asset.currentValue := 150;
     Asset.contributions :=
       Some [Contribution.mk 50 (mkDate 2024 1 15)];
     Asset.valueHistory :=
       Some [ ValueEntry.mk 100 (mkDate 2024 6 1) None;
              ValueEntry.mk 150 (mkDate 2024 1 15)
                (Some "contribution"%string) ] |}.

(** The two assets of the example of the specification. *)
Definition assetA : Asset.t :=
  {| Asset.id := "A"; Asset.name := "Asset A"; Asset.type := "Cash";
     Asset.initialValue := 100; Asset.currentValue := 100;
     Asset.contributions := Some [];
     Asset.valueHistory :=
       Some [ValueEntry.mk 100 (mkDate 2024 1 1) None] |}.

Definition assetB : Asset.t :=
  {| Asset.id := "B"; Asset.name := "Asset B"; Asset.type := "Investment";
     Asset.initialValue := 50; Asset.currentValue := 50;
     Asset.contributions := Some [];
     Asset.valueHistory :=
       Some [ValueEntry.mk 50 (mkDate 2024 1 2) None] |}.

(** ** Documents of income and expenses *)

(** The change history of a document begins with its initial entry and
    goes on with updates, and its last snapshot holds the fields the
    document has now. *)
Definition wellKept (d : Ledger.Doc) : Prop :=
  exists first later,
    Ledger.history d = Some (first :: later)
    /\ Ledger.changeType first = "Initial Entry"%string
    /\ Forall (fun s => Ledger.changeType s = "Update"%string) later
    /\ Ledger.snapFields (last later first) = Ledger.fields d.

(** A transaction that is not recurring carries neither an end date nor
    a frequency. *)
Definition endOnlyWhenRecurring (t : Tx.t) : Prop :=
  Tx.isRecurring t = false ->
  Tx.endDate t = None /\ Tx.frequency t = ""%string.


(** ** The engine on its host *)

(** The calendar month in which the host reads a date string. *)
Definition hostYm (behind : Js.host) (d : isodate) : ym :=
  (getFullYear (Js.newDate behind d),
   (getMonth (Js.newDate behind d) + 1)%Z).

(** The host reads a date in its own calendar month: its clock is not
    behind UTC at the midnight that begins the date, or the date is not
    the first of a month. *)
Definition readsOwnMonth (behind : Js.host) (d : isodate) : Prop :=
  behind d = false \/ (1 < day d)%Z.

(** The host reads a date in its own calendar year: as above, or the date
    is not the first of January. *)
Definition readsOwnYear (behind : Js.host) (d : isodate) : Prop :=
  behind d = false \/ (1 < day d)%Z \/ (1 < month d)%Z.

Definition monthlyRecurring (t : Js.Tx.t) : bool :=
  Js.Tx.isRecurring t && (Js.Tx.frequency t =? "Monthly")%string.

(** Activity of a record in a calendar month, in the words of the
    specification. *)
Definition activeInMonth (t : Js.Tx.t) (target : ym) : Prop :=
  if monthlyRecurring t
  then ym_le (ymOf (Js.Tx.date t)) target
       /\ match Js.Tx.endDate t with
          | None => True
          | Some e => ym_le target (ymOf e)
          end
  else ymOf (Js.Tx.date t) = target.

(** A one-off income of the first of March 2024. *)
Definition firstOfMarch : Js.Tx.t :=
  {| Js.Tx.id := "i5"; Js.Tx.amount := Js.VNum 250;
     Js.Tx.description := "refund";
     Js.Tx.category := None; Js.Tx.type := None;
     Js.Tx.date := mkDate 2024 3 1;
     Js.Tx.isRecurring := false; Js.Tx.frequency := "";
     Js.Tx.endDate := None |}.

(** A monthly plan from 2024-03-15 to 2024-05-10. *)
Definition courseFees : Js.Tx.t :=
  {| Js.Tx.id := "e5"; Js.Tx.amount := Js.VNum 20;
     Js.Tx.description := "course";
     Js.Tx.category := Some "Personal"%string; Js.Tx.type := Some "Recurring"%string;
     Js.Tx.date := mkDate 2024 3 15;
     Js.Tx.isRecurring := true; Js.Tx.frequency := "Monthly";
     Js.Tx.endDate := Some (mkDate 2024 5 10) |}.

(** Monthly records whose end date is earlier than their date: in the
    same month, and in a month of the year before. *)
Definition endsEarlierThatMonth : Js.Tx.t :=
  {| Js.Tx.id := "e6"; Js.Tx.amount := Js.VNum 10;
     Js.Tx.description := "rent";
     Js.Tx.category := Some "Shared"%string; Js.Tx.type := Some "Recurring"%string;
     Js.Tx.date := mkDate 2024 3 15;
     Js.Tx.isRecurring := true; Js.Tx.frequency := "Monthly";
     Js.Tx.endDate := Some (mkDate 2024 3 10) |}.

Definition endsTheYearBefore : Js.Tx.t :=
  {| Js.Tx.id := "e7"; Js.Tx.amount := Js.VNum 10;
     Js.Tx.description := "gym";
     Js.Tx.category := Some "Personal"%string; Js.Tx.type := Some "Recurring"%string;
     Js.Tx.date := mkDate 2024 3 15;
     Js.Tx.isRecurring := true; Js.Tx.frequency := "Monthly";
     Js.Tx.endDate := Some (mkDate 2023 11 30) |}.

(** A one-off income of New Year's Day 2027. *)
Definition newYearIncome : Js.Tx.t :=
  {| Js.Tx.id := "i14"; Js.Tx.amount := Js.VNum 120;
     Js.Tx.description := "present";
     Js.Tx.category := None; Js.Tx.type := None;
     Js.Tx.date := mkDate 2027 1 1;
     Js.Tx.isRecurring := false; Js.Tx.frequency := "";
     Js.Tx.endDate := None |}.

(** A one-off income that carries an end date all the same. *)
Definition giftWithEnd : Js.Tx.t :=
  {| Js.Tx.id := "i6"; Js.Tx.amount := Js.VNum 75;
     Js.Tx.description := "gift";
     Js.Tx.category := None; Js.Tx.type := None;
     Js.Tx.date := mkDate 2024 3 15;
     Js.Tx.isRecurring := false; Js.Tx.frequency := "";
     Js.Tx.endDate := Some (mkDate 2030 1 1) |}.


(** ** Totals on the host *)

(** The records of a list stand newest first: none is older than the one
    after it. *)
Definition standsNewestFirst (l : list Js.Tx.t) : Prop :=
  Sorted (fun a b => Js.Monthly.newestFirst a b <> Gt) l.

(** An amount that [+] takes as text: a string, or an object, which
    [ToPrimitive] turns into one. *)
Definition textAmount (v : Js.value) : bool :=
  match v with Js.VStr _ | Js.VObj _ => true | _ => false end.




(** A runtime for the examples, which hold numbers for amounts and plain
    names for keys and so reach none of its conversions. *)
Definition plainRuntime : Js.conversions :=
  Js.mkConversions (fun _ => ""%string) (fun _ => nan) (fun name => name).

(** A one-off income. *)
Definition oneOffIncome (id : string) (amount : Js.value) (date : isodate)
  : Js.Tx.t :=
  {| Js.Tx.id := id; Js.Tx.amount := amount;
     Js.Tx.description := "";
     Js.Tx.category := None; Js.Tx.type := None;
     Js.Tx.date := date;
     Js.Tx.isRecurring := false; Js.Tx.frequency := "";
     Js.Tx.endDate := None |}.

(** A one-off expense as [addExpense] writes it. *)
Definition oneOffExpense (id : string) (amount : Js.value)
    (category : string) (date : isodate) : Js.Tx.t :=
  {| Js.Tx.id := id; Js.Tx.amount := amount;
     Js.Tx.description := "";
     Js.Tx.category := Some category; Js.Tx.type := Some "One-Off"%string;
     Js.Tx.date := date;
     Js.Tx.isRecurring := false; Js.Tx.frequency := "";
     Js.Tx.endDate := None |}.

(** Three incomes of March 2024, held by the collection oldest first,
    and an expense of that month. *)
Definition smallIncomes : list Js.Tx.t :=
  [ oneOffIncome "i7" (Js.VNum 0.1) (mkDate 2024 3 10);
    oneOffIncome "i8" (Js.VNum 0.2) (mkDate 2024 3 11);
    oneOffIncome "i9" (Js.VNum 0.3) (mkDate 2024 3 12) ].

Definition smallExpenses : list Js.Tx.t :=
  [ oneOffExpense "e8" (Js.VNum 0.6) "Personal" (mkDate 2024 3 5) ].

(** A salary, and records whose amount is missing and is the string
    ['12']. *)
Definition salaryOfMarch : Js.Tx.t :=
  oneOffIncome "i10" (Js.VNum 3000) (mkDate 2024 3 25).



(** ** Breakdowns on the host *)

(** The expenses of a list filed under a key. *)
Definition keyed (keyOf : Js.Tx.t -> option string) (k : string)
    (l : list Js.Tx.t) : list Js.Tx.t :=
  filter (fun e => (propKey (keyOf e) =? k)%string) l.

(** What a breakdown holds under a key for the amounts filed there: from
    what the name reads on an empty object, every amount in turn added
    to [sum || 0]. *)
Definition groupAmount (rt : Js.conversions) (k : string)
    (amounts : list Js.value) : Js.value :=
  fold_left (fun s a => Js.plus rt (Js.orZero s) a) amounts
    (Js.Obj.inherited rt k).

(** The same on numbers: the binary64 sum from [0], a sum so far that is
    [NaN] or [-0] being taken as [0]. *)
Definition groupSum (rt : Js.conversions) (amounts : list Js.value)
  : float :=
  fold_left (fun s a => (Js.numOrZero s + Js.toNumber rt a)%float) amounts
    0%float.

(** A name that an empty object does not read from its prototype. *)
Definition plainKey (k : string) : bool :=
  negb (k =? "__proto__")%string
  && negb (JsMap.has String.eqb Js.Obj.methods k).

(** A breakdown holds every expense of the list once: no key twice, the
    keys of the expenses and no other, under each key what its expenses
    add up to, and the expenses under the keys together are the
    expenses of the list (but those of the key [__proto__], a name under
    which an object stores no amount). *)
Definition holdsEachOnce (rt : Js.conversions)
    (keyOf : Js.Tx.t -> option string) (shown : list Js.Tx.t)
    (breakdown : list (string * Js.value)) : Prop :=
  NoDup (map fst breakdown)
  /\ (forall k,
         In k (map fst breakdown)
         <-> k <> "__proto__"%string
             /\ exists e, In e shown /\ propKey (keyOf e) = k)
  /\ (forall k v,
         In (k, v) breakdown ->
         v = groupAmount rt k (map Js.Tx.amount (keyed keyOf k shown)))
  /\ Permutation
       (flat_map (fun kv => keyed keyOf (fst kv) shown) breakdown)
       (filter (fun e => negb (propKey (keyOf e) =? "__proto__")%string)
          shown).

(** The [type] of an expense as [addExpense] and [updateExpense] write
    it. *)
Definition typeAsWritten (e : Js.Tx.t) : Prop :=
  Js.Tx.type e
  = Some (if Js.Tx.isRecurring e then "Recurring" else "One-Off")%string.

(** The amounts of a breakdown added up from [0], as the totals are. *)
Definition breakdownTotal (rt : Js.conversions)
    (breakdown : list (string * Js.value)) : Js.value :=
  fold_left (fun sum kv => Js.plus rt sum (snd kv)) breakdown (Js.VNum 0).

(** Three expenses of March 2024, newest first: 0.1 Personal, 0.1 Shared
    and monthly, 19.99 Personal. *)
Definition marchExpenses : list Js.Tx.t :=
  [ oneOffExpense "e9" (Js.VNum 0.1) "Personal" (mkDate 2024 3 20);
    {| Js.Tx.id := "e10"; Js.Tx.amount := Js.VNum 0.1;
       Js.Tx.description := "";
       Js.Tx.category := Some "Shared"%string;
       Js.Tx.type := Some "Recurring"%string;
       Js.Tx.date := mkDate 2024 3 15;
       Js.Tx.isRecurring := true; Js.Tx.frequency := "Monthly";
       Js.Tx.endDate := None |};
    oneOffExpense "e11" (Js.VNum 19.99) "Personal" (mkDate 2024 3 10) ].

(** ** Histories on the host *)

Module OnHost.

(** The chronologically latest entry of a history: latest by date, and
    among entries of one date the one inserted last. *)
Definition laterOf (best : option Js.ValueEntry.t) (e : Js.ValueEntry.t)
  : option Js.ValueEntry.t :=
  match best with
  | None => Some e
  | Some b =>
      if date_leb (Js.ValueEntry.date b) (Js.ValueEntry.date e) then Some e
      else Some b
  end.

Definition chronLatest (h : list Js.ValueEntry.t)
  : option Js.ValueEntry.t :=
  fold_left laterOf h None.

(** The value an asset is known to have on a date: that of its latest
    entry dated on or before it. *)
Definition knownValue (asset : Js.Asset.t) (d : isodate) : option float :=
  option_map Js.ValueEntry.value
    (chronLatest
       (filter (fun e => date_leb (Js.ValueEntry.date e) d)
          (Js.Merger.historyOf asset))).

(** All dates on which some asset has an entry. *)
Definition recordedDates (assets : list Js.Asset.t) : list isodate :=
  flat_map (fun a => map Js.ValueEntry.date (Js.Merger.historyOf a)) assets.

(** The last element of a history. *)
Definition lastEntry (h : list Js.ValueEntry.t) : option Js.ValueEntry.t :=
  match rev h with e :: _ => Some e | [] => None end.

Definition onDate (d : isodate) (e : Js.ValueEntry.t) : bool :=
  date_eqb (Js.ValueEntry.date e) d.

Definition explicitEntry (asset : Js.Asset.t) (d : isodate)
  : option Js.ValueEntry.t :=
  lastEntry (filter (onDate d) (Js.Merger.historyOf asset)).

(** The value an asset records on a date itself: that of the last entry
    of this date in its history. *)
Definition explicitOn (asset : Js.Asset.t) (d : isodate) : option float :=
  option_map Js.ValueEntry.value (explicitEntry asset d).

(** The first asset of the collection that has the identifier. *)
Definition findAsset (assets : list Js.Asset.t) (assetId : string)
  : option Js.Asset.t :=
  find (fun a => String.eqb (Js.Asset.id a) assetId) assets.

(** Is the identifier that of an asset of the collection? *)
Definition isAssetOf (assets : list Js.Asset.t) (i : string) : bool :=
  existsb (fun a => String.eqb (Js.Asset.id a) i) assets.

(** The value carried for an identifier over the dates [ds], from the
    values recorded per day. *)
Definition carriedIn (dailyValuesMap : Js.Merger.DailyValues) (i : string)
    (ds : list isodate) (start : option float) : option float :=
  fold_left
    (fun acc d =>
       match Js.Merger.valueOn dailyValuesMap d i with
       | Some v => Some v
       | None => acc
       end)
    ds start.

(** The entry carried over the dates [ds] from a history. *)
Definition carriedEntry (h : list Js.ValueEntry.t) (ds : list isodate)
    (start : option Js.ValueEntry.t) : option Js.ValueEntry.t :=
  fold_left
    (fun acc d =>
       match lastEntry (filter (onDate d) h) with
       | Some e => Some e
       | None => acc
       end)
    ds start.

(** The history of the asset begins on the date: it has an entry of
    this date and none of an earlier one. *)
Definition startsOn (d : isodate) (a : Js.Asset.t) : bool :=
  existsb (onDate d) (Js.Merger.historyOf a)
  && forallb (fun e => date_leb d (Js.ValueEntry.date e))
       (Js.Merger.historyOf a).

(** The assets whose history begins on one of the dates, in the order
    of these dates, and in the order of the collection where histories
    begin on one date: the order in which the merger's map of carried
    values receives its keys. *)
Definition entryOrder (assets : list Js.Asset.t) (ds : list isodate)
  : list Js.Asset.t :=
  flat_map (fun d => filter (startsOn d) assets) ds.

(** The values known on a date, for the assets in this order. *)
Definition heldValues (assets : list Js.Asset.t) (ds : list isodate)
    (d : isodate) : list float :=
  flat_map
    (fun a => match knownValue a d with Some v => [v] | None => [] end)
    (entryOrder assets ds).

(** The binary64 sum of a list from [0], from left to right. *)
Definition sumInOrder (values : list float) : float :=
  fold_left PrimFloat.add values 0%float.

End OnHost.

(** ** The merged series on the host *)

(** The rational number a finite binary64 value is. *)
Definition exactValue (x : float) : Q :=
  match Prim2SF x with
  | S754_finite s m e =>
      (if s then - inject_Z (Zpos m) else inject_Z (Zpos m)) * 2 ^ e
  | _ => 0
  end.

Definition hostAsset (id : string) (history : list Js.ValueEntry.t)
  : Js.Asset.t :=
  {| Js.Asset.id := id; Js.Asset.name := id; Js.Asset.type := "Cash";
     Js.Asset.initialValue := 0; Js.Asset.currentValue := 0;
     Js.Asset.contributions := Some [];
     Js.Asset.valueHistory := Some history |}.

(** The two assets of the example of the specification. *)
Definition hostAssetA : Js.Asset.t :=
  hostAsset "A" [Js.ValueEntry.mk 100 (mkDate 2024 1 1) None].

Definition hostAssetB : Js.Asset.t :=
  hostAsset "B" [Js.ValueEntry.mk 50 (mkDate 2024 1 2) None].

(** Assets worth 0.12 and 0.005, and 0.001, 0.009 and 0.015, on one
    date. *)
Definition twelveCents : Js.Asset.t :=
  hostAsset "P" [Js.ValueEntry.mk 0.12 (mkDate 2024 1 1) None].

Definition halfCent : Js.Asset.t :=
  hostAsset "Q" [Js.ValueEntry.mk 0.005 (mkDate 2024 1 1) None].

Definition smallX : Js.Asset.t :=
  hostAsset "X" [Js.ValueEntry.mk 0.001 (mkDate 2024 1 1) None].

Definition smallY : Js.Asset.t :=
  hostAsset "Y" [Js.ValueEntry.mk 0.009 (mkDate 2024 1 1) None].

Definition smallZ : Js.Asset.t :=
  hostAsset "Z" [Js.ValueEntry.mk 0.015 (mkDate 2024 1 1) None].

(* ================================================================== *)
(** * Part III.  Properties *)
(* ================================================================== *)

(** ** Numbers *)

Section JsNumFacts.

Lemma jseq_refl a : jseq a a.
Proof. destruct a; simpl; auto; reflexivity. Qed.

Lemma jseq_sym a b : jseq a b -> jseq b a.
Proof. destruct a, b; simpl; auto; intros H; symmetry; exact H. Qed.

Lemma jseq_trans a b c : jseq a b -> jseq b c -> jseq a c.
Proof.
  destruct a, b, c; simpl; auto; try contradiction.
  intros H1 H2; rewrite H1; exact H2.
Qed.

#[export] Instance jseq_equiv : Equivalence jseq.
Proof.
  split; [exact jseq_refl | exact jseq_sym | exact jseq_trans].
Qed.

Lemma toNumber_jseq a b :
  jseq a b ->
  match toNumber a, toNumber b with
  | Some x, Some y => (x == y)%Q
  | None, None => True
  | _, _ => False
  end.
Proof. destruct a, b; simpl; auto; try contradiction; reflexivity. Qed.

#[export] Instance add_proper : Proper (jseq ==> jseq ==> jseq) add.
Proof.
  intros a a' Ha b b' Hb. unfold add.
  apply toNumber_jseq in Ha. apply toNumber_jseq in Hb.
  destruct (toNumber a), (toNumber a'), (toNumber b), (toNumber b');
    simpl; try contradiction; auto.
  rewrite Ha, Hb; reflexivity.
Qed.

#[export] Instance sub_proper : Proper (jseq ==> jseq ==> jseq) sub.
Proof.
  intros a a' Ha b b' Hb. unfold sub.
  apply toNumber_jseq in Ha. apply toNumber_jseq in Hb.
  destruct (toNumber a), (toNumber a'), (toNumber b), (toNumber b');
    simpl; try contradiction; auto.
  rewrite Ha, Hb; reflexivity.
Qed.

Lemma round2_proper x y : (x == y)%Q -> round2 x = round2 y.
Proof.
  intros H. unfold round2, toFixed2.
  assert (Hb : Qle_bool 0 x = Qle_bool 0 y).
  { destruct (Qle_bool 0 x) eqn:Ex, (Qle_bool 0 y) eqn:Ey; auto.
    - rewrite Qle_bool_iff in Ex. rewrite H in Ex.
      rewrite <- Qle_bool_iff in Ex. congruence.
    - rewrite Qle_bool_iff in Ey. rewrite <- H in Ey.
      rewrite <- Qle_bool_iff in Ey. congruence. }
  rewrite Hb. destruct (Qle_bool 0 y).
  - apply Qred_complete. rewrite H. reflexivity.
  - apply Qred_complete. rewrite H. reflexivity.
Qed.

End JsNumFacts.

(** ** Dates *)

Section DateFacts.

Lemma date_compare_refl a : date_compare a a = Eq.
Proof. unfold date_compare. now rewrite !Z.compare_refl. Qed.

Lemma date_compare_eq a b : date_compare a b = Eq -> a = b.
Proof.
  destruct a as [y m d], b as [y' m' d']. unfold date_compare. simpl.
  destruct (Z.compare_spec y y'); try discriminate.
  destruct (Z.compare_spec m m'); try discriminate.
  destruct (Z.compare_spec d d'); try discriminate.
  intros _. congruence.
Qed.

Lemma date_compare_antisym a b :
  date_compare b a = CompOpp (date_compare a b).
Proof.
  unfold date_compare.
  rewrite (Z.compare_antisym (year a) (year b)).
  rewrite (Z.compare_antisym (month a) (month b)).
  rewrite (Z.compare_antisym (day a) (day b)).
  destruct (year a ?= year b)%Z, (month a ?= month b)%Z,
    (day a ?= day b)%Z; reflexivity.
Qed.

Lemma date_compare_lt_trans a b c :
  date_compare a b = Lt -> date_compare b c = Lt -> date_compare a c = Lt.
Proof.
  destruct a as [y m d], b as [y' m' d'], c as [y'' m'' d''].
  unfold date_compare; simpl.
  destruct (Z.compare_spec y y'), (Z.compare_spec y' y''),
    (Z.compare_spec m m'), (Z.compare_spec m' m''),
    (Z.compare_spec d d'), (Z.compare_spec d' d'');
    try discriminate; intros _ _;
    repeat match goal with
      | |- context [(?u ?= ?v)%Z] => destruct (Z.compare_spec u v)
      end; try reflexivity; lia.
Qed.

Lemma date_eqb_eq a b : date_eqb a b = true <-> a = b.
Proof.
  unfold date_eqb. split.
  - destruct (date_compare a b) eqn:E; try discriminate.
    intros _. now apply date_compare_eq.
  - intros ->. now rewrite date_compare_refl.
Qed.

Lemma date_eqb_refl a : date_eqb a a = true.
Proof. now apply date_eqb_eq. Qed.

Lemma date_eqb_neq a b : date_eqb a b = false <-> a <> b.
Proof.
  rewrite <- date_eqb_eq. destruct (date_eqb a b); split; congruence.
Qed.

Lemma date_leb_refl a : date_leb a a = true.
Proof. unfold date_leb. now rewrite date_compare_refl. Qed.

Lemma date_leb_lt_or_eq a b :
  date_leb a b = true <-> date_lt a b \/ a = b.
Proof.
  unfold date_leb, date_lt. split.
  - destruct (date_compare a b) eqn:E; try discriminate; intros _.
    + right. now apply date_compare_eq.
    + now left.
  - intros [-> | ->]; [reflexivity | now rewrite date_compare_refl].
Qed.

Lemma date_lt_irrefl a : ~ date_lt a a.
Proof. unfold date_lt. now rewrite date_compare_refl. Qed.

Lemma date_lt_trans a b c : date_lt a b -> date_lt b c -> date_lt a c.
Proof. apply date_compare_lt_trans. Qed.

Lemma date_lt_not_leb a b : date_lt a b -> date_leb b a = false.
Proof.
  unfold date_lt, date_leb. intros H.
  rewrite date_compare_antisym, H. reflexivity.
Qed.

Lemma date_leb_antisym a b :
  date_leb a b = true -> date_leb b a = true -> a = b.
Proof.
  intros H1 H2. apply date_leb_lt_or_eq in H1. destruct H1 as [H1 | H1]; auto.
  apply date_lt_not_leb in H1. congruence.
Qed.

Lemma date_leb_trans a b c :
  date_leb a b = true -> date_leb b c = true -> date_leb a c = true.
Proof.
  rewrite !date_leb_lt_or_eq.
  intros [H1 | ->] [H2 | ->]; auto.
  left. eapply date_lt_trans; eauto.
Qed.

Lemma date_leb_total a b : date_leb a b = true \/ date_lt b a.
Proof.
  unfold date_leb, date_lt. rewrite (date_compare_antisym a b).
  destruct (date_compare a b); simpl; auto.
Qed.

End DateFacts.

(** ** The stable sort *)

Section SortFacts.
Variable A : Type.
Variable cmp : A -> A -> comparison.

Lemma insertSorted_perm x l : Permutation (insertSorted cmp x l) (x :: l).
Proof.
  induction l as [| y l IH]; simpl.
  - reflexivity.
  - destruct (cmp x y); try reflexivity.
    rewrite IH. apply perm_swap.
Qed.

Lemma jsSort_perm l : Permutation (jsSort cmp l) l.
Proof.
  induction l as [| x l IH]; simpl.
  - constructor.
  - rewrite insertSorted_perm. now constructor.
Qed.

Lemma jsSort_In x l : In x (jsSort cmp l) <-> In x l.
Proof.
  split; apply Permutation_in;
    [apply jsSort_perm | symmetry; apply jsSort_perm].
Qed.

(** Stability: elements that the comparator does not put in reverse
    order keep their relative order. *)
Lemma insertSorted_filter (p : A -> bool) x l :
  (forall y, p x = true -> p y = true -> cmp x y <> Gt) ->
  filter p (insertSorted cmp x l) = filter p (x :: l).
Proof.
  intros Hp. induction l as [| y l IH]; simpl.
  - reflexivity.
  - destruct (cmp x y) eqn:E; try reflexivity.
    simpl. simpl in IH. rewrite IH.
    destruct (p x) eqn:Ex, (p y) eqn:Ey; try reflexivity.
    exfalso. now apply (Hp y).
Qed.

Lemma jsSort_filter (p : A -> bool) l :
  (forall x y, p x = true -> p y = true -> cmp x y <> Gt) ->
  filter p (jsSort cmp l) = filter p l.
Proof.
  intros Hp. induction l as [| x l IH]; simpl.
  - reflexivity.
  - rewrite insertSorted_filter by (apply Hp).
    simpl. now rewrite IH.
Qed.

(** Sortedness, for a comparator that is a total order. *)
Variable lt : A -> A -> Prop.
Hypothesis cmp_lt : forall x y, cmp x y = Lt <-> lt x y.
Hypothesis cmp_gt : forall x y, cmp x y = Gt <-> lt y x.
Hypothesis cmp_eq : forall x y, cmp x y = Eq -> x = y.
Hypothesis lt_trans : forall x y z, lt x y -> lt y z -> lt x z.

Lemma insertSorted_sorted x l :
  ~ In x l ->
  StronglySorted lt l -> StronglySorted lt (insertSorted cmp x l).
Proof.
  intros Hx Hs. induction Hs as [| y l Hs IH Hall]; simpl.
  - constructor; constructor.
  - destruct (cmp x y) eqn:E.
    + apply cmp_eq in E. subst. exfalso. apply Hx. now left.
    + apply cmp_lt in E. constructor; [now constructor |].
      constructor; auto.
      rewrite Forall_forall in *. intros z Hz.
      eapply lt_trans; eauto.
    + apply cmp_gt in E. constructor.
      * apply IH. intros H. apply Hx. now right.
      * rewrite Forall_forall in *. intros z Hz.
        apply (Permutation_in _ (insertSorted_perm x l)) in Hz.
        destruct Hz as [<- | Hz]; auto.
Qed.

Lemma jsSort_sorted l : NoDup l -> StronglySorted lt (jsSort cmp l).
Proof.
  induction 1 as [| x l Hx Hnd IH]; simpl.
  - constructor.
  - apply insertSorted_sorted; auto.
    now rewrite jsSort_In.
Qed.

End SortFacts.

(** ** Recurrence Activity Evaluator *)

Section EvaluatorFacts.

Lemma monthDate_of_Date (sel : jsDate) :
  monthDate (getFullYear sel, (getMonth sel + 1)%Z) = sel.
Proof.
  destruct sel as [y m]. unfold monthDate. simpl. f_equal. lia.
Qed.

(** [new Date(year, month - 1, 1)] for a month of the selector and a
    year of more than two digits. *)
Lemma newDateYM_month (y m : Z) :
  (1 <= m <= 12)%Z -> (99 < y)%Z ->
  newDateYM y (m - 1) = monthDate (y, m).
Proof.
  intros Hm Hy. unfold newDateYM, monthDate. simpl.
  replace (y <=? 99)%Z with false by (symmetry; apply Z.leb_gt; lia).
  rewrite andb_false_r.
  rewrite Z.div_small by lia. rewrite Z.mod_small by lia.
  f_equal. lia.
Qed.

End EvaluatorFacts.

(** ** Totals *)

Section SumFacts.
Variable A : Type.
Variable f : A -> jsval.



End SumFacts.

Section TotalFacts.




End TotalFacts.

(** ** Available years *)

Section YearsFacts.

Lemma JsSet_add_In (s : list Z) (k x : Z) :
  In x (JsSet.add Z.eqb s k) <-> In x s \/ x = k.
Proof.
  unfold JsSet.add. destruct (existsb (Z.eqb k) s) eqn:E.
  - split; auto. intros [H | ->]; auto.
    apply existsb_exists in E. destruct E as [z [Hz Hk]].
    apply Z.eqb_eq in Hk. now subst.
  - rewrite in_app_iff. simpl. intuition.
Qed.

End YearsFacts.

(** ** Dictionaries *)

Section JsMapFacts.
Variables K V : Type.
Variable eqb : K -> K -> bool.
Hypothesis eqb_eq : forall a b, eqb a b = true <-> a = b.

Lemma eqb_refl' k : eqb k k = true.
Proof. now apply eqb_eq. Qed.

Lemma eqb_neq' a b : a <> b -> eqb a b = false.
Proof.
  intros H. destruct (eqb a b) eqn:E; auto. apply eqb_eq in E. tauto.
Qed.

Lemma get_set_same (m : JsMap.t K V) k v :
  JsMap.get eqb (JsMap.set eqb m k v) k = Some v.
Proof.
  induction m as [| [k' v'] m IH]; simpl.
  - now rewrite eqb_refl'.
  - destruct (eqb k' k) eqn:E; simpl; rewrite E; auto.
Qed.

Lemma get_set_other (m : JsMap.t K V) k v k' :
  k <> k' ->
  JsMap.get eqb (JsMap.set eqb m k v) k' = JsMap.get eqb m k'.
Proof.
  intros Hne. induction m as [| [k0 v0] m IH]; simpl.
  - now rewrite eqb_neq'.
  - destruct (eqb k0 k) eqn:E; simpl.
    + apply eqb_eq in E. subst k0. now rewrite eqb_neq'.
    + now rewrite IH.
Qed.

Lemma get_None_keys (m : JsMap.t K V) k :
  JsMap.get eqb m k = None <-> ~ In k (JsMap.keys m).
Proof.
  induction m as [| [k' v'] m IH]; simpl.
  - tauto.
  - destruct (eqb k' k) eqn:E.
    + apply eqb_eq in E. split; [discriminate | tauto].
    + rewrite IH. split.
      * intros H [H' | H']; auto. subst. rewrite eqb_refl' in E.
        discriminate.
      * tauto.
Qed.

Lemma get_Some_In (m : JsMap.t K V) k v :
  JsMap.get eqb m k = Some v -> In (k, v) m.
Proof.
  induction m as [| [k' v'] m IH]; simpl; [discriminate |].
  destruct (eqb k' k) eqn:E.
  - apply eqb_eq in E. intros H. inversion H. subst. now left.
  - auto.
Qed.

Lemma In_get_Some (m : JsMap.t K V) k v :
  NoDup (JsMap.keys m) -> In (k, v) m -> JsMap.get eqb m k = Some v.
Proof.
  induction m as [| [k' v'] m IH]; simpl; [tauto |].
  intros Hnd [H | H].
  - inversion H. subst. now rewrite eqb_refl'.
  - inversion Hnd as [| ? ? Hk Hnd']. subst.
    destruct (eqb k' k) eqn:E.
    + apply eqb_eq in E. subst. exfalso. apply Hk.
      apply (in_map fst) in H. exact H.
    + auto.
Qed.

Lemma keys_set (m : JsMap.t K V) k v :
  JsMap.keys (JsMap.set eqb m k v)
  = if JsMap.has eqb m k then JsMap.keys m else JsMap.keys m ++ [k].
Proof.
  unfold JsMap.has. induction m as [| [k' v'] m IH]; simpl.
  - reflexivity.
  - destruct (eqb k' k) eqn:E; simpl.
    + reflexivity.
    + unfold JsMap.keys in *. rewrite IH.
      now destruct (JsMap.get eqb m k).
Qed.

Lemma keys_set_In (m : JsMap.t K V) k v x :
  In x (JsMap.keys (JsMap.set eqb m k v)) <-> In x (JsMap.keys m) \/ x = k.
Proof.
  rewrite keys_set. unfold JsMap.has.
  destruct (JsMap.get eqb m k) eqn:E.
  - split; auto. intros [H | ->]; auto.
    apply get_Some_In in E. apply (in_map fst) in E. exact E.
  - rewrite in_app_iff. simpl. intuition.
Qed.

Lemma keys_set_NoDup (m : JsMap.t K V) k v :
  NoDup (JsMap.keys m) -> NoDup (JsMap.keys (JsMap.set eqb m k v)).
Proof.
  intros H. rewrite keys_set. unfold JsMap.has.
  destruct (JsMap.get eqb m k) eqn:E; auto.
  apply get_None_keys in E.
  apply NoDup_rev in H. rewrite <- (rev_involutive (JsMap.keys m ++ [k])).
  apply NoDup_rev. rewrite rev_app_distr. simpl.
  constructor; auto. now rewrite <- in_rev.
Qed.

End JsMapFacts.

(** ** Expense breakdowns *)

Section BreakdownFacts.
Variable keyOf : Tx.t -> option string.









End BreakdownFacts.

(** ** Projection *)

Section ProjectionFacts.
Variable currentYear : Z.
Variables annualGrowthRate monthlyContribution : Q.

Let step := Projection.monthStep annualGrowthRate monthlyContribution.
Let months := Projection.months annualGrowthRate monthlyContribution.
Let years :=
  Projection.years currentYear annualGrowthRate monthlyContribution.

Lemma months_iter (n : nat) (v : Q) : months n v = Nat.iter n step v.
Proof.
  unfold months. revert v. induction n as [| n IH]; intros v.
  - reflexivity.
  - simpl Projection.months. rewrite IH. symmetry. apply Nat.iter_succ_r.
Qed.

Lemma months_add (a b : nat) (v : Q) :
  months (a + b) v = months b (months a v).
Proof.
  unfold months. revert v. induction a as [| a IH]; intros v; simpl.
  - reflexivity.
  - apply IH.
Qed.

(** The point the outer loop emits in its turn number [j] (from 0) when
    it starts with loop variable [y] and value [v]. *)
Let emitted (y : Z) (v : Q) (j : nat) : Projection.Point :=
  {| Projection.year := (currentYear + (y + Z.of_nat j))%Z;
     Projection.projectedNetWorth := round2 (months (12 * S j) v) |}.

Lemma years_unfold (n : nat) (y : Z) (v : Q)
    (data : list Projection.Point) :
  years n y v data = data ++ map (emitted y v) (seq 0 n).
Proof.
  unfold years. revert y v data.
  induction n as [| n IH]; intros y v data.
  - simpl. now rewrite app_nil_r.
  - cbn [Projection.years]. rewrite IH. rewrite <- app_assoc.
    f_equal. cbn [seq map app]. f_equal.
    + unfold emitted. f_equal. lia.
    + rewrite <- seq_shift, map_map. apply map_ext. intros j.
      unfold emitted. f_equal; [lia |]. f_equal.
      replace (12 * S (S j))%nat with (12 + 12 * S j)%nat by lia.
      symmetry. apply months_add.
Qed.

Lemma projectionData_unfold (net : Q) (h : Z) :
  Projection.projectionData currentYear annualGrowthRate
    monthlyContribution false (Some net) h
  = {| Projection.year := currentYear;
       Projection.projectedNetWorth := round2 net |}
    :: map (emitted 1 net) (seq 0 (Z.to_nat h)).
Proof.
  unfold Projection.projectionData. fold years. now rewrite years_unfold.
Qed.

Lemma projectionData_nth (net : Q) (h k : Z) :
  (1 <= k <= h)%Z ->
  nth_error
    (Projection.projectionData currentYear annualGrowthRate
       monthlyContribution false (Some net) h)
    (Z.to_nat k)
  = Some {| Projection.year := (currentYear + k)%Z;
            Projection.projectedNetWorth :=
              round2 (Nat.iter (12 * Z.to_nat k) step net) |}.
Proof.
  intros Hk. rewrite projectionData_unfold.
  replace (Z.to_nat k) with (S (Z.to_nat (k - 1))) by lia.
  cbn [nth_error].
  rewrite nth_error_map.
  rewrite nth_error_seq.
  replace (Z.to_nat (k - 1) <? Z.to_nat h)%nat with true
    by (symmetry; apply Nat.ltb_lt; lia).
  cbn [option_map]. unfold emitted. rewrite months_iter.
  f_equal. f_equal. lia.
Qed.

End ProjectionFacts.

(** ** Histories *)

Section HistoryFacts.

Lemma lastEntry_snoc (h : list ValueEntry.t) (e : ValueEntry.t) :
  lastEntry (h ++ [e]) = Some e.
Proof. unfold lastEntry. now rewrite rev_app_distr. Qed.

Lemma lastEntry_In (h : list ValueEntry.t) (e : ValueEntry.t) :
  lastEntry h = Some e -> In e h.
Proof.
  unfold lastEntry. destruct (rev h) as [| x r] eqn:E; [discriminate |].
  intros H. inversion H. subst. apply in_rev. rewrite E. now left.
Qed.

Lemma lastEntry_Some (h : list ValueEntry.t) (e : ValueEntry.t) :
  lastEntry h = Some e -> exists h', h = h' ++ [e].
Proof.
  unfold lastEntry. destruct (rev h) as [| x r] eqn:E; [discriminate |].
  intros H. injection H as ->. exists (rev r).
  rewrite <- (rev_involutive h), E. reflexivity.
Qed.

Lemma lastEntry_None (h : list ValueEntry.t) :
  lastEntry h = None <-> h = [].
Proof.
  unfold lastEntry. split.
  - destruct (rev h) as [| x r] eqn:E; [| discriminate].
    intros _. rewrite <- (rev_involutive h), E. reflexivity.
  - now intros ->.
Qed.

Lemma chronLatest_snoc (h : list ValueEntry.t) (e : ValueEntry.t) :
  chronLatest (h ++ [e]) = laterOf (chronLatest h) e.
Proof. unfold chronLatest. now rewrite fold_left_app. Qed.

Lemma chronLatest_None (h : list ValueEntry.t) :
  chronLatest h = None <-> h = [].
Proof.
  split; [| now intros ->].
  destruct h as [| x h] using rev_ind; auto.
  rewrite chronLatest_snoc. unfold laterOf.
  destruct (chronLatest h); [| discriminate].
  now destruct (date_leb _ _).
Qed.

Let sameDate (e x : ValueEntry.t) : bool :=
  date_eqb (ValueEntry.date x) (ValueEntry.date e).

(** The chronologically latest entry is in the history, no entry is
    dated after it, and it is the last of the entries of its date. *)
Lemma chronLatest_spec (h : list ValueEntry.t) (e : ValueEntry.t) :
  chronLatest h = Some e ->
  In e h
  /\ (forall x, In x h ->
        date_leb (ValueEntry.date x) (ValueEntry.date e) = true)
  /\ lastEntry (filter (sameDate e) h) = Some e.
Proof.
  revert e. induction h as [| x h IH] using rev_ind; intros e.
  - discriminate.
  - rewrite chronLatest_snoc. unfold laterOf.
    destruct (chronLatest h) as [b |] eqn:Eb.
    + destruct (IH b eq_refl) as [Hin [Hmax Hlast]].
      destruct (date_leb (ValueEntry.date b) (ValueEntry.date x)) eqn:Ele;
        intros H; injection H as <-.
      * split; [apply in_app_iff; simpl; auto |]. split.
        -- intros y Hy. apply in_app_iff in Hy.
           destruct Hy as [Hy | [Hy | []]].
           ++ eapply date_leb_trans; [apply Hmax, Hy | exact Ele].
           ++ subst y. apply date_leb_refl.
        -- rewrite filter_app. simpl. unfold sameDate at 2.
           rewrite date_eqb_refl. apply lastEntry_snoc.
      * split; [apply in_app_iff; auto |]. split.
        -- intros y Hy. apply in_app_iff in Hy.
           destruct Hy as [Hy | [Hy | []]]; auto. subst y.
           destruct (date_leb_total (ValueEntry.date b) (ValueEntry.date x))
             as [H | H]; [congruence |].
           apply date_leb_lt_or_eq. now left.
        -- rewrite filter_app. simpl. unfold sameDate at 2.
           replace (date_eqb (ValueEntry.date x) (ValueEntry.date b))
             with false.
           ++ now rewrite app_nil_r.
           ++ symmetry. apply date_eqb_neq. intros Heq.
              rewrite Heq, date_leb_refl in Ele. discriminate.
    + apply chronLatest_None in Eb. subst h. simpl.
      intros H. injection H as <-.
      split; [now left |]. split.
      * intros y [Hy | []]. subst y. apply date_leb_refl.
      * unfold sameDate. now rewrite date_eqb_refl.
Qed.

(** Only one entry has these three properties. *)
Lemma latest_unique (h : list ValueEntry.t) (e e' : ValueEntry.t) :
  In e h -> In e' h ->
  (forall x, In x h ->
     date_leb (ValueEntry.date x) (ValueEntry.date e) = true) ->
  (forall x, In x h ->
     date_leb (ValueEntry.date x) (ValueEntry.date e') = true) ->
  lastEntry (filter (sameDate e) h) = Some e ->
  lastEntry (filter (sameDate e') h) = Some e' ->
  e = e'.
Proof.
  intros Hin Hin' Hmax Hmax' Hl Hl'.
  assert (Hd : ValueEntry.date e = ValueEntry.date e').
  { apply date_leb_antisym; auto. }
  unfold sameDate in *. rewrite Hd in Hl. congruence.
Qed.

(** An entry appended with a date not earlier than any other is the
    chronologically latest. *)
Lemma chronLatest_in_order (h : list ValueEntry.t) (e : ValueEntry.t) :
  (forall x, In x h ->
     date_leb (ValueEntry.date x) (ValueEntry.date e) = true) ->
  chronLatest (h ++ [e]) = Some e.
Proof.
  intros H. rewrite chronLatest_snoc. unfold laterOf.
  destruct (chronLatest h) as [b |] eqn:Eb; auto.
  apply chronLatest_spec in Eb. destruct Eb as [Hb _].
  now rewrite (H b Hb).
Qed.

End HistoryFacts.

(** ** Asset life cycle *)

Section StoreFacts.

Lemma updateDoc_In (db : Store.assets) (i : string)
    (f : Asset.t -> Asset.t) (a' : Asset.t) :
  In a' (Store.updateDoc db i f) ->
  In a' db \/ exists a, Store.findAsset db i = Some a /\ a' = f a.
Proof.
  unfold Store.findAsset.
  induction db as [| a db IH]; simpl; [tauto |].
  destruct (String.eqb (Asset.id a) i) eqn:E; simpl.
  - intros [<- | H]; eauto.
  - intros [<- | H]; auto.
    destruct (IH H) as [H' | H']; auto.
Qed.

Lemma findAsset_updateDoc_same (db : Store.assets) (i : string)
    (f : Asset.t -> Asset.t) :
  (forall a, Asset.id (f a) = Asset.id a) ->
  Store.findAsset (Store.updateDoc db i f) i
  = option_map f (Store.findAsset db i).
Proof.
  intros Hf. unfold Store.findAsset.
  induction db as [| a db IH]; simpl; [reflexivity |].
  destruct (String.eqb (Asset.id a) i) eqn:E; simpl.
  - now rewrite Hf, E.
  - now rewrite E.
Qed.

Lemma findAsset_updateDoc_other (db : Store.assets) (i j : string)
    (f : Asset.t -> Asset.t) :
  (forall a, Asset.id (f a) = Asset.id a) -> i <> j ->
  Store.findAsset (Store.updateDoc db i f) j = Store.findAsset db j.
Proof.
  intros Hf Hij. unfold Store.findAsset.
  induction db as [| a db IH]; simpl; [reflexivity |].
  destruct (String.eqb (Asset.id a) i) eqn:E; simpl.
  - rewrite Hf. apply String.eqb_eq in E.
    replace (String.eqb (Asset.id a) j) with false; [reflexivity |].
    symmetry. apply String.eqb_neq. congruence.
  - now rewrite IH.
Qed.

(** What a successful value update does to the collection. *)
Lemma updateAssetValue_effect (db db' : Store.assets) (i : string)
    (newValue : Q) (today : isodate) :
  Store.updateAssetValue db i newValue today = Store.Ok db' ->
  exists a a',
    Store.findAsset db i = Some a
    /\ Store.findAsset db' i = Some a'
    /\ Asset.valueHistory a'
       = Some (Merger.historyOf a ++ [ValueEntry.mk newValue today None])
    /\ Asset.currentValue a' = newValue
    /\ (forall j, i <> j -> Store.findAsset db' j = Store.findAsset db j)
    /\ List.length db' = List.length db.
Proof.
  unfold Store.updateAssetValue.
  destruct (Store.findAsset db i) as [a |] eqn:E; [| discriminate].
  intros H. injection H as <-.
  eexists a, _. split; [reflexivity |].
  split; [rewrite findAsset_updateDoc_same by reflexivity;
          rewrite E; reflexivity |].
  split; [unfold Merger.historyOf; simpl;
          now destruct (Asset.valueHistory a) |].
  split; [reflexivity |].
  split; [intros j Hj; now apply findAsset_updateDoc_other |].
  clear. induction db as [| x db IH]; simpl; auto.
  destruct (String.eqb (Asset.id x) i); simpl; auto.
Qed.

(** What a successful contribution does to the collection. *)
Lemma addContribution_effect (db db' : Store.assets) (i : string)
    (amount : Q) (contributionDate : isodate) :
  Store.addContribution db i amount contributionDate = Store.Ok db' ->
  exists a a',
    Store.findAsset db i = Some a
    /\ Store.findAsset db' i = Some a'
    /\ Asset.valueHistory a'
       = Some (Merger.historyOf a
               ++ [ValueEntry.mk
                     (numOrZero (Asset.currentValue a) + amount)
                     contributionDate (Some "contribution"%string)])
    /\ Asset.currentValue a'
       = (numOrZero (Asset.currentValue a) + amount)%Q
    /\ (forall j, i <> j -> Store.findAsset db' j = Store.findAsset db j)
    /\ List.length db' = List.length db.
Proof.
  unfold Store.addContribution.
  destruct (Store.findAsset db i) as [a |] eqn:E; [| discriminate].
  intros H. injection H as <-.
  eexists a, _. split; [reflexivity |].
  split; [rewrite findAsset_updateDoc_same by reflexivity;
          rewrite E; reflexivity |].
  split; [unfold Merger.historyOf; simpl;
          now destruct (Asset.valueHistory a) |].
  split; [reflexivity |].
  split; [intros j Hj; now apply findAsset_updateDoc_other |].
  clear. induction db as [| x db IH]; simpl; auto.
  destruct (String.eqb (Asset.id x) i); simpl; auto.
Qed.

Lemma currentIsLast_intro (a : Asset.t) (h : list ValueEntry.t)
    (e : ValueEntry.t) :
  Asset.valueHistory a = Some (h ++ [e]) ->
  Asset.currentValue a = ValueEntry.value e ->
  currentIsLast a.
Proof.
  intros Hh Hc. exists e. unfold Merger.historyOf. rewrite Hh.
  split; [apply lastEntry_snoc | exact Hc].
Qed.

(** Every action keeps [currentValue] on the entry appended last. *)
Lemma perform_currentIsLast (db : Store.assets) (act : Store.action) :
  Forall currentIsLast db -> Forall currentIsLast (Store.perform db act).
Proof.
  intros Hdb. rewrite Forall_forall in *.
  destruct act as [newId name type v d | i v today | i amount d | i];
    simpl.
  - intros a Ha. unfold Store.addAsset in Ha. apply in_app_iff in Ha.
    destruct Ha as [Ha | [<- | []]]; auto.
    apply (@currentIsLast_intro _ [] (ValueEntry.mk v d None));
      reflexivity.
  - unfold Store.updateAssetValue.
    destruct (Store.findAsset db i) as [a0 |] eqn:E; auto.
    intros a Ha. apply updateDoc_In in Ha.
    destruct Ha as [Ha | [a1 [_ ->]]]; auto.
    destruct (Asset.valueHistory a0) as [h |].
    + eapply currentIsLast_intro; reflexivity.
    + eapply (@currentIsLast_intro _ []); reflexivity.
  - unfold Store.addContribution.
    destruct (Store.findAsset db i) as [a0 |] eqn:E; auto.
    intros a Ha. apply updateDoc_In in Ha.
    destruct Ha as [Ha | [a1 [_ ->]]]; auto.
    destruct (Asset.valueHistory a0) as [h |].
    + eapply currentIsLast_intro; reflexivity.
    + eapply (@currentIsLast_intro _ []); reflexivity.
  - intros a Ha. unfold Store.deleteAsset in Ha.
    apply filter_In in Ha. apply Hdb, Ha.
Qed.

Lemma run_currentIsLast (actions : list Store.action) :
  Forall currentIsLast (Store.run actions).
Proof.
  unfold Store.run.
  assert (H : Forall currentIsLast (@nil Asset.t)) by constructor.
  revert H. generalize (@nil Asset.t) as db.
  induction actions as [| act actions IH]; intros db Hdb; simpl; auto.
  apply IH. now apply perform_currentIsLast.
Qed.

(** When no entry is dated after the last one, the last entry is the
    chronologically latest. *)
Lemma currentIsLast_chron (a : Asset.t) :
  currentIsLast a ->
  (forall x e, In x (Merger.historyOf a) ->
               lastEntry (Merger.historyOf a) = Some e ->
               date_leb (ValueEntry.date x) (ValueEntry.date e) = true) ->
  currentIsChronLatest a.
Proof.
  intros [e [Hl Hc]] Hord. exists e. split; [| now rewrite Hc].
  destruct (lastEntry_Some _ Hl) as [h Eh].
  rewrite Eh in *.
  apply chronLatest_in_order. intros y Hy.
  apply (Hord y e); [apply in_app_iff; auto | exact Hl].
Qed.

End StoreFacts.

(** C7, as stated, fails: after the contribution [currentValue] is 150
    while the chronologically latest entry of the history is the one of
    2024-06-01, of value 100. *)
Lemma backdated_contribution_not_latest :
  Store.run backdated = [backdatedAsset]
  /\ chronLatest (Merger.historyOf backdatedAsset)
     = Some (ValueEntry.mk 100 (mkDate 2024 6 1) None)
  /\ ~ currentIsChronLatest backdatedAsset.
Proof.
  split; [reflexivity |]. split; [reflexivity |].
  intros [e [He Hv]]. vm_compute in He. injection He as <-.
  vm_compute in Hv. discriminate Hv.
Qed.

(** C7, amended.  After an asset is created, and after every value update
    and every contribution, the asset's [currentValue] equals the value
    of the [valueHistory] entry inserted last; that entry is the
    chronologically latest one whenever no entry of the history is dated
    after it.  A value update and a contribution each append exactly one
    entry to the history of their asset, leave every prior entry as it
    was, and leave the other assets alone. *)
Theorem current_value_is_last_entry :
  (forall actions : list Store.action,
      Forall currentIsLast (Store.run actions))
  /\ (forall a : Asset.t,
         currentIsLast a ->
         (forall x e, In x (Merger.historyOf a) ->
                      lastEntry (Merger.historyOf a) = Some e ->
                      date_leb (ValueEntry.date x) (ValueEntry.date e) = true) ->
         currentIsChronLatest a)
  /\ (forall (db db' : Store.assets) (i : string) (newValue : Q)
             (today : isodate),
         Store.updateAssetValue db i newValue today = Store.Ok db' ->
         exists a a',
           Store.findAsset db i = Some a
           /\ Store.findAsset db' i = Some a'
           /\ Asset.valueHistory a'
              = Some (Merger.historyOf a
                      ++ [ValueEntry.mk newValue today None])
           /\ Asset.currentValue a' = newValue
           /\ (forall j, i <> j ->
                 Store.findAsset db' j = Store.findAsset db j)
           /\ List.length db' = List.length db)
  /\ (forall (db db' : Store.assets) (i : string) (amount : Q)
             (contributionDate : isodate),
         Store.addContribution db i amount contributionDate = Store.Ok db' ->
         exists a a',
           Store.findAsset db i = Some a
           /\ Store.findAsset db' i = Some a'
           /\ Asset.valueHistory a'
              = Some (Merger.historyOf a
                      ++ [ValueEntry.mk
                            (numOrZero (Asset.currentValue a) + amount)
                            contributionDate (Some "contribution"%string)])
           /\ Asset.currentValue a'
              = (numOrZero (Asset.currentValue a) + amount)%Q
           /\ (forall j, i <> j ->
                 Store.findAsset db' j = Store.findAsset db j)
           /\ List.length db' = List.length db).
Proof.
  split; [exact run_currentIsLast |].
  split; [exact currentIsLast_chron |].
  split; [exact updateAssetValue_effect | exact addContribution_effect].
Qed.

Lemma current_value_is_last_entry_witness :
  Store.addContribution (Store.run backdated) "a1" 25 (mkDate 2024 7 1)
  = Store.Ok
      (Store.perform (Store.run backdated)
         (Store.AddContribution "a1" 25 (mkDate 2024 7 1)))
  /\ exists a a',
       Store.findAsset (Store.run backdated) "a1" = Some a
       /\ Store.findAsset
            (Store.perform (Store.run backdated)
               (Store.AddContribution "a1" 25 (mkDate 2024 7 1))) "a1"
          = Some a'
       /\ Asset.valueHistory a'
          = Some (Merger.historyOf a
                  ++ [ValueEntry.mk (numOrZero (Asset.currentValue a) + 25)
                        (mkDate 2024 7 1) (Some "contribution"%string)]).
Proof.
  assert (H : Store.addContribution (Store.run backdated) "a1" 25
                (mkDate 2024 7 1)
              = Store.Ok
                  (Store.perform (Store.run backdated)
                     (Store.AddContribution "a1" 25 (mkDate 2024 7 1))))
    by reflexivity.
  split; [exact H |].
  destruct (proj2 (proj2 (proj2 current_value_is_last_entry)) _ _ _ _ _ H)
    as [a [a' [H1 [H2 [H3 _]]]]].
  exists a, a'. auto.
Defined.

(** ** Value History Merger: the first pass *)

Section FirstPassFacts.

Local Abbreviation dget := (JsMap.get date_eqb).

Lemma recordEntry_valueOn (i : string) (m : Merger.DailyValues)
    (e : ValueEntry.t) (d : isodate) (j : string) :
  Merger.valueOn (Merger.recordEntry i m e) d j
  = if onDate d e && String.eqb i j then Some (ValueEntry.value e)
    else Merger.valueOn m d j.
Proof.
  unfold Merger.recordEntry, Merger.valueOn, JsMap.has, onDate.
  destruct (dget m (ValueEntry.date e)) as [inner |] eqn:E.
  - rewrite E.
    destruct (date_eqb (ValueEntry.date e) d) eqn:Ed; simpl.
    + apply date_eqb_eq in Ed. subst d.
      rewrite (@get_set_same _ _ _ date_eqb_eq), E.
      destruct (String.eqb i j) eqn:Ei.
      * apply String.eqb_eq in Ei. subst j.
        apply (@get_set_same _ _ _ String.eqb_eq).
      * apply String.eqb_neq in Ei.
        now apply (@get_set_other _ _ _ String.eqb_eq).
    + apply date_eqb_neq in Ed.
      now rewrite (@get_set_other _ _ _ date_eqb_eq) by exact Ed.
  - rewrite (@get_set_same _ _ _ date_eqb_eq).
    destruct (date_eqb (ValueEntry.date e) d) eqn:Ed; simpl.
    + apply date_eqb_eq in Ed. subst d.
      rewrite (@get_set_same _ _ _ date_eqb_eq), E. simpl.
      now destruct (String.eqb i j).
    + apply date_eqb_neq in Ed.
      now rewrite !(@get_set_other _ _ _ date_eqb_eq) by exact Ed.
Qed.

Lemma recordEntry_keys (i : string) (m : Merger.DailyValues)
    (e : ValueEntry.t) (d : isodate) :
  In d (JsMap.keys (Merger.recordEntry i m e))
  <-> In d (JsMap.keys m) \/ d = ValueEntry.date e.
Proof.
  unfold Merger.recordEntry, JsMap.has.
  destruct (dget m (ValueEntry.date e)) as [inner |] eqn:E.
  - rewrite E. apply (@keys_set_In _ _ _ date_eqb_eq).
  - rewrite (@get_set_same _ _ _ date_eqb_eq).
    rewrite !(@keys_set_In _ _ _ date_eqb_eq). tauto.
Qed.

Lemma recordEntry_NoDup (i : string) (m : Merger.DailyValues)
    (e : ValueEntry.t) :
  NoDup (JsMap.keys m) -> NoDup (JsMap.keys (Merger.recordEntry i m e)).
Proof.
  intros H. unfold Merger.recordEntry, JsMap.has.
  destruct (dget m (ValueEntry.date e)) as [inner |] eqn:E.
  - rewrite E. now apply (@keys_set_NoDup _ _ _ date_eqb_eq).
  - rewrite (@get_set_same _ _ _ date_eqb_eq).
    now do 2 apply (@keys_set_NoDup _ _ _ date_eqb_eq).
Qed.

(** All the entries of one asset. *)
Lemma recordEntries_valueOn (i : string) (es : list ValueEntry.t)
    (m : Merger.DailyValues) (d : isodate) (j : string) :
  Merger.valueOn (fold_left (Merger.recordEntry i) es m) d j
  = if String.eqb i j
    then match lastEntry (filter (onDate d) es) with
         | Some e => Some (ValueEntry.value e)
         | None => Merger.valueOn m d j
         end
    else Merger.valueOn m d j.
Proof.
  induction es as [| e es IH] using rev_ind.
  - simpl. now destruct (String.eqb i j).
  - rewrite fold_left_app. simpl. rewrite recordEntry_valueOn, IH.
    rewrite filter_app. simpl.
    destruct (onDate d e); simpl.
    + destruct (String.eqb i j); [now rewrite lastEntry_snoc | reflexivity].
    + now rewrite app_nil_r.
Qed.

Lemma recordEntries_keys (i : string) (es : list ValueEntry.t)
    (m : Merger.DailyValues) (d : isodate) :
  In d (JsMap.keys (fold_left (Merger.recordEntry i) es m))
  <-> In d (JsMap.keys m) \/ In d (map ValueEntry.date es).
Proof.
  revert m. induction es as [| e es IH]; intros m; simpl.
  - tauto.
  - rewrite IH, recordEntry_keys. intuition.
Qed.

Lemma recordEntries_NoDup (i : string) (es : list ValueEntry.t)
    (m : Merger.DailyValues) :
  NoDup (JsMap.keys m) ->
  NoDup (JsMap.keys (fold_left (Merger.recordEntry i) es m)).
Proof.
  revert m. induction es as [| e es IH]; intros m H; simpl; auto.
  apply IH. now apply recordEntry_NoDup.
Qed.

(** One turn of [assets.forEach] in the first pass. *)
Let recordAsset (m : Merger.DailyValues) (asset : Asset.t)
  : Merger.DailyValues :=
  fold_left (Merger.recordEntry (Asset.id asset))
    (jsSort Merger.byDate (Merger.historyOf asset)) m.

(** Sorting a history by date keeps the entries of one date in the
    order of their insertion. *)
Lemma sorted_history_onDate (h : list ValueEntry.t) (d : isodate) :
  filter (onDate d) (jsSort Merger.byDate h) = filter (onDate d) h.
Proof.
  apply jsSort_filter. intros x y Hx Hy. unfold onDate in *.
  apply date_eqb_eq in Hx. apply date_eqb_eq in Hy.
  unfold Merger.byDate. rewrite Hx, Hy, date_compare_refl. discriminate.
Qed.

Lemma recordAsset_valueOn (m : Merger.DailyValues) (a : Asset.t)
    (d : isodate) (j : string) :
  Merger.valueOn (recordAsset m a) d j
  = if String.eqb (Asset.id a) j
    then match explicitOn a d with
         | Some v => Some v
         | None => Merger.valueOn m d j
         end
    else Merger.valueOn m d j.
Proof.
  unfold recordAsset. rewrite recordEntries_valueOn.
  rewrite sorted_history_onDate.
  unfold explicitOn, explicitEntry.
  now destruct (lastEntry _).
Qed.

Lemma firstPass_fold_valueOn (assets : list Asset.t)
    (m : Merger.DailyValues) (d : isodate) (j : string) :
  NoDup (map Asset.id assets) ->
  Merger.valueOn (fold_left recordAsset assets m) d j
  = match Store.findAsset assets j with
    | Some a => match explicitOn a d with
                | Some v => Some v
                | None => Merger.valueOn m d j
                end
    | None => Merger.valueOn m d j
    end.
Proof.
  unfold Store.findAsset. revert m.
  induction assets as [| a assets IH]; intros m Hnd; simpl.
  - reflexivity.
  - inversion Hnd as [| ? ? Hni Hnd']. subst.
    rewrite IH by exact Hnd'. rewrite recordAsset_valueOn.
    destruct (String.eqb (Asset.id a) j) eqn:E.
    + apply String.eqb_eq in E. subst j.
      destruct (find _ assets) as [a' |] eqn:Ef; [| reflexivity].
      exfalso. apply find_some in Ef. destruct Ef as [Hin He].
      apply String.eqb_eq in He. apply Hni. rewrite <- He.
      now apply in_map.
    + reflexivity.
Qed.

Lemma findAsset_NoDup (assets : list Asset.t) (a : Asset.t) :
  NoDup (map Asset.id assets) -> In a assets ->
  Store.findAsset assets (Asset.id a) = Some a.
Proof.
  unfold Store.findAsset.
  induction assets as [| x assets IH]; simpl; [tauto |].
  intros Hnd [-> | Hin].
  - now rewrite String.eqb_refl.
  - inversion Hnd as [| ? ? Hni Hnd']. subst.
    destruct (String.eqb (Asset.id x) (Asset.id a)) eqn:E; auto.
    apply String.eqb_eq in E. exfalso. apply Hni. rewrite E.
    now apply in_map.
Qed.

(** What the first pass knows of an asset on a date. *)
Lemma firstPass_valueOn (assets : list Asset.t) (a : Asset.t)
    (d : isodate) :
  NoDup (map Asset.id assets) -> In a assets ->
  Merger.valueOn (Merger.firstPass assets) d (Asset.id a)
  = explicitOn a d.
Proof.
  intros Hnd Hin. unfold Merger.firstPass.
  change (Merger.valueOn (fold_left recordAsset assets []) d (Asset.id a)
          = explicitOn a d).
  rewrite firstPass_fold_valueOn by exact Hnd.
  rewrite (@findAsset_NoDup _ _ Hnd Hin).
  now destruct (explicitOn a d).
Qed.

Lemma firstPass_fold_keys (assets : list Asset.t)
    (m : Merger.DailyValues) (d : isodate) :
  In d (JsMap.keys (fold_left recordAsset assets m))
  <-> In d (JsMap.keys m) \/ In d (recordedDates assets).
Proof.
  unfold recordedDates. revert m.
  induction assets as [| a assets IH]; intros m; simpl.
  - tauto.
  - rewrite IH. unfold recordAsset. rewrite recordEntries_keys.
    rewrite in_app_iff.
    assert (Hs : In d (map ValueEntry.date
                         (jsSort Merger.byDate (Merger.historyOf a)))
                 <-> In d (map ValueEntry.date (Merger.historyOf a))).
    { rewrite !in_map_iff. split; intros [e [He Hin]]; exists e;
        (split; [exact He |]); now apply jsSort_In in Hin || apply jsSort_In. }
    rewrite Hs. tauto.
Qed.

Lemma firstPass_keys (assets : list Asset.t) (d : isodate) :
  In d (JsMap.keys (Merger.firstPass assets))
  <-> In d (recordedDates assets).
Proof.
  unfold Merger.firstPass.
  change (In d (JsMap.keys (fold_left recordAsset assets []))
          <-> In d (recordedDates assets)).
  rewrite firstPass_fold_keys. simpl. tauto.
Qed.

Lemma firstPass_NoDup (assets : list Asset.t) :
  NoDup (JsMap.keys (Merger.firstPass assets)).
Proof.
  unfold Merger.firstPass.
  assert (H : NoDup (JsMap.keys (@nil (isodate * JsMap.t string Q))))
    by constructor.
  revert H. generalize (@nil (isodate * JsMap.t string Q)) as m.
  induction assets as [| a assets IH]; intros m H; simpl; auto.
  apply IH. now apply recordEntries_NoDup.
Qed.

(** The dates of the series: ascending, each once, those recorded. *)
Lemma uniqueDates_sorted (assets : list Asset.t) :
  StronglySorted date_lt (Merger.uniqueDates (Merger.firstPass assets)).
Proof.
  unfold Merger.uniqueDates.
  apply jsSort_sorted.
  - intros x y. reflexivity.
  - intros x y. unfold date_lt. rewrite (date_compare_antisym x y).
    destruct (date_compare x y); simpl; split; congruence.
  - apply date_compare_eq.
  - apply date_lt_trans.
  - apply firstPass_NoDup.
Qed.

Lemma uniqueDates_In (assets : list Asset.t) (d : isodate) :
  In d (Merger.uniqueDates (Merger.firstPass assets))
  <-> In d (recordedDates assets).
Proof.
  unfold Merger.uniqueDates. rewrite jsSort_In. apply firstPass_keys.
Qed.

End FirstPassFacts.

(** ** Value History Merger: the second pass *)

Section SecondPassFacts.
Variable dailyValuesMap : Merger.DailyValues.
Variable assets : list Asset.t.

Local Abbreviation sget := (JsMap.get String.eqb).
Local Abbreviation carryForward :=
  (Merger.carryForward dailyValuesMap assets).
Local Abbreviation walk := (Merger.walk dailyValuesMap assets).
Local Abbreviation isAsset := (isAssetOf assets).
Local Abbreviation carried := (carriedIn dailyValuesMap).

(** The carried map after the dates [ds]. *)
Let after (ds : list isodate) (cur : JsMap.t string Q) : JsMap.t string Q :=
  fold_left carryForward ds cur.

Lemma walk_acc (ds : list isodate) (cur : JsMap.t string Q)
    (acc : list Merger.Point) :
  walk ds cur acc = acc ++ walk ds cur [].
Proof.
  revert cur acc. induction ds as [| d ds IH]; intros cur acc; simpl.
  - now rewrite app_nil_r.
  - rewrite IH. rewrite (IH _ [_]). now rewrite app_assoc.
Qed.

Lemma walk_dates (ds : list isodate) (cur : JsMap.t string Q) :
  map Merger.date (walk ds cur []) = ds.
Proof.
  revert cur. induction ds as [| d ds IH]; intros cur; simpl.
  - reflexivity.
  - rewrite walk_acc. simpl. now rewrite IH.
Qed.

(** Every point holds the rounded sum of the map carried up to and
    including its date. *)
Lemma walk_points (ds : list isodate) (cur : JsMap.t string Q)
    (p : Merger.Point) :
  In p (walk ds cur []) ->
  exists ds1 ds2,
    ds = ds1 ++ Merger.date p :: ds2
    /\ Merger.totalNetWorth p
       = round2 (Merger.sumValues (after (ds1 ++ [Merger.date p]) cur)).
Proof.
  revert cur. induction ds as [| d ds IH]; intros cur; simpl.
  - intros [].
  - rewrite walk_acc. simpl. intros [<- | Hin].
    + exists [], ds. split; reflexivity.
    + destruct (IH _ Hin) as [ds1 [ds2 [-> Ht]]].
      exists (d :: ds1), ds2. split; [reflexivity | exact Ht].
Qed.

(** What one date does to the carried value of an identifier. *)
Lemma carryForward_get (cur : JsMap.t string Q) (d : isodate)
    (i : string) :
  sget (carryForward cur d) i
  = match (if isAsset i then Merger.valueOn dailyValuesMap d i else None)
    with
    | Some v => Some v
    | None => sget cur i
    end.
Proof.
  unfold Merger.carryForward, isAssetOf. revert cur.
  induction assets as [| a l IH]; intros cur; simpl.
  - reflexivity.
  - rewrite IH. clear IH.
    destruct (String.eqb (Asset.id a) i) eqn:E; simpl.
    + apply String.eqb_eq in E. subst i.
      destruct (Merger.valueOn dailyValuesMap d (Asset.id a)) as [v |].
      * rewrite (@get_set_same _ _ _ String.eqb_eq).
        now destruct (existsb _ l).
      * now destruct (existsb _ l).
    + apply String.eqb_neq in E.
      destruct (Merger.valueOn dailyValuesMap d (Asset.id a)) as [v |].
      * now rewrite (@get_set_other _ _ _ String.eqb_eq) by exact E.
      * reflexivity.
Qed.

Lemma carryForward_keys (cur : JsMap.t string Q) (d : isodate)
    (i : string) :
  In i (JsMap.keys (carryForward cur d)) ->
  In i (JsMap.keys cur) \/ In i (map Asset.id assets).
Proof.
  unfold Merger.carryForward. revert cur.
  induction assets as [| a l IH]; intros cur; simpl; auto.
  intros H. apply IH in H. destruct H as [H | H]; auto.
  destruct (Merger.valueOn dailyValuesMap d (Asset.id a)); auto.
  apply (@keys_set_In _ _ _ String.eqb_eq) in H.
  destruct H as [H | ->]; auto.
Qed.

Lemma carryForward_NoDup (cur : JsMap.t string Q) (d : isodate) :
  NoDup (JsMap.keys cur) -> NoDup (JsMap.keys (carryForward cur d)).
Proof.
  unfold Merger.carryForward. revert cur.
  induction assets as [| a l IH]; intros cur H; simpl; auto.
  apply IH. destruct (Merger.valueOn dailyValuesMap d (Asset.id a)); auto.
  now apply (@keys_set_NoDup _ _ _ String.eqb_eq).
Qed.

Lemma after_get (ds : list isodate) (cur : JsMap.t string Q) (i : string) :
  isAsset i = true ->
  sget (after ds cur) i = carried i ds (sget cur i).
Proof.
  intros Hi. unfold after, carriedIn. revert cur.
  induction ds as [| d ds IH]; intros cur; simpl.
  - reflexivity.
  - rewrite IH. f_equal. rewrite carryForward_get, Hi. reflexivity.
Qed.

Lemma after_keys (ds : list isodate) (cur : JsMap.t string Q) (i : string) :
  In i (JsMap.keys (after ds cur)) ->
  In i (JsMap.keys cur) \/ In i (map Asset.id assets).
Proof.
  unfold after. revert cur.
  induction ds as [| d ds IH]; intros cur; simpl; auto.
  intros H. apply IH in H. destruct H as [H | H]; auto.
  now apply carryForward_keys in H.
Qed.

Lemma after_NoDup (ds : list isodate) (cur : JsMap.t string Q) :
  NoDup (JsMap.keys cur) -> NoDup (JsMap.keys (after ds cur)).
Proof.
  unfold after. revert cur.
  induction ds as [| d ds IH]; intros cur H; simpl; auto.
  apply IH. now apply carryForward_NoDup.
Qed.

End SecondPassFacts.

(** ** Carrying a history forward *)

Section CarryFacts.

Lemma sorted_app_inv (l1 l2 : list isodate) :
  StronglySorted date_lt (l1 ++ l2) ->
  StronglySorted date_lt l1 /\ StronglySorted date_lt l2
  /\ (forall x y, In x l1 -> In y l2 -> date_lt x y).
Proof.
  induction l1 as [| a l1 IH]; simpl; intros H.
  - split; [constructor | split; [exact H | intros x y []]].
  - inversion H as [| ? ? Hs Hall]. subst.
    destruct (IH Hs) as [H1 [H2 H3]].
    rewrite Forall_forall in Hall.
    split; [| split; [exact H2 |]].
    + constructor; [exact H1 |]. rewrite Forall_forall.
      intros x Hx. apply Hall. apply in_app_iff. auto.
    + intros x y [<- | Hx] Hy; [| now apply H3].
      apply Hall. apply in_app_iff. auto.
Qed.

Lemma sorted_snoc (l : list isodate) (d : isodate) :
  StronglySorted date_lt l -> (forall x, In x l -> date_lt x d) ->
  StronglySorted date_lt (l ++ [d]).
Proof.
  induction 1 as [| a l Hs IH Hall]; simpl; intros Hd.
  - repeat constructor.
  - constructor; [apply IH; auto |].
    rewrite Forall_forall in *. intros x Hx. apply in_app_iff in Hx.
    destruct Hx as [Hx | [<- | []]]; auto.
Qed.

Variable h : list ValueEntry.t.

Lemma carriedEntry_snoc (ds : list isodate) (d : isodate)
    (start : option ValueEntry.t) :
  carriedEntry h (ds ++ [d]) start
  = match lastEntry (filter (onDate d) h) with
    | Some e => Some e
    | None => carriedEntry h ds start
    end.
Proof. unfold carriedEntry. now rewrite fold_left_app. Qed.

(** Over ascending dates, the carried entry is the latest of the entries
    whose date is among them. *)
Lemma carriedEntry_spec (ds : list isodate) :
  StronglySorted date_lt ds ->
  match carriedEntry h ds None with
  | Some e =>
      In e h /\ In (ValueEntry.date e) ds
      /\ (forall x, In x h -> In (ValueEntry.date x) ds ->
            date_leb (ValueEntry.date x) (ValueEntry.date e) = true)
      /\ lastEntry (filter (onDate (ValueEntry.date e)) h) = Some e
  | None => forall x, In x h -> ~ In (ValueEntry.date x) ds
  end.
Proof.
  induction ds as [| d ds IH] using rev_ind; intros Hs.
  - simpl. intros x _ [].
  - apply sorted_app_inv in Hs. destruct Hs as [Hs [_ Hlt]].
    specialize (IH Hs). rewrite carriedEntry_snoc.
    destruct (lastEntry (filter (onDate d) h)) as [e |] eqn:El.
    + assert (He := lastEntry_In _ El). apply filter_In in He.
      destruct He as [Hin Hd]. unfold onDate in Hd.
      apply date_eqb_eq in Hd.
      split; [exact Hin |].
      split; [rewrite Hd; apply in_app_iff; simpl; auto |].
      split; [| now rewrite Hd].
      intros x Hx Hxd. rewrite Hd. apply in_app_iff in Hxd.
      destruct Hxd as [Hxd | [<- | []]].
      * apply date_leb_lt_or_eq. left. apply Hlt; simpl; auto.
      * apply date_leb_refl.
    + apply lastEntry_None in El.
      assert (Hno : forall x, In x h -> ValueEntry.date x <> d).
      { intros x Hx Hd.
        assert (Hf : In x (filter (onDate d) h)).
        { apply filter_In. split; auto. unfold onDate.
          now apply date_eqb_eq. }
        rewrite El in Hf. exact Hf. }
      destruct (carriedEntry h ds None) as [e |].
      * destruct IH as [Hin [Hd [Hmax Hl]]].
        split; [exact Hin |].
        split; [apply in_app_iff; auto |].
        split; [| exact Hl].
        intros x Hx Hxd. apply in_app_iff in Hxd.
        destruct Hxd as [Hxd | [Hxd | []]]; auto.
        exfalso. now apply (Hno x Hx).
      * intros x Hx Hxd. apply in_app_iff in Hxd.
        destruct Hxd as [Hxd | [Hxd | []]].
        -- now apply (IH x Hx).
        -- now apply (Hno x Hx).
Qed.

Lemma filter_filter_imp (p q : ValueEntry.t -> bool) (l : list ValueEntry.t) :
  (forall x, p x = true -> q x = true) ->
  filter p (filter q l) = filter p l.
Proof.
  intros Hpq. induction l as [| x l IH]; simpl; auto.
  destruct (q x) eqn:Eq; simpl.
  - now rewrite IH.
  - destruct (p x) eqn:Ep; auto.
    apply Hpq in Ep. congruence.
Qed.

(** At a date [d] of an ascending list of dates holding every date of
    the history, what has been carried up to [d] is the
    chronologically latest entry dated on or before [d]. *)
Lemma carriedEntry_chronLatest (ds1 ds2 : list isodate) (d : isodate) :
  StronglySorted date_lt (ds1 ++ d :: ds2) ->
  (forall x, In x h -> In (ValueEntry.date x) (ds1 ++ d :: ds2)) ->
  carriedEntry h (ds1 ++ [d]) None
  = chronLatest (filter (fun e => date_leb (ValueEntry.date e) d) h).
Proof.
  intros Hs Hall.
  apply sorted_app_inv in Hs. destruct Hs as [Hs1 [Hs2 Hlt]].
  inversion Hs2 as [| ? ? Hs2' Hgt]. subst.
  rewrite Forall_forall in Hgt.
  assert (Hpre : StronglySorted date_lt (ds1 ++ [d])).
  { apply sorted_snoc; auto. intros x Hx. apply Hlt; simpl; auto. }
  assert (Hiff : forall x, In x h ->
                   (In (ValueEntry.date x) (ds1 ++ [d])
                    <-> date_leb (ValueEntry.date x) d = true)).
  { intros x Hx. split.
    - intros Hd. apply in_app_iff in Hd.
      destruct Hd as [Hd | [<- | []]].
      + apply date_leb_lt_or_eq. left. apply Hlt; simpl; auto.
      + apply date_leb_refl.
    - intros Hle. specialize (Hall x Hx). apply in_app_iff in Hall.
      apply in_app_iff.
      destruct Hall as [Hd | [Hd | Hd]]; simpl; auto.
      apply Hgt in Hd. apply date_lt_not_leb in Hd. congruence. }
  set (L := filter (fun e => date_leb (ValueEntry.date e) d) h).
  assert (HL : forall x, In x L
                 <-> In x h /\ In (ValueEntry.date x) (ds1 ++ [d])).
  { intros x. unfold L. rewrite filter_In. split.
    - intros [Hx Hle]. split; auto. now apply Hiff.
    - intros [Hx Hd]. split; auto. now apply Hiff. }
  assert (Hc := carriedEntry_spec Hpre).
  destruct (chronLatest L) as [e' |] eqn:Ec.
  - apply chronLatest_spec in Ec. destruct Ec as [Hin' [Hmax' Hl']].
    destruct (carriedEntry h (ds1 ++ [d]) None) as [e |].
    + destruct Hc as [Hin [Hd [Hmax Hl]]]. f_equal.
      apply (@latest_unique L e e').
      * apply HL. auto.
      * exact Hin'.
      * intros x Hx. apply HL in Hx. now apply Hmax.
      * exact Hmax'.
      * unfold L.
        rewrite filter_filter_imp; [exact Hl |].
        intros x Hx. unfold onDate in Hx. apply date_eqb_eq in Hx.
        rewrite Hx. apply Hiff; auto.
      * exact Hl'.
    + exfalso. apply HL in Hin'. destruct Hin' as [H1 H2].
      now apply (Hc e').
  - apply chronLatest_None in Ec.
    destruct (carriedEntry h (ds1 ++ [d]) None) as [e |]; auto.
    exfalso. destruct Hc as [Hin [Hd _]].
    assert (He : In e L) by (apply HL; auto).
    rewrite Ec in He. exact He.
Qed.

(** Values are carried as entries are. *)
Lemma carriedIn_entry (dailyValuesMap : Merger.DailyValues) (i : string)
    (ds : list isodate) (start : option ValueEntry.t) :
  (forall d, Merger.valueOn dailyValuesMap d i
             = option_map ValueEntry.value
                 (lastEntry (filter (onDate d) h))) ->
  carriedIn dailyValuesMap i ds (option_map ValueEntry.value start)
  = option_map ValueEntry.value (carriedEntry h ds start).
Proof.
  intros Hv. unfold carriedIn, carriedEntry. revert start.
  induction ds as [| d ds IH]; intros start; simpl.
  - reflexivity.
  - rewrite Hv. rewrite <- IH. f_equal.
    now destruct (lastEntry (filter (onDate d) h)).
Qed.

End CarryFacts.

(** ** Summing the carried map *)

Section SumValuesFacts.

Lemma fold_left_Qplus (l : list Q) (a : Q) :
  (fold_left Qplus l a == a + sumQ l)%Q.
Proof.
  revert a. induction l as [| x l IH]; intros a; simpl.
  - ring.
  - rewrite IH. ring.
Qed.

Lemma sum_one_key (ids : list string) (k : string) (v : Q)
    (g : string -> Q) :
  NoDup ids -> In k ids -> (g k == 0)%Q ->
  (sumQ (map (fun i => if String.eqb k i then v else g i) ids)
   == v + sumQ (map g ids))%Q.
Proof.
  induction 1 as [| x ids Hx Hnd IH]; simpl; [tauto |].
  intros [-> | Hin] Hg.
  - rewrite String.eqb_refl.
    assert (E : map (fun i => if String.eqb k i then v else g i) ids
                = map g ids).
    { apply map_ext_in. intros i Hi.
      destruct (String.eqb k i) eqn:E; auto.
      apply String.eqb_eq in E. subst. tauto. }
    rewrite E, Hg. ring.
  - destruct (String.eqb k x) eqn:E.
    + apply String.eqb_eq in E. subst. tauto.
    + rewrite IH by assumption. ring.
Qed.

(** The sum of the values of a map, taken key by key over a list of
    identifiers that holds its keys. *)
Lemma sumValues_by_ids (ids : list string) (cur : JsMap.t string Q) :
  NoDup ids -> NoDup (JsMap.keys cur) ->
  (forall k, In k (JsMap.keys cur) -> In k ids) ->
  (Merger.sumValues cur == sumQ (map (valueOr0 cur) ids))%Q.
Proof.
  intros Hids. unfold Merger.sumValues. rewrite fold_left_Qplus.
  induction cur as [| [k v] cur IH]; simpl; intros Hnd Hsub.
  - assert (E : map (valueOr0 []) ids = map (fun _ => 0%Q) ids)
      by reflexivity.
    rewrite E. clear. induction ids as [| x ids IH]; simpl.
    + ring.
    + rewrite <- IH. ring.
  - inversion Hnd as [| ? ? Hk Hnd']. subst.
    assert (E : map (valueOr0 ((k, v) :: cur)) ids
                = map (fun i => if String.eqb k i then v
                                else valueOr0 cur i) ids).
    { apply map_ext. intros i. unfold valueOr0. simpl.
      now destruct (String.eqb k i). }
    rewrite E, sum_one_key; auto.
    + specialize (IH Hnd' (fun k0 H => Hsub k0 (or_intror H))).
      unfold JsMap.values in *. rewrite <- IH. ring.
    + unfold valueOr0.
      assert (Hn : JsMap.get String.eqb cur k = None)
        by (apply (@get_None_keys _ _ _ String.eqb_eq); exact Hk).
      rewrite Hn. reflexivity.
Qed.

Lemma sumQ_knownValues (assets : list Asset.t) (d : isodate) :
  (sumQ (knownValues assets d)
   == sumQ (map (fun a => match knownValue a d with
                          | Some v => v
                          | None => 0
                          end) assets))%Q.
Proof.
  unfold knownValues. induction assets as [| a assets IH]; simpl.
  - reflexivity.
  - destruct (knownValue a d); simpl; rewrite IH; ring.
Qed.

End SumValuesFacts.

(** ** The merged series *)

Section MergerFacts.
Variable assets : list Asset.t.

Let D := Merger.firstPass assets.
Let uds := Merger.uniqueDates D.

Lemma isAssetOf_In (a : Asset.t) :
  In a assets -> isAssetOf assets (Asset.id a) = true.
Proof.
  intros H. unfold isAssetOf. apply existsb_exists.
  exists a. split; [exact H | apply String.eqb_refl].
Qed.

(** The value carried for an asset at a date of the series is the value
    the asset is known to have on that date. *)
Lemma carried_knownValue (a : Asset.t) (ds1 ds2 : list isodate)
    (d : isodate) :
  NoDup (map Asset.id assets) -> In a assets ->
  uds = ds1 ++ d :: ds2 ->
  JsMap.get String.eqb
    (fold_left (Merger.carryForward D assets) (ds1 ++ [d]) [])
    (Asset.id a)
  = knownValue a d.
Proof.
  intros Hnd Hin Huds.
  rewrite after_get by (now apply isAssetOf_In).
  change (JsMap.get String.eqb [] (Asset.id a))
    with (option_map ValueEntry.value None).
  rewrite (@carriedIn_entry (Merger.historyOf a)).
  - unfold knownValue. f_equal.
    apply carriedEntry_chronLatest with (ds2 := ds2).
    + rewrite <- Huds. apply uniqueDates_sorted.
    + intros x Hx. rewrite <- Huds. apply uniqueDates_In.
      unfold recordedDates. apply in_flat_map. exists a.
      split; [exact Hin | now apply in_map].
  - intros d'. unfold D. now rewrite firstPass_valueOn.
Qed.

Lemma point_total (p : Merger.Point) :
  NoDup (map Asset.id assets) ->
  In p (Merger.chartData assets) ->
  Merger.totalNetWorth p
  = round2 (sumQ (knownValues assets (Merger.date p))).
Proof.
  intros Hnd Hp. unfold Merger.chartData in Hp.
  apply walk_points in Hp. destruct Hp as [ds1 [ds2 [Huds ->]]].
  apply round2_proper.
  set (cur := fold_left _ _ _).
  rewrite (@sumValues_by_ids (map Asset.id assets) cur Hnd).
  - rewrite sumQ_knownValues, map_map.
    assert (E : map (fun a => valueOr0 cur (Asset.id a)) assets
                = map (fun a => match knownValue a (Merger.date p) with
                                | Some v => v
                                | None => 0%Q
                                end) assets).
    { apply map_ext_in. intros a Ha. unfold valueOr0, cur.
      assert (Hk := @carried_knownValue a ds1 ds2 (Merger.date p) Hnd Ha
                      Huds).
      unfold D in Hk. now rewrite Hk. }
    rewrite E. reflexivity.
  - apply after_NoDup. constructor.
  - intros k Hk. apply after_keys in Hk. destruct Hk as [[] | Hk].
    exact Hk.
Qed.

Lemma chartData_dates :
  map Merger.date (Merger.chartData assets) = uds.
Proof. unfold Merger.chartData. apply walk_dates. Qed.

End MergerFacts.

(** ** The breakdown lookup *)

Section RebuildFacts.
Variables K V W : Type.
Variable eqb : K -> K -> bool.
Hypothesis eqb_eq : forall a b, eqb a b = true <-> a = b.
Variable f : V -> W.

(** Copying a dictionary entry by entry, each value through [f]. *)
Lemma rebuild_get (m : JsMap.t K V) (acc : JsMap.t K W) (k : K) :
  NoDup (JsMap.keys m) ->
  JsMap.get eqb
    (fold_left (fun o kv => JsMap.set eqb o (fst kv) (f (snd kv))) m acc) k
  = match JsMap.get eqb m k with
    | Some v => Some (f v)
    | None => JsMap.get eqb acc k
    end.
Proof.
  revert acc. induction m as [| [k0 v0] m IH]; intros acc Hnd; simpl.
  - reflexivity.
  - inversion Hnd as [| ? ? Hk Hnd']. subst.
    rewrite IH by exact Hnd'.
    destruct (eqb k0 k) eqn:E.
    + apply eqb_eq in E. subst k0.
      assert (Hn : JsMap.get eqb m k = None)
        by (apply (@get_None_keys _ _ _ eqb_eq); exact Hk).
      rewrite Hn. apply (@get_set_same _ _ _ eqb_eq).
    + destruct (JsMap.get eqb m k); [reflexivity |].
      apply (@get_set_other _ _ _ eqb_eq).
      intros Heq. subst k0.
      rewrite (proj2 (eqb_eq k k) eq_refl) in E. discriminate.
Qed.

Lemma set_Forall (P : K * V -> Prop) (m : JsMap.t K V) (k : K) (v : V) :
  Forall P m -> (forall k', P (k', v)) ->
  Forall P (JsMap.set eqb m k v).
Proof.
  intros Hm Hv. induction Hm as [| [k' v'] m Hp Hm IH]; simpl.
  - constructor; auto.
  - destruct (eqb k' k); constructor; auto.
Qed.

End RebuildFacts.

Section DetailedFacts.

Let innerOk (p : isodate * JsMap.t string Q) : Prop :=
  NoDup (JsMap.keys (snd p)).

Lemma recordEntry_innerOk (i : string) (m : Merger.DailyValues)
    (e : ValueEntry.t) :
  Forall innerOk m -> Forall innerOk (Merger.recordEntry i m e).
Proof.
  intros H. unfold Merger.recordEntry, JsMap.has.
  destruct (JsMap.get date_eqb m (ValueEntry.date e)) as [inner |] eqn:E.
  - rewrite E. apply set_Forall; auto.
    intros k'. unfold innerOk. simpl.
    apply (@keys_set_NoDup _ _ _ String.eqb_eq).
    apply (@get_Some_In _ _ _ date_eqb_eq) in E.
    rewrite Forall_forall in H. apply (H _ E).
  - rewrite (@get_set_same _ _ _ date_eqb_eq).
    apply set_Forall.
    + apply set_Forall; auto. intros k'. constructor.
    + intros k'. unfold innerOk. simpl. repeat constructor. intros [].
Qed.

Lemma firstPass_innerOk (assets : list Asset.t) :
  Forall innerOk (Merger.firstPass assets).
Proof.
  unfold Merger.firstPass.
  assert (H : Forall innerOk (@nil (isodate * JsMap.t string Q)))
    by constructor.
  revert H. generalize (@nil (isodate * JsMap.t string Q)) as m.
  induction assets as [| a assets IH]; intros m H; simpl; auto.
  apply IH. clear IH.
  revert m H.
  induction (jsSort Merger.byDate (Merger.historyOf a)) as [| e es IHe];
    intros m H; simpl; auto.
  apply IHe. now apply recordEntry_innerOk.
Qed.

(** The lookup handed to the chart holds, for a date, what the first
    pass recorded for that very date. *)
Lemma detailed_valueOn (assets : list Asset.t) (d : isodate) (i : string) :
  Merger.valueOn (Merger.detailedDailyValues assets) d i
  = Merger.valueOn (Merger.firstPass assets) d i.
Proof.
  unfold Merger.valueOn, Merger.detailedDailyValues.
  rewrite (@rebuild_get _ _ _ _ date_eqb_eq
             (fun inner : JsMap.t string Q =>
                fold_left
                  (fun o (kv : string * Q) =>
                     JsMap.set String.eqb o (fst kv) (snd kv))
                  inner [])
             (Merger.firstPass assets) [] d (firstPass_NoDup assets)).
  destruct (JsMap.get date_eqb (Merger.firstPass assets) d) as [inner |]
    eqn:E; [| reflexivity].
  rewrite (@rebuild_get _ _ _ _ String.eqb_eq (fun v : Q => v)).
  - now destruct (JsMap.get String.eqb inner i).
  - apply (@get_Some_In _ _ _ date_eqb_eq) in E.
    assert (H := firstPass_innerOk assets).
    rewrite Forall_forall in H. apply (H _ E).
Qed.

End DetailedFacts.

(** C2.  The breakdown lookup is not a snapshot of the carried map: it is
    built from the values recorded on each date itself.  With
    the assets A and B above, the breakdown of 2024-01-02, the last date
    of the series, holds B alone, although A is known to be worth 100 on
    that date and the total of that date, 150, counts it. *)
Theorem breakdown_holds_same_day_entries_only :
  JsMap.get date_eqb
    (snd (Merger.calculateNetWorthHistory [assetA; assetB]))
    (mkDate 2024 1 2)
  = Some [("B"%string, 50%Q)]
  /\ Merger.valueOn (snd (Merger.calculateNetWorthHistory [assetA; assetB]))
       (mkDate 2024 1 2) (Asset.id assetA)
     = None
  /\ knownValue assetA (mkDate 2024 1 2) = Some 100%Q
  /\ In (Merger.mk (mkDate 2024 1 2) 150)
       (fst (Merger.calculateNetWorthHistory [assetA; assetB])).
Proof.
  split; [| split; [| split]].
  - reflexivity.
  - reflexivity.
  - reflexivity.
  - vm_compute. auto.
Qed.

(* ================================================================== *)
(** * Part IV.  Further properties of the code *)
(* ================================================================== *)

(** ** Order of the sorted lists *)

Section WeakSortFacts.
Variable A : Type.
Variable cmp : A -> A -> comparison.
Variable P : A -> Prop.
Hypothesis cmp_total : forall x y, P x -> P y -> cmp x y = Gt -> cmp y x <> Gt.
Hypothesis cmp_trans :
  forall x y z, P x -> P y -> P z ->
                cmp x y <> Gt -> cmp y z <> Gt -> cmp x z <> Gt.

Let inOrder (x y : A) : Prop := cmp x y <> Gt.

Lemma insertSorted_inOrder (x : A) (l : list A) :
  P x -> Forall P l ->
  StronglySorted inOrder l -> StronglySorted inOrder (insertSorted cmp x l).
Proof.
  intros Hx Hl Hs. induction Hs as [| y l Hs IH Hall]; simpl.
  - repeat constructor.
  - inversion Hl as [| ? ? Hy Hl']. subst.
    assert (Hle : cmp x y <> Gt ->
                  StronglySorted inOrder (x :: y :: l)).
    { intros Hxy. constructor; [now constructor |].
      constructor; [exact Hxy |].
      rewrite Forall_forall in *. intros z Hz.
      apply (cmp_trans Hx Hy (Hl' z Hz) Hxy). now apply Hall. }
    destruct (cmp x y) eqn:E.
    + apply Hle. discriminate.
    + apply Hle. discriminate.
    + constructor; [now apply IH |].
      rewrite Forall_forall in *. intros z Hz.
      apply (Permutation_in _ (insertSorted_perm cmp x l)) in Hz.
      destruct Hz as [<- | Hz]; [| now apply Hall].
      now apply cmp_total.
Qed.

Lemma jsSort_inOrder (l : list A) :
  Forall P l -> StronglySorted inOrder (jsSort cmp l).
Proof.
  induction 1 as [| x l Hx Hl IH]; simpl.
  - constructor.
  - apply insertSorted_inOrder; auto.
    rewrite Forall_forall in *. intros z Hz. apply Hl.
    now apply jsSort_In in Hz.
Qed.

End WeakSortFacts.

Section NewestFirstFacts.

Lemma newestFirst_inOrder (a b : Tx.t) :
  Monthly.newestFirst a b <> Gt
  <-> date_leb (Tx.date b) (Tx.date a) = true.
Proof.
  unfold Monthly.newestFirst, date_leb.
  destruct (date_compare (Tx.date b) (Tx.date a)); split; congruence.
Qed.

(** A list sorted newest first: no transaction comes before one of a
    later date. *)
Lemma newestFirst_sorted (l : list Tx.t) :
  StronglySorted (fun a b => date_leb (Tx.date b) (Tx.date a) = true)
    (jsSort Monthly.newestFirst l).
Proof.
  assert (H : StronglySorted (fun a b => Monthly.newestFirst a b <> Gt)
                (jsSort Monthly.newestFirst l)).
  { apply (@jsSort_inOrder _ Monthly.newestFirst (fun _ => True)).
    - intros x y _ _ H. apply newestFirst_inOrder.
      unfold Monthly.newestFirst in H.
      apply date_leb_lt_or_eq. left. unfold date_lt.
      rewrite date_compare_antisym, H. reflexivity.
    - intros x y z _ _ _. rewrite !newestFirst_inOrder. intros H1 H2.
      eapply date_leb_trans; eauto.
    - apply Forall_forall. auto. }
  induction H as [| a l' Hs IH Hall]; constructor; auto.
  eapply Forall_impl; [| exact Hall].
  intros b. apply newestFirst_inOrder.
Qed.

(** Transactions of one date keep the order they have in the list. *)
Lemma newestFirst_stable (l : list Tx.t) (d : isodate) :
  filter (fun t => date_eqb (Tx.date t) d) (jsSort Monthly.newestFirst l)
  = filter (fun t => date_eqb (Tx.date t) d) l.
Proof.
  apply jsSort_filter. intros x y Hx Hy.
  apply date_eqb_eq in Hx. apply date_eqb_eq in Hy.
  unfold Monthly.newestFirst. rewrite Hx, Hy, date_compare_refl.
  discriminate.
Qed.

End NewestFirstFacts.

(** X1.  The list of a selected month holds the transactions of the
    collection that pass the month filter, each as often as the
    collection holds it, ordered newest first, the transactions of one
    date in the order of the collection. *)
Theorem filtered_newest_first (items : list Tx.t) (m y : Z) (d : isodate) :
  let active := filter (Monthly.monthFilter (newDateYM y (m - 1))) items in
  Permutation (Monthly.filtered items m y) active
  /\ StronglySorted (fun a b => date_leb (Tx.date b) (Tx.date a) = true)
       (Monthly.filtered items m y)
  /\ filter (fun t => date_eqb (Tx.date t) d) (Monthly.filtered items m y)
     = filter (fun t => date_eqb (Tx.date t) d) active.
Proof.
  intros active. unfold Monthly.filtered. fold active.
  split; [apply jsSort_perm |].
  split; [apply newestFirst_sorted | apply newestFirst_stable].
Qed.

(** X2.  The income list and the expense list of the Income & Expenses
    page are the collections reordered newest first: nothing is lost or
    repeated, no transaction comes before one of a later date, and
    transactions of one date keep the order of the collection. *)
Theorem sorted_lists_newest_first (income expenses : list Tx.t)
    (d : isodate) :
  (Permutation (Lists.sortedIncome income) income
   /\ StronglySorted (fun a b => date_leb (Tx.date b) (Tx.date a) = true)
        (Lists.sortedIncome income)
   /\ filter (fun t => date_eqb (Tx.date t) d) (Lists.sortedIncome income)
      = filter (fun t => date_eqb (Tx.date t) d) income)
  /\ (Permutation (Lists.sortedExpenses expenses) expenses
      /\ StronglySorted (fun a b => date_leb (Tx.date b) (Tx.date a) = true)
           (Lists.sortedExpenses expenses)
      /\ filter (fun t => date_eqb (Tx.date t) d)
           (Lists.sortedExpenses expenses)
         = filter (fun t => date_eqb (Tx.date t) d) expenses).
Proof.
  unfold Lists.sortedIncome, Lists.sortedExpenses.
  split; (split; [apply jsSort_perm |]);
    (split; [apply newestFirst_sorted | apply newestFirst_stable]).
Qed.

Section RecentFacts.

Lemma firstn_In (l : list Tx.t) (n : nat) (x : Tx.t) :
  In x (firstn n l) -> In x l.
Proof.
  revert n. induction l as [| a l IH]; intros [| n]; simpl; try tauto.
  intros [H | H]; eauto.
Qed.

Lemma skipn_In (l : list Tx.t) (n : nat) (x : Tx.t) :
  In x (skipn n l) -> In x l.
Proof.
  revert n. induction l as [| a l IH]; intros [| n]; simpl; try tauto.
  intros H. eauto.
Qed.

Lemma sorted_split (R : Tx.t -> Tx.t -> Prop) (l : list Tx.t) (n : nat) :
  StronglySorted R l ->
  StronglySorted R (firstn n l)
  /\ (forall x y, In x (firstn n l) -> In y (skipn n l) -> R x y).
Proof.
  intros H. revert n. induction H as [| a l Hs IH Hall]; intros n.
  - rewrite firstn_nil, skipn_nil. split; [constructor | intros x y []].
  - destruct n as [| n]; simpl.
    + split; [constructor | intros x y []].
    + destruct (IH n) as [H1 H2]. rewrite Forall_forall in Hall. split.
      * constructor; [exact H1 |]. rewrite Forall_forall.
        intros x Hx. apply Hall. eapply firstn_In; eauto.
      * intros x y [<- | Hx] Hy; [| now apply H2].
        apply Hall. eapply skipn_In; eauto.
Qed.

End RecentFacts.

(** X3.  The recent transactions of the dashboard are the five newest of
    income and expenses together (all of them when there are fewer):
    they are ordered newest first, and no transaction left out is dated
    after one that is shown. *)
Theorem recent_transactions_are_newest (income expenses : list Tx.t) :
  let recent := Lists.recentTransactions income expenses in
  List.length recent
  = Nat.min 5 (List.length income + List.length expenses)
  /\ StronglySorted (fun a b => date_leb (Tx.date b) (Tx.date a) = true)
       recent
  /\ exists rest,
       Permutation (recent ++ rest) (income ++ expenses)
       /\ forall x y, In x recent -> In y rest ->
                      date_leb (Tx.date y) (Tx.date x) = true.
Proof.
  intros recent. unfold recent, Lists.recentTransactions.
  set (l := jsSort Monthly.newestFirst (income ++ expenses)).
  destruct (sorted_split 5 (newestFirst_sorted (income ++ expenses)))
    as [H1 H2]. fold l in H1, H2.
  split; [| split; [exact H1 |]].
  - rewrite length_firstn. unfold l.
    rewrite (Permutation_length (jsSort_perm _ _)), length_app.
    reflexivity.
  - exists (skipn 5 l). split; [| exact H2].
    rewrite firstn_skipn. apply jsSort_perm.
Qed.


(** ** The years on offer *)

Section YearsOrderFacts.

Lemma JsSet_add_NoDup (s : list Z) (k : Z) :
  NoDup s -> NoDup (JsSet.add Z.eqb s k).
Proof.
  intros H. unfold JsSet.add. destruct (existsb (Z.eqb k) s) eqn:E; auto.
  assert (Hk : ~ In k s).
  { intros Hin.
    assert (Ht : existsb (Z.eqb k) s = true).
    { apply existsb_exists. exists k. split; auto. apply Z.eqb_refl. }
    congruence. }
  apply NoDup_rev in H. rewrite <- (rev_involutive (s ++ [k])).
  apply NoDup_rev. rewrite rev_app_distr. simpl.
  constructor; auto. now rewrite <- in_rev.
Qed.

End YearsOrderFacts.

(** ** Order of the breakdowns *)

Section BreakdownOrderFacts.



End BreakdownOrderFacts.




(** ** The months in which a transaction is active *)

Section ActivityShapeFacts.

Lemma ym_le_refl (a : ym) : ym_le a a.
Proof. unfold ym_le. right. split; [reflexivity | lia]. Qed.

Lemma ym_le_trans (a b c : ym) : ym_le a b -> ym_le b c -> ym_le a c.
Proof. unfold ym_le. lia. Qed.

Lemma ym_le_antisym (a b : ym) : ym_le a b -> ym_le b a -> a = b.
Proof.
  destruct a as [ya ma], b as [yb mb]. unfold ym_le. simpl.
  intros H1 H2. f_equal; lia.
Qed.

End ActivityShapeFacts.

(** ** The merged series as a function of the collection *)

Section SeriesFacts.

Lemma sorted_same_elements (l1 l2 : list isodate) :
  StronglySorted date_lt l1 -> StronglySorted date_lt l2 ->
  (forall d, In d l1 <-> In d l2) -> l1 = l2.
Proof.
  intros H1. revert l2. induction H1 as [| a l1 Hs1 IH Ha]; intros l2 H2 Hin.
  - destruct l2 as [| b l2]; auto.
    exfalso. apply (Hin b). now left.
  - destruct H2 as [| b l2 Hs2 Hb].
    + exfalso. apply (Hin a). now left.
    + rewrite Forall_forall in Ha, Hb.
      assert (Eab : a = b).
      { assert (Ha2 : In a (b :: l2)) by (apply Hin; now left).
        assert (Hb1 : In b (a :: l1)) by (apply Hin; now left).
        destruct Ha2 as [E | Ha2]; [now symmetry |].
        destruct Hb1 as [E | Hb1]; [exact E |].
        exfalso. apply (@date_lt_irrefl a).
        eapply date_lt_trans; [apply Ha, Hb1 | apply Hb, Ha2]. }
      subst b. f_equal. apply IH; auto.
      intros d. split; intros Hd.
      * assert (H : In d (a :: l2)) by (apply Hin; now right).
        destruct H as [<- | H]; auto.
        exfalso. apply (@date_lt_irrefl a). now apply Ha.
      * assert (H : In d (a :: l1)) by (apply Hin; now right).
        destruct H as [<- | H]; auto.
        exfalso. apply (@date_lt_irrefl a). now apply Hb.
Qed.

Lemma points_by_date (F : isodate -> Q) (l : list Merger.Point) :
  (forall p, In p l -> Merger.totalNetWorth p = F (Merger.date p)) ->
  l = map (fun d => Merger.mk d (F d)) (map Merger.date l).
Proof.
  induction l as [| [d v] l IH]; simpl; intros H; auto.
  f_equal.
  - f_equal. apply (H (Merger.mk d v)). now left.
  - apply IH. intros p Hp. apply H. now right.
Qed.

(** The series, point by point. *)
Lemma chartData_closed (assets : list Asset.t) :
  NoDup (map Asset.id assets) ->
  Merger.chartData assets
  = map (fun d => Merger.mk d (round2 (sumQ (knownValues assets d))))
      (Merger.uniqueDates (Merger.firstPass assets)).
Proof.
  intros Hnd. rewrite <- chartData_dates.
  apply points_by_date. intros p Hp. now apply point_total.
Qed.

(** Two collections with the same recorded dates and, date by date, the
    same sum of known values have the same series. *)
Lemma chartData_ext (assets assets' : list Asset.t) :
  NoDup (map Asset.id assets) -> NoDup (map Asset.id assets') ->
  (forall d, In d (recordedDates assets) <-> In d (recordedDates assets')) ->
  (forall d, (sumQ (knownValues assets d)
              == sumQ (knownValues assets' d))%Q) ->
  Merger.chartData assets = Merger.chartData assets'.
Proof.
  intros Hnd Hnd' Hd Hv. rewrite !chartData_closed by assumption.
  assert (E : Merger.uniqueDates (Merger.firstPass assets)
              = Merger.uniqueDates (Merger.firstPass assets')).
  { apply sorted_same_elements; try apply uniqueDates_sorted.
    intros d. rewrite !uniqueDates_In. apply Hd. }
  rewrite E. apply map_ext. intros d. f_equal. apply round2_proper, Hv.
Qed.

End SeriesFacts.

(** X10.  An asset whose [valueHistory] is missing or empty leaves the
    series as it is without the asset (the identifiers being
    distinct). *)
Theorem asset_without_history_ignored
    (before after : list Asset.t) (a : Asset.t) :
  Merger.historyOf a = [] ->
  NoDup (map Asset.id (before ++ a :: after)) ->
  fst (Merger.calculateNetWorthHistory (before ++ a :: after))
  = fst (Merger.calculateNetWorthHistory (before ++ after)).
Proof.
  intros Hh Hnd. simpl. apply chartData_ext; auto.
  - rewrite map_app in *. simpl in Hnd.
    now apply NoDup_remove_1 in Hnd.
  - intros d. unfold recordedDates. rewrite !flat_map_app. simpl.
    rewrite Hh. simpl. reflexivity.
  - intros d. unfold knownValues. rewrite !flat_map_app. simpl.
    unfold knownValue at 2. rewrite Hh. simpl. reflexivity.
Qed.

Lemma asset_without_history_ignored_witness :
  (Merger.historyOf
     (Asset.mk "C" "Car" "Vehicle" 0 0 (Some []) None) = []
   /\ NoDup (map Asset.id
               ([assetA] ++ Asset.mk "C" "Car" "Vehicle" 0 0 (Some []) None
                            :: [assetB])))
  /\ fst (Merger.calculateNetWorthHistory
            ([assetA] ++ Asset.mk "C" "Car" "Vehicle" 0 0 (Some []) None
                         :: [assetB]))
     = fst (Merger.calculateNetWorthHistory ([assetA] ++ [assetB])).
Proof.
  assert (Hh : Merger.historyOf
                 (Asset.mk "C" "Car" "Vehicle" 0 0 (Some []) None) = [])
    by reflexivity.
  assert (H : NoDup (map Asset.id
                       ([assetA]
                        ++ Asset.mk "C" "Car" "Vehicle" 0 0 (Some []) None
                           :: [assetB]))).
  { simpl. repeat constructor; simpl; intuition discriminate. }
  split; [split; assumption |].
  exact (asset_without_history_ignored [assetA] [assetB] _ Hh H).
Defined.


(** ** The lookup of the chart and its hover breakdown *)

Section LookupFacts.

Lemma rebuild_keys (K V W : Type) (eqb : K -> K -> bool)
    (eqb_eq : forall a b, eqb a b = true <-> a = b) (f : V -> W)
    (m : JsMap.t K V) (acc : JsMap.t K W) (k : K) :
  In k (JsMap.keys
          (fold_left (fun o kv => JsMap.set eqb o (fst kv) (f (snd kv)))
             m acc))
  <-> In k (JsMap.keys acc) \/ In k (JsMap.keys m).
Proof.
  revert acc. induction m as [| [k0 v0] m IH]; intros acc; simpl.
  - tauto.
  - rewrite IH, (@keys_set_In _ _ _ eqb_eq). simpl. intuition.
Qed.

Lemma rebuild_NoDup (K V W : Type) (eqb : K -> K -> bool)
    (eqb_eq : forall a b, eqb a b = true <-> a = b) (f : V -> W)
    (m : JsMap.t K V) (acc : JsMap.t K W) :
  NoDup (JsMap.keys acc) ->
  NoDup (JsMap.keys
           (fold_left (fun o kv => JsMap.set eqb o (fst kv) (f (snd kv)))
              m acc)).
Proof.
  revert acc. induction m as [| [k0 v0] m IH]; intros acc H; simpl; auto.
  apply IH. now apply (@keys_set_NoDup _ _ _ eqb_eq).
Qed.

Lemma detailed_keys (assets : list Asset.t) (d : isodate) :
  In d (JsMap.keys (Merger.detailedDailyValues assets))
  <-> In d (recordedDates assets).
Proof.
  unfold Merger.detailedDailyValues.
  rewrite (@rebuild_keys _ _ _ _ date_eqb_eq
             (fun inner : JsMap.t string Q =>
                fold_left
                  (fun o (kv : string * Q) =>
                     JsMap.set String.eqb o (fst kv) (snd kv))
                  inner [])
             (Merger.firstPass assets) [] d).
  simpl. rewrite firstPass_keys. tauto.
Qed.

(** The object the lookup holds for a date has each key once. *)
Lemma detailed_inner_NoDup (assets : list Asset.t) (d : isodate)
    (o : JsMap.t string Q) :
  JsMap.get date_eqb (Merger.detailedDailyValues assets) d = Some o ->
  NoDup (JsMap.keys o).
Proof.
  unfold Merger.detailedDailyValues.
  rewrite (@rebuild_get _ _ _ _ date_eqb_eq
             (fun inner : JsMap.t string Q =>
                fold_left
                  (fun o (kv : string * Q) =>
                     JsMap.set String.eqb o (fst kv) (snd kv))
                  inner [])
             (Merger.firstPass assets) [] d (firstPass_NoDup assets)).
  destruct (JsMap.get date_eqb (Merger.firstPass assets) d) as [inner |];
    [| discriminate].
  intros H. injection H as <-.
  apply (@rebuild_NoDup _ _ _ _ String.eqb_eq (fun v : Q => v)).
  constructor.
Qed.

Lemma firstPass_valueOn_any (assets : list Asset.t) (d : isodate)
    (j : string) :
  NoDup (map Asset.id assets) ->
  Merger.valueOn (Merger.firstPass assets) d j
  = match Store.findAsset assets j with
    | Some a => explicitOn a d
    | None => None
    end.
Proof.
  intros Hnd.
  refine (eq_trans (@firstPass_fold_valueOn assets [] d j Hnd) _).
  destruct (Store.findAsset assets j) as [a |]; [| reflexivity].
  now destruct (explicitOn a d).
Qed.

(** The rows of the hover breakdown. *)
Lemma breakdown_rows (assets : list Asset.t) (d : isodate)
    (r : AssetViews.Row) :
  NoDup (map Asset.id assets) ->
  (In r (AssetViews.breakdown assets d)
   <-> exists a v,
         In a assets /\ explicitOn a d = Some v
         /\ r = AssetViews.mkRow (Asset.id a) (Asset.name a) v
                  (Asset.type a)).
Proof.
  intros Hnd. unfold AssetViews.breakdown. simpl snd.
  assert (Hval : forall k,
             Merger.valueOn (Merger.detailedDailyValues assets) d k
             = match Store.findAsset assets k with
               | Some a => explicitOn a d
               | None => None
               end).
  { intros k. rewrite detailed_valueOn. now apply firstPass_valueOn_any. }
  unfold Merger.valueOn in Hval.
  assert (Hnd' := @detailed_inner_NoDup assets d).
  destruct (JsMap.get date_eqb (Merger.detailedDailyValues assets) d)
    as [o |] eqn:Eo.
  - specialize (Hnd' o eq_refl). rewrite in_flat_map. split.
    + intros [[k v] [Hin Hr]]. simpl in Hr.
      apply (@In_get_Some _ _ _ String.eqb_eq _ _ _ Hnd') in Hin.
      rewrite Hval in Hin. unfold Store.findAsset in Hin.
      destruct (find _ assets) as [a |] eqn:Ef; [| discriminate].
      destruct Hr as [<- | []].
      apply find_some in Ef. destruct Ef as [Ha Hk].
      apply String.eqb_eq in Hk. subst k.
      exists a, v. auto.
    + intros [a [v [Ha [Hv ->]]]].
      exists (Asset.id a, v). simpl.
      assert (Hf := @findAsset_NoDup _ _ Hnd Ha).
      split.
      * apply (@get_Some_In _ _ _ String.eqb_eq).
        rewrite Hval, Hf. exact Hv.
      * unfold Store.findAsset in Hf. rewrite Hf. now left.
  - split; [intros [] |].
    intros [a [v [Ha [Hv _]]]].
    specialize (Hval (Asset.id a)).
    rewrite (@findAsset_NoDup _ _ Hnd Ha), Hv in Hval. discriminate.
Qed.

Lemma byValueDesc_inOrder (a b : AssetViews.Row) :
  AssetViews.byValueDesc a b <> Gt
  <-> (AssetViews.rowValue b <= AssetViews.rowValue a)%Q.
Proof.
  unfold AssetViews.byValueDesc. rewrite <- Qgt_alt. split.
  - intros H. apply Qnot_lt_le in H.
    apply Qplus_le_l with (z := (- AssetViews.rowValue a)%Q).
    rewrite Qplus_opp_r. exact H.
  - intros H Hgt. apply (Qlt_not_le _ _ Hgt).
    apply Qplus_le_l with (z := AssetViews.rowValue a).
    assert (E : (AssetViews.rowValue b - AssetViews.rowValue a
                 + AssetViews.rowValue a == AssetViews.rowValue b)%Q)
      by ring.
    rewrite E, Qplus_0_l. exact H.
Qed.

Lemma breakdownTable_sorted (assets : list Asset.t) (d : isodate) :
  StronglySorted
    (fun a b => (AssetViews.rowValue b <= AssetViews.rowValue a)%Q)
    (AssetViews.breakdownTable assets d).
Proof.
  unfold AssetViews.breakdownTable.
  assert (H : StronglySorted (fun a b => AssetViews.byValueDesc a b <> Gt)
                (jsSort AssetViews.byValueDesc
                   (AssetViews.breakdown assets d))).
  { apply (@jsSort_inOrder _ AssetViews.byValueDesc (fun _ => True)).
    - intros x y _ _ H. apply byValueDesc_inOrder.
      assert (H' : ~ AssetViews.byValueDesc x y <> Gt) by tauto.
      rewrite byValueDesc_inOrder in H'.
      apply Qnot_le_lt in H'. now apply Qlt_le_weak.
    - intros x y z _ _ _. rewrite !byValueDesc_inOrder.
      intros H1 H2. eapply Qle_trans; eauto.
    - apply Forall_forall. auto. }
  induction H as [| a l Hs IH Hall]; constructor; auto.
  eapply Forall_impl; [| exact Hall].
  intros b. apply byValueDesc_inOrder.
Qed.

End LookupFacts.

(** X11.  For assets with distinct identifiers, the lookup handed to the
    chart has an object for exactly the dates of the series, and the
    breakdown shown for a date has one row for every asset with an entry
    of that very date, holding the asset's identifier, name and type and
    the value of its last entry of that date, and no other row; the table
    lists the rows by value, largest first. *)
Theorem hover_breakdown_rows (assets : list Asset.t) (d : isodate)
    (r : AssetViews.Row) :
  NoDup (map Asset.id assets) ->
  (In d (JsMap.keys (snd (Merger.calculateNetWorthHistory assets)))
   <-> In d (map Merger.date (fst (Merger.calculateNetWorthHistory assets))))
  /\ (In r (AssetViews.breakdown assets d)
      <-> exists a v,
            In a assets /\ explicitOn a d = Some v
            /\ r = AssetViews.mkRow (Asset.id a) (Asset.name a) v
                     (Asset.type a))
  /\ Permutation (AssetViews.breakdownTable assets d)
       (AssetViews.breakdown assets d)
  /\ StronglySorted
       (fun a b => (AssetViews.rowValue b <= AssetViews.rowValue a)%Q)
       (AssetViews.breakdownTable assets d).
Proof.
  intros Hnd. split; [| split; [| split]].
  - simpl. rewrite detailed_keys, chartData_dates, uniqueDates_In.
    reflexivity.
  - now apply breakdown_rows.
  - apply jsSort_perm.
  - apply breakdownTable_sorted.
Qed.

Lemma hover_breakdown_rows_witness :
  NoDup (map Asset.id [assetA; assetB])
  /\ (In (AssetViews.mkRow "B" "Asset B" 50 "Investment")
        (AssetViews.breakdown [assetA; assetB] (mkDate 2024 1 2))
      <-> exists a v,
            In a [assetA; assetB]
            /\ explicitOn a (mkDate 2024 1 2) = Some v
            /\ AssetViews.mkRow "B" "Asset B" 50 "Investment"
               = AssetViews.mkRow (Asset.id a) (Asset.name a) v
                   (Asset.type a)).
Proof.
  assert (H : NoDup (map Asset.id [assetA; assetB])).
  { simpl. constructor.
    - intros [H | []]. discriminate H.
    - constructor; [intros [] | constructor]. }
  split; [exact H |].
  exact (proj1 (proj2 (hover_breakdown_rows [assetA; assetB]
                         (mkDate 2024 1 2)
                         (AssetViews.mkRow "B" "Asset B" 50 "Investment")
                         H))).
Defined.

(** ** The collection of assets under its actions *)

Section StoreMoreFacts.

Lemma updateDoc_ids (B : Type) (db : Store.assets) (i : string)
    (f : Asset.t -> Asset.t) (g : Asset.t -> B) :
  (forall a, g (f a) = g a) ->
  map g (Store.updateDoc db i f) = map g db.
Proof.
  intros Hf. induction db as [| a db IH]; simpl; [reflexivity |].
  destruct (String.eqb (Asset.id a) i); simpl.
  - now rewrite Hf.
  - now rewrite IH.
Qed.

End StoreMoreFacts.

(** X13.  A value update or a contribution for an identifier that is not
    in the collection fails and leaves the collection as it was; one that
    succeeds never changes which assets the collection holds, their
    order, names, types or initial values. *)
Theorem update_keeps_the_collection
    (db : Store.assets) (i : string) (v : Q) (d : isodate) :
  (Store.findAsset db i = None ->
   Store.updateAssetValue db i v d
   = Store.Failed "Failed to update asset value."
   /\ Store.addContribution db i v d
      = Store.Failed "Failed to add contribution."
   /\ Store.perform db (Store.UpdateAssetValue i v d) = db
   /\ Store.perform db (Store.AddContribution i v d) = db)
  /\ (forall db',
         Store.updateAssetValue db i v d = Store.Ok db'
         \/ Store.addContribution db i v d = Store.Ok db' ->
         map Asset.id db' = map Asset.id db
         /\ map Asset.name db' = map Asset.name db
         /\ map Asset.type db' = map Asset.type db
         /\ map Asset.initialValue db' = map Asset.initialValue db).
Proof.
  split.
  - intros H. unfold Store.perform, Store.updateAssetValue,
      Store.addContribution. rewrite H. auto.
  - intros db' H.
    unfold Store.updateAssetValue, Store.addContribution in H.
    destruct (Store.findAsset db i) as [a |];
      [| destruct H as [H | H]; discriminate].
    destruct H as [H | H]; injection H as <-;
      repeat split; apply updateDoc_ids; reflexivity.
Qed.

Lemma update_keeps_the_collection_witness :
  Store.findAsset (Store.run backdated) "zz" = None
  /\ Store.perform (Store.run backdated)
       (Store.UpdateAssetValue "zz" 10 (mkDate 2024 7 1))
     = Store.run backdated.
Proof.
  assert (H : Store.findAsset (Store.run backdated) "zz" = None)
    by reflexivity.
  split; [exact H |].
  exact (proj1 (proj2 (proj2
           (proj1 (update_keeps_the_collection (Store.run backdated) "zz"
                     10 (mkDate 2024 7 1)) H)))).
Defined.

(** ** The small chart of an asset card *)

Section MiniChartFacts.

Let setEntry (m : JsMap.t isodate ValueEntry.t) (e : ValueEntry.t) :=
  JsMap.set date_eqb m (ValueEntry.date e) e.

Lemma lastEntry_cons (x : ValueEntry.t) (l : list ValueEntry.t) :
  lastEntry (x :: l)
  = match lastEntry l with Some e => Some e | None => Some x end.
Proof.
  unfold lastEntry. simpl. destruct (rev l); reflexivity.
Qed.

Lemma dataMap_get (l : list ValueEntry.t)
    (m : JsMap.t isodate ValueEntry.t) (d : isodate) :
  JsMap.get date_eqb (fold_left setEntry l m) d
  = match lastEntry (filter (onDate d) l) with
    | Some e => Some e
    | None => JsMap.get date_eqb m d
    end.
Proof.
  revert m. induction l as [| x l IH]; intros m; simpl; [reflexivity |].
  rewrite IH. unfold onDate at 2, setEntry.
  destruct (date_eqb (ValueEntry.date x) d) eqn:E.
  - apply date_eqb_eq in E. subst d. rewrite lastEntry_cons.
    destruct (lastEntry _); [reflexivity |].
    apply (@get_set_same _ _ _ date_eqb_eq).
  - apply date_eqb_neq in E.
    destruct (lastEntry _); [reflexivity |].
    now apply (@get_set_other _ _ _ date_eqb_eq).
Qed.

Lemma dataMap_keys (l : list ValueEntry.t)
    (m : JsMap.t isodate ValueEntry.t) (d : isodate) :
  In d (JsMap.keys (fold_left setEntry l m))
  <-> In d (JsMap.keys m) \/ In d (map ValueEntry.date l).
Proof.
  revert m. induction l as [| x l IH]; intros m; simpl; [tauto |].
  rewrite IH. unfold setEntry.
  rewrite (@keys_set_In _ _ _ date_eqb_eq).
  intuition congruence.
Qed.

Lemma dataMap_NoDup (l : list ValueEntry.t)
    (m : JsMap.t isodate ValueEntry.t) :
  NoDup (JsMap.keys m) -> NoDup (JsMap.keys (fold_left setEntry l m)).
Proof.
  revert m. induction l as [| x l IH]; intros m H; simpl; auto.
  apply IH. now apply (@keys_set_NoDup _ _ _ date_eqb_eq).
Qed.

(** Every value of the map is the last entry of its date, and stands
    under this date. *)
Lemma dataMap_entries (l : list ValueEntry.t) (k : isodate)
    (v : ValueEntry.t) :
  In (k, v) (AssetViews.uniqueDatesDataMap l) ->
  lastEntry (filter (onDate k) l) = Some v /\ ValueEntry.date v = k.
Proof.
  intros Hin.
  assert (Hnd : NoDup (JsMap.keys (AssetViews.uniqueDatesDataMap l)))
    by (apply (dataMap_NoDup l []); constructor).
  assert (Hg := @In_get_Some _ _ _ date_eqb_eq _ _ _ Hnd Hin).
  unfold AssetViews.uniqueDatesDataMap in Hg.
  change (fun m d => JsMap.set date_eqb m (ValueEntry.date d) d)
    with setEntry in Hg.
  rewrite dataMap_get in Hg. simpl in Hg.
  destruct (lastEntry (filter (onDate k) l)) as [e |] eqn:E;
    [| discriminate].
  injection Hg as ->. split; [reflexivity |].
  apply lastEntry_In, filter_In in E. destruct E as [_ E].
  now apply date_eqb_eq in E.
Qed.

Lemma dataMap_dates (l : list ValueEntry.t) :
  map ValueEntry.date (JsMap.values (AssetViews.uniqueDatesDataMap l))
  = JsMap.keys (AssetViews.uniqueDatesDataMap l).
Proof.
  assert (H := dataMap_entries l).
  unfold JsMap.values, JsMap.keys.
  induction (AssetViews.uniqueDatesDataMap l) as [| [k v] m IH]; simpl;
    [reflexivity |].
  f_equal.
  - apply (H k v). now left.
  - apply IH. intros k' v' Hin. apply H. now right.
Qed.

Lemma byDate_strict (l : list ValueEntry.t) :
  StronglySorted (fun x y => Merger.byDate x y <> Gt) l ->
  NoDup (map ValueEntry.date l) ->
  StronglySorted date_lt (map ValueEntry.date l).
Proof.
  induction 1 as [| x l Hs IH Hall]; simpl; intros Hnd.
  - constructor.
  - inversion Hnd as [| ? ? Hx Hnd']. subst.
    constructor; [now apply IH |].
    rewrite Forall_forall in *. intros d Hd.
    apply in_map_iff in Hd. destruct Hd as [y [<- Hy]].
    assert (Hxy := Hall y Hy). unfold Merger.byDate in Hxy.
    unfold date_lt.
    destruct (date_compare (ValueEntry.date x) (ValueEntry.date y)) eqn:E;
      [| reflexivity | congruence].
    apply date_compare_eq in E. exfalso. apply Hx. rewrite E.
    now apply in_map.
Qed.

Lemma byDate_weakly_sorted (l : list ValueEntry.t) :
  StronglySorted (fun x y => Merger.byDate x y <> Gt)
    (jsSort Merger.byDate l).
Proof.
  apply (@jsSort_inOrder _ Merger.byDate (fun _ => True)).
  - intros x y _ _ H. unfold Merger.byDate in *.
    rewrite date_compare_antisym, H. discriminate.
  - intros x y z _ _ _. unfold Merger.byDate.
    destruct (date_compare (ValueEntry.date x) (ValueEntry.date y)) eqn:E1;
      try congruence;
      destruct (date_compare (ValueEntry.date y) (ValueEntry.date z)) eqn:E2;
      try congruence; intros _ _.
    + apply date_compare_eq in E1. rewrite E1, E2. discriminate.
    + apply date_compare_eq in E1. rewrite E1, E2. discriminate.
    + apply date_compare_eq in E2. rewrite <- E2, E1. discriminate.
    + rewrite (date_compare_lt_trans _ _ _ E1 E2). discriminate.
  - apply Forall_forall. auto.
Qed.

Lemma short_all_equal (l : list isodate) :
  (List.length l < 2)%nat -> forall a b, In a l -> In b l -> a = b.
Proof.
  destruct l as [| x [| y l]]; simpl; intros H a b.
  - intros [].
  - intros [<- | []] [<- | []]. reflexivity.
  - lia.
Qed.

(** The points the small chart draws. *)
Lemma uniqueSortedData_spec (data : list ValueEntry.t) :
  match AssetViews.uniqueSortedData (Some data) with
  | Some pts =>
      StronglySorted date_lt (map ValueEntry.date pts)
      /\ (forall d, In d (map ValueEntry.date pts)
                    <-> In d (map ValueEntry.date data))
      /\ (forall p, In p pts ->
                    lastEntry (filter (onDate (ValueEntry.date p)) data)
                    = Some p)
      /\ (2 <= List.length pts)%nat
  | None =>
      forall e1 e2, In e1 data -> In e2 data ->
                    ValueEntry.date e1 = ValueEntry.date e2
  end.
Proof.
  unfold AssetViews.uniqueSortedData.
  set (sorted := jsSort Merger.byDate data).
  set (vs := JsMap.values (AssetViews.uniqueDatesDataMap sorted)).
  assert (Hperm : Permutation (jsSort Merger.byDate vs) vs)
    by apply jsSort_perm.
  assert (Hdates : map ValueEntry.date vs
                   = JsMap.keys (AssetViews.uniqueDatesDataMap sorted))
    by apply dataMap_dates.
  assert (Hnd : NoDup (map ValueEntry.date vs)).
  { rewrite Hdates. apply (dataMap_NoDup sorted []). constructor. }
  assert (Hkeys : forall d, In d (map ValueEntry.date vs)
                            <-> In d (map ValueEntry.date data)).
  { intros d. rewrite Hdates. unfold AssetViews.uniqueDatesDataMap.
    change (fun m d => JsMap.set date_eqb m (ValueEntry.date d) d)
      with setEntry.
    rewrite dataMap_keys. simpl. unfold sorted.
    rewrite !in_map_iff. split.
    - intros [[] | [e [He Hin]]]. exists e. split; auto.
      now apply jsSort_In in Hin.
    - intros [e [He Hin]]. right. exists e. split; auto.
      now apply jsSort_In. }
  destruct (List.length data <? 2)%nat eqn:Elen.
  - apply Nat.ltb_lt in Elen. intros e1 e2 H1 H2.
    apply (short_all_equal (map ValueEntry.date data));
      [now rewrite length_map | |]; now apply in_map.
  - destruct (List.length (jsSort Merger.byDate vs) <? 2)%nat eqn:Elen'.
    + apply Nat.ltb_lt in Elen'. intros e1 e2 H1 H2.
      apply (short_all_equal (map ValueEntry.date vs)).
      * rewrite length_map.
        now rewrite <- (Permutation_length Hperm).
      * apply Hkeys. now apply in_map.
      * apply Hkeys. now apply in_map.
    + apply Nat.ltb_ge in Elen'.
      split; [| split; [| split]]; auto.
      * apply byDate_strict; [apply byDate_weakly_sorted |].
        eapply Permutation_NoDup; [| exact Hnd].
        apply Permutation_map. now symmetry.
      * intros d. rewrite <- Hkeys. split; apply Permutation_in;
          apply Permutation_map; [exact Hperm | now symmetry].
      * intros p Hp. apply jsSort_In in Hp. unfold vs in Hp.
        unfold JsMap.values in Hp. apply in_map_iff in Hp.
        destruct Hp as [[k v] [<- Hin]]. simpl.
        apply dataMap_entries in Hin. destruct Hin as [Hl Hk].
        rewrite Hk. unfold sorted in Hl.
        now rewrite sorted_history_onDate in Hl.
Qed.

End MiniChartFacts.

(** X17.  The small chart of an asset card draws one point per date of
    the history, in strictly ascending order of date, the point of a
    date being the entry of this date that was inserted last; it draws
    nothing when the history is missing, and otherwise exactly when all
    entries bear one and the same date (an empty history and a single
    entry included). *)
Theorem mini_chart_one_point_per_date (data : list ValueEntry.t) :
  AssetViews.uniqueSortedData None = None
  /\ match AssetViews.uniqueSortedData (Some data) with
     | Some pts =>
         StronglySorted date_lt (map ValueEntry.date pts)
         /\ (forall d, In d (map ValueEntry.date pts)
                       <-> In d (map ValueEntry.date data))
         /\ (forall p, In p pts ->
                       lastEntry (filter (onDate (ValueEntry.date p)) data)
                       = Some p)
         /\ (2 <= List.length pts)%nat
     | None =>
         forall e1 e2, In e1 data -> In e2 data ->
                       ValueEntry.date e1 = ValueEntry.date e2
     end.
Proof.
  split; [reflexivity | apply uniqueSortedData_spec].
Qed.


(** ** The history table of an asset *)

Section HistoryTableFacts.

Let byDateOrder (x y : ValueEntry.t) : Prop :=
  date_leb (ValueEntry.date x) (ValueEntry.date y) = true.

Lemma byDate_leb (x y : ValueEntry.t) :
  Merger.byDate x y <> Gt <-> byDateOrder x y.
Proof.
  unfold byDateOrder, Merger.byDate, date_leb.
  destruct (date_compare _ _); split; congruence.
Qed.

Lemma sortedHistory_ordered (h : list ValueEntry.t) :
  StronglySorted byDateOrder (jsSort Merger.byDate h).
Proof.
  assert (H := byDate_weakly_sorted h).
  induction H as [| x l Hs IH Hall]; constructor; auto.
  rewrite Forall_forall in *. intros y Hy. apply byDate_leb. auto.
Qed.

(** Sorting leaves a list that is in order as it is. *)
Lemma jsSort_ordered_id (h : list ValueEntry.t) :
  StronglySorted byDateOrder h -> jsSort Merger.byDate h = h.
Proof.
  induction 1 as [| x l Hs IH Hall]; simpl; [reflexivity |].
  rewrite IH. destruct l as [| y l']; [reflexivity |].
  simpl. inversion Hall as [| ? ? Hxy _]. subst.
  apply byDate_leb in Hxy. destruct (Merger.byDate x y); congruence.
Qed.

Lemma ordered_snoc (h : list ValueEntry.t) (e : ValueEntry.t) :
  StronglySorted byDateOrder h ->
  Forall (fun x => date_leb (ValueEntry.date x) (ValueEntry.date e) = true)
    h ->
  StronglySorted byDateOrder (h ++ [e]).
Proof.
  induction 1 as [| x l Hs IH Hall]; simpl; intros Hd.
  - repeat constructor.
  - inversion Hd as [| ? ? Hx Hd']. subst.
    constructor; [now apply IH |].
    apply Forall_app. split; [exact Hall |].
    constructor; [exact Hx | constructor].
Qed.

(** The rows of an asset whose history is in order of date and has no
    entry after the date of the new one. *)
Lemma rows_after_append (a' : Asset.t) (h : list ValueEntry.t)
    (e : ValueEntry.t) :
  Asset.valueHistory a' = Some (h ++ [e]) ->
  StronglySorted byDateOrder h ->
  Forall (fun x => date_leb (ValueEntry.date x) (ValueEntry.date e) = true)
    h ->
  AssetViews.sortedHistory a' = h ++ [e].
Proof.
  intros Hh Hs Hd. unfold AssetViews.sortedHistory, Merger.historyOf.
  rewrite Hh. apply jsSort_ordered_id. now apply ordered_snoc.
Qed.

End HistoryTableFacts.

(** X18.  The history table of an asset lists every entry of the
    history once, in ascending order of date, entries of one date in the
    order of their insertion. *)
Theorem history_table_rows (asset : Asset.t) :
  let rows := AssetViews.sortedHistory asset in
  Permutation rows (Merger.historyOf asset)
  /\ StronglySorted
       (fun x y => date_leb (ValueEntry.date x) (ValueEntry.date y) = true)
       rows
  /\ (forall d, filter (onDate d) rows
                = filter (onDate d) (Merger.historyOf asset)).
Proof.
  split; [apply jsSort_perm |].
  split; [apply sortedHistory_ordered |].
  intros d; apply sorted_history_onDate.
Qed.

(** X19.  When the history of an asset is in order of date and a
    contribution or a value update is dated no earlier than any of its
    entries, the history table shows the new entry in its last row,
    after the rows it had: a contribution with the label Contribution, a
    value update with the label Value Update. *)
Theorem new_entry_is_last_row
    (db db' : Store.assets) (i : string) (v : Q) (d : isodate)
    (a a' : Asset.t) :
  Store.findAsset db i = Some a ->
  Store.findAsset db' i = Some a' ->
  currentIsLast a ->
  StronglySorted
    (fun x y => date_leb (ValueEntry.date x) (ValueEntry.date y) = true)
    (Merger.historyOf a) ->
  Forall (fun e => date_leb (ValueEntry.date e) d = true)
    (Merger.historyOf a) ->
  let n := List.length (Merger.historyOf a) in
  let rows := AssetViews.sortedHistory a' in
  (Store.addContribution db i v d = Store.Ok db' ->
   exists e,
     rows = Merger.historyOf a ++ [e] /\ ValueEntry.date e = d
     /\ AssetViews.rowLabel n e = "Contribution"%string)
  /\ (Store.updateAssetValue db i v d = Store.Ok db' ->
      exists e,
        rows = Merger.historyOf a ++ [e] /\ ValueEntry.date e = d
        /\ AssetViews.rowLabel n e = "Value Update"%string).
Proof.
  intros E E' [p [Hp Hc]] Hs Hd n rows. subst n rows. split; intros H.
  - destruct (addContribution_effect _ _ _ _ H)
      as [a0 [a1 [E0 [E1 [Hh _]]]]].
    rewrite E in E0. injection E0 as <-.
    rewrite E' in E1. injection E1 as <-.
    assert (Hrows := @rows_after_append a' _ _ Hh Hs Hd).
    eexists. split; [| split].
    + exact Hrows.
    + reflexivity.
    + reflexivity.
  - destruct (updateAssetValue_effect _ _ _ _ H)
      as [a0 [a1 [E0 [E1 [Hh _]]]]].
    rewrite E in E0. injection E0 as <-.
    rewrite E' in E1. injection E1 as <-.
    assert (Hrows := @rows_after_append a' _ _ Hh Hs Hd).
    eexists. split; [| split].
    + exact Hrows.
    + reflexivity.
    + apply lastEntry_Some in Hp. destruct Hp as [h' ->].
      rewrite length_app. simpl List.length.
      replace (List.length h' + 1)%nat with (S (List.length h')) by lia.
      reflexivity.
Qed.

Lemma new_entry_is_last_row_witness :
  exists e,
    AssetViews.sortedHistory
      {| Asset.id := "A"; Asset.name := "Asset A"; Asset.type := "Cash";
         Asset.initialValue := 100; Asset.currentValue := numOrZero 100 + 25;
         Asset.contributions :=
           Some [Contribution.mk 25 (mkDate 2024 2 1)];
         Asset.valueHistory :=
           Some [ ValueEntry.mk 100 (mkDate 2024 1 1) None;
                  ValueEntry.mk (numOrZero 100 + 25) (mkDate 2024 2 1)
                    (Some "contribution"%string) ] |}
    = Merger.historyOf assetA ++ [e]
    /\ ValueEntry.date e = mkDate 2024 2 1
    /\ AssetViews.rowLabel 1 e = "Contribution"%string.
Proof.
  refine (proj1 (@new_entry_is_last_row [assetA]
                   (Store.perform [assetA]
                      (Store.AddContribution "A" 25 (mkDate 2024 2 1)))
                   "A" 25 (mkDate 2024 2 1) assetA _ _ _ _ _ _) _).
  - reflexivity.
  - reflexivity.
  - eexists. split; reflexivity.
  - repeat constructor.
  - repeat constructor.
  - reflexivity.
Defined.


(** ** The projection in closed form, and its growth *)

Section ProjectionGrowthFacts.
Variables r c : Q.

Let step := Projection.monthStep r c.
Let g : Q := 1 + r / 100 / 12.

Lemma step_unfold (x : Q) : (step x == (x + c) * g)%Q.
Proof. reflexivity. Qed.

Lemma step_grows (x : Q) :
  (0 <= c)%Q -> (0 <= r)%Q -> (0 <= x)%Q -> (x <= step x)%Q.
Proof.
  intros Hc Hr Hx. rewrite step_unfold. unfold g.
  assert (E : (r / 100 / 12 == r * (1 # 1200))%Q) by field.
  rewrite E.
  assert (H1 : (0 <= (x + c) * (r * (1 # 1200)))%Q).
  { apply Qmult_le_0_compat; [lra |].
    apply Qmult_le_0_compat; [lra | discriminate]. }
  lra.
Qed.

Lemma iter_nonneg (n : nat) (v : Q) :
  (0 <= c)%Q -> (0 <= r)%Q -> (0 <= v)%Q -> (0 <= Nat.iter n step v)%Q.
Proof.
  intros Hc Hr Hv. induction n as [| n IH]; simpl; [exact Hv |].
  apply Qle_trans with (Nat.iter n step v); [exact IH |].
  now apply step_grows.
Qed.

Lemma iter_grows (n m : nat) (v : Q) :
  (0 <= c)%Q -> (0 <= r)%Q -> (0 <= v)%Q -> (n <= m)%nat ->
  (Nat.iter n step v <= Nat.iter m step v)%Q.
Proof.
  intros Hc Hr Hv Hnm. induction Hnm as [| m Hnm IH].
  - apply Qle_refl.
  - simpl. apply Qle_trans with (Nat.iter m step v); [exact IH |].
    apply step_grows; auto. now apply iter_nonneg.
Qed.

Lemma round2_grows (x y : Q) :
  (0 <= x)%Q -> (x <= y)%Q -> (round2 x <= round2 y)%Q.
Proof.
  intros Hx Hxy. unfold round2. rewrite !Qred_correct. unfold toFixed2.
  assert (Hy : (0 <= y)%Q) by (apply Qle_trans with x; auto).
  apply Qle_bool_iff in Hx. apply Qle_bool_iff in Hy. rewrite Hx, Hy.
  assert (H : (Qfloor (x * 100 + (1 # 2)) <= Qfloor (y * 100 + (1 # 2)))%Z).
  { apply Qfloor_resp_le. lra. }
  unfold Qle. cbn [Qnum Qden]. lia.
Qed.

(** The point at position [i] of the series. *)
Lemma projectionData_at (currentYear : Z) (net : Q) (h : Z) (i : nat)
    (p : Projection.Point) :
  nth_error (Projection.projectionData currentYear r c false (Some net) h) i
  = Some p ->
  p = {| Projection.year := (currentYear + Z.of_nat i)%Z;
         Projection.projectedNetWorth :=
           round2 (Nat.iter (12 * i) step net) |}.
Proof.
  intros H.
  assert (Hlen : (i < S (Z.to_nat h))%nat).
  { assert (Hs : nth_error
                   (Projection.projectionData currentYear r c false
                      (Some net) h) i <> None) by congruence.
    apply nth_error_Some in Hs.
    rewrite projectionData_unfold in Hs. cbn [List.length] in Hs.
    now rewrite length_map, length_seq in Hs. }
  destruct i as [| i].
  - rewrite projectionData_unfold in H. simpl in H.
    injection H as <-. f_equal. lia.
  - assert (Hk := @projectionData_nth currentYear r c net h
                    (Z.of_nat (S i))).
    rewrite Nat2Z.id in Hk. rewrite Hk in H by lia.
    injection H as <-. reflexivity.
Qed.

End ProjectionGrowthFacts.

(** X21.  With a start value, a monthly contribution and a growth rate
    that are not negative, the projection never decreases from one year
    to a later one. *)
Theorem projection_never_decreases
    (currentYear : Z) (r c net : Q) (h : Z) (i j : nat)
    (p q : Projection.Point) :
  (0 <= net)%Q -> (0 <= c)%Q -> (0 <= r)%Q -> (i <= j)%nat ->
  nth_error (Projection.projectionData currentYear r c false (Some net) h) i
  = Some p ->
  nth_error (Projection.projectionData currentYear r c false (Some net) h) j
  = Some q ->
  (Projection.projectedNetWorth p <= Projection.projectedNetWorth q)%Q.
Proof.
  intros Hnet Hc Hr Hij Hp Hq.
  apply projectionData_at in Hp. apply projectionData_at in Hq.
  subst p q. simpl.
  apply round2_grows.
  - now apply iter_nonneg.
  - apply iter_grows; auto. lia.
Qed.

Lemma projection_never_decreases_witness :
  (Projection.projectedNetWorth
     {| Projection.year := 2024; Projection.projectedNetWorth := 1000 |}
   <= Projection.projectedNetWorth
        {| Projection.year := 2025; Projection.projectedNetWorth := 2200 |})%Q.
Proof.
  apply (@projection_never_decreases 2024 0 100 1000 1 0 1);
    try reflexivity; try lia; discriminate.
Defined.


(** ** Income and expense documents under the user's actions *)

Section LedgerFacts.

Lemma ledger_updateDoc_In (docs : list Ledger.Doc) (id : string)
    (f : Ledger.Doc -> Ledger.Doc) (d' : Ledger.Doc) :
  In d' (Ledger.updateDoc docs id f) ->
  In d' docs
  \/ exists d, Ledger.findDoc docs id = Some d /\ In d docs /\ d' = f d.
Proof.
  unfold Ledger.findDoc.
  induction docs as [| d docs IH]; simpl; [tauto |].
  destruct (String.eqb (Ledger.docId d) id) eqn:E; simpl.
  - intros [<- | H]; eauto 6.
  - intros [<- | H]; auto.
    destruct (IH H) as [H' | [d0 [H1 [H2 H3]]]]; eauto 6.
Qed.

Lemma wellKept_new (newFields : Tx.t) (now : string) :
  wellKept
    {| Ledger.fields := newFields;
       Ledger.history :=
         Some [ {| Ledger.snapFields := newFields; Ledger.timestamp := now;
                   Ledger.changeType := "Initial Entry" |} ] |}.
Proof.
  eexists _, []. simpl. repeat split. constructor.
Qed.

Lemma wellKept_update (old : Ledger.Doc) (updated : Tx.t) (now : string) :
  wellKept old ->
  wellKept
    {| Ledger.fields := updated;
       Ledger.history :=
         Some match Ledger.history old with
              | Some h =>
                  h ++ [ {| Ledger.snapFields := updated;
                            Ledger.timestamp := now;
                            Ledger.changeType := "Update" |} ]
              | None =>
                  [ {| Ledger.snapFields := updated;
                       Ledger.timestamp := now;
                       Ledger.changeType := "Initial Entry" |} ]
              end |}.
Proof.
  intros [first [later [Hh [Hf [Hl _]]]]]. rewrite Hh.
  eexists first, (later ++ [_]). simpl.
  split; [reflexivity |]. split; [exact Hf |].
  split.
  - apply Forall_app. split; [exact Hl |]. repeat constructor.
  - now rewrite last_last.
Qed.

(** What an update makes of a collection whose documents all satisfy
    [P]. *)
Lemma updateWith_inv (P : Ledger.Doc -> Prop) (docs docs' : list Ledger.Doc)
    (id : string) (updated : Tx.t) (stored : Ledger.Doc -> Tx.t)
    (now : string) :
  Forall P docs ->
  (forall old,
      P old ->
      P {| Ledger.fields := stored old;
           Ledger.history :=
             Some match Ledger.history old with
                  | Some h =>
                      h ++ [ {| Ledger.snapFields := updated;
                                Ledger.timestamp := now;
                                Ledger.changeType := "Update" |} ]
                  | None =>
                      [ {| Ledger.snapFields := updated;
                           Ledger.timestamp := now;
                           Ledger.changeType := "Initial Entry" |} ]
                  end |}) ->
  Ledger.updateWith docs id updated stored now = Some docs' ->
  Forall P docs'.
Proof.
  intros Hdocs Hstep H. unfold Ledger.updateWith in H.
  destruct (Ledger.findDoc docs id) as [toUpdate |] eqn:E; [| discriminate].
  injection H as <-. rewrite Forall_forall in *.
  intros d' Hd'. apply ledger_updateDoc_In in Hd'.
  destruct Hd' as [Hd' | [d [E' [Hin ->]]]]; auto.
  rewrite E in E'. injection E' as <-. auto.
Qed.

Let okIncome (d : Ledger.Doc) : Prop :=
  wellKept d
  /\ Tx.category (Ledger.fields d) = None
  /\ Tx.type (Ledger.fields d) = None
  /\ numericAmount (Ledger.fields d)
  /\ endOnlyWhenRecurring (Ledger.fields d).

Let okExpense (d : Ledger.Doc) : Prop :=
  wellKept d
  /\ typeDerived (Ledger.fields d)
  /\ numericAmount (Ledger.fields d)
  /\ endOnlyWhenRecurring (Ledger.fields d).

Lemma incomeFields_end id amount description category type date
    isRecurring frequency endDate :
  endOnlyWhenRecurring
    (Ledger.incomeFields id amount description category type date
       isRecurring frequency endDate).
Proof. unfold endOnlyWhenRecurring. simpl. now intros ->. Qed.

Lemma expenseFields_end id amount description category date isRecurring
    frequency endDate :
  endOnlyWhenRecurring
    (Writer.expenseFields id amount description category date isRecurring
       frequency endDate).
Proof. unfold endOnlyWhenRecurring. simpl. now intros ->. Qed.

Lemma perform_ok (b : Ledger.Books) (act : Ledger.action) :
  Forall okIncome (Ledger.income b) /\ Forall okExpense (Ledger.expenses b) ->
  Forall okIncome (Ledger.income (Ledger.perform b act))
  /\ Forall okExpense (Ledger.expenses (Ledger.perform b act)).
Proof.
  intros [Hi He].
  destruct act as [i amt desc d r f e now | i amt desc d r f e now | i
                  | i amt desc c d r f e now | i amt desc c d r f e now | i];
    simpl; split; auto.
  - unfold Ledger.addIncome, Ledger.addWith.
    apply Forall_app. split; [exact Hi |]. constructor; [| constructor].
    split; [apply wellKept_new |].
    split; [reflexivity |]. split; [reflexivity |].
    split; [exact I | apply incomeFields_end].
  - unfold Ledger.updateIncome.
    destruct (Ledger.updateWith _ _ _ _ _) as [docs' |] eqn:H; simpl;
      [| exact Hi].
    refine (@updateWith_inv okIncome _ _ _ _ _ _ Hi _ H).
    intros old [Hw [Hc [Ht _]]]. simpl. rewrite Hc, Ht.
    split; [now apply wellKept_update |].
    split; [reflexivity |]. split; [reflexivity |].
    split; [exact I | apply incomeFields_end].
  - unfold Ledger.deleteIncome, Ledger.deleteDoc.
    rewrite Forall_forall in *. intros x Hx. apply filter_In in Hx.
    apply Hi, Hx.
  - unfold Ledger.addExpense, Ledger.addWith.
    apply Forall_app. split; [exact He |]. constructor; [| constructor].
    split; [apply wellKept_new |].
    split; [reflexivity |].
    split; [exact I | apply expenseFields_end].
  - unfold Ledger.updateExpense.
    destruct (Ledger.updateWith _ _ _ _ _) as [docs' |] eqn:H; simpl;
      [| exact He].
    refine (@updateWith_inv okExpense _ _ _ _ _ _ He _ H).
    intros old [Hw _]. simpl.
    split; [now apply wellKept_update |].
    split; [reflexivity |].
    split; [exact I | apply expenseFields_end].
  - unfold Ledger.deleteExpense, Ledger.deleteDoc.
    rewrite Forall_forall in *. intros x Hx. apply filter_In in Hx.
    apply He, Hx.
Qed.

Lemma run_ok (actions : list Ledger.action) :
  Forall okIncome (Ledger.income (Ledger.run actions))
  /\ Forall okExpense (Ledger.expenses (Ledger.run actions)).
Proof.
  unfold Ledger.run.
  assert (H : Forall okIncome (Ledger.income (Ledger.mkBooks [] []))
              /\ Forall okExpense (Ledger.expenses (Ledger.mkBooks [] [])))
    by (split; constructor).
  revert H. generalize (Ledger.mkBooks [] []) as b.
  induction actions as [| act actions IH]; intros b Hb; simpl; auto.
  apply IH. now apply perform_ok.
Qed.

Lemma run_wellKept (actions : list Ledger.action) :
  Forall wellKept (Ledger.income (Ledger.run actions))
  /\ Forall wellKept (Ledger.expenses (Ledger.run actions)).
Proof.
  destruct (run_ok actions) as [Hi He].
  split; eapply Forall_impl; try eassumption; intros d H; apply H.
Qed.




End LedgerFacts.

(** X22.  In collections built from empty ones by adding, editing and
    deleting income and expenses, the change history of every document
    begins with one snapshot marked Initial Entry, every later snapshot
    is marked Update, and the last snapshot holds the fields the
    document has now. *)
Theorem history_tracks_document (actions : list Ledger.action) :
  Forall wellKept (Ledger.income (Ledger.run actions))
  /\ Forall wellKept (Ledger.expenses (Ledger.run actions)).
Proof. apply run_wellKept. Qed.



(** ** The series after a new entry *)

Section EarlierPointsFacts.

Lemma updateDoc_map (B : Type) (db : Store.assets) (i : string)
    (f : Asset.t -> Asset.t) (a : Asset.t) (g : Asset.t -> B) :
  Store.findAsset db i = Some a -> g (f a) = g a ->
  map g (Store.updateDoc db i f) = map g db.
Proof.
  unfold Store.findAsset. intros E Hg.
  induction db as [| x db IH]; simpl in *; [reflexivity |].
  destruct (String.eqb (Asset.id x) i); simpl.
  - injection E as ->. now rewrite Hg.
  - now rewrite IH.
Qed.

Lemma updateDoc_flat_map (B : Type) (db : Store.assets) (i : string)
    (f : Asset.t -> Asset.t) (a : Asset.t) (g : Asset.t -> list B) :
  Store.findAsset db i = Some a -> g (f a) = g a ->
  flat_map g (Store.updateDoc db i f) = flat_map g db.
Proof.
  intros E Hg. rewrite !flat_map_concat_map.
  now rewrite (@updateDoc_map _ db i f a g E Hg).
Qed.

Lemma filter_flat_map (A B : Type) (p : B -> bool) (g : A -> list B)
    (l : list A) :
  filter p (flat_map g l) = flat_map (fun a => filter p (g a)) l.
Proof.
  induction l as [| a l IH]; simpl; [reflexivity |].
  now rewrite filter_app, IH.
Qed.

Lemma in_chartData (db : list Asset.t) (p : Merger.Point) :
  NoDup (map Asset.id db) ->
  (In p (Merger.chartData db)
   <-> In (Merger.date p) (recordedDates db)
       /\ Merger.totalNetWorth p
          = round2 (sumQ (knownValues db (Merger.date p)))).
Proof.
  intros Hnd. rewrite (@chartData_closed db Hnd), in_map_iff.
  split.
  - intros [d [<- Hd]]. simpl. split; [| reflexivity].
    now apply uniqueDates_In.
  - intros [Hd Hv]. exists (Merger.date p). split.
    + destruct p as [d v]. simpl in *. now rewrite Hv.
    + now apply uniqueDates_In.
Qed.

(** Two collections that agree on what is recorded before a date give
    the same points before it. *)
Lemma earlier_points (db db' : list Asset.t) (cut : isodate)
    (p : Merger.Point) :
  NoDup (map Asset.id db) -> NoDup (map Asset.id db') ->
  filter (fun x => negb (date_leb cut x)) (recordedDates db')
  = filter (fun x => negb (date_leb cut x)) (recordedDates db) ->
  (forall x, date_lt x cut -> knownValues db' x = knownValues db x) ->
  date_lt (Merger.date p) cut ->
  (In p (Merger.chartData db') <-> In p (Merger.chartData db)).
Proof.
  intros Hnd Hnd' Hrd Hkv Hp.
  rewrite !in_chartData by assumption. rewrite (Hkv _ Hp).
  assert (Hb : negb (date_leb cut (Merger.date p)) = true)
    by now rewrite (date_lt_not_leb Hp).
  assert (Hin : forall l,
             In (Merger.date p) l
             <-> In (Merger.date p)
                   (filter (fun x => negb (date_leb cut x)) l)).
  { intros l. rewrite filter_In. tauto. }
  rewrite (Hin (recordedDates db')), (Hin (recordedDates db)), Hrd.
  reflexivity.
Qed.

Lemma knownValue_before (a a' : Asset.t) (e : ValueEntry.t)
    (x : isodate) :
  Merger.historyOf a' = Merger.historyOf a ++ [e] ->
  date_lt x (ValueEntry.date e) ->
  knownValue a' x = knownValue a x.
Proof.
  intros Hh Hx. unfold knownValue. rewrite Hh, filter_app. simpl.
  rewrite (date_lt_not_leb Hx). now rewrite app_nil_r.
Qed.

Lemma dates_before (a a' : Asset.t) (e : ValueEntry.t) :
  Merger.historyOf a' = Merger.historyOf a ++ [e] ->
  filter (fun x => negb (date_leb (ValueEntry.date e) x))
    (map ValueEntry.date (Merger.historyOf a'))
  = filter (fun x => negb (date_leb (ValueEntry.date e) x))
      (map ValueEntry.date (Merger.historyOf a)).
Proof.
  intros Hh. rewrite Hh, map_app, filter_app. simpl.
  rewrite date_leb_refl. simpl. now rewrite app_nil_r.
Qed.

(** An asset replaced by one whose history has one more entry. *)
Lemma earlier_points_updateDoc (db : Store.assets) (i : string)
    (f : Asset.t -> Asset.t) (a : Asset.t) (e : ValueEntry.t)
    (p : Merger.Point) :
  NoDup (map Asset.id db) ->
  Store.findAsset db i = Some a ->
  (forall x, Asset.id (f x) = Asset.id x) ->
  Merger.historyOf (f a) = Merger.historyOf a ++ [e] ->
  date_lt (Merger.date p) (ValueEntry.date e) ->
  (In p (Merger.chartData (Store.updateDoc db i f))
   <-> In p (Merger.chartData db)).
Proof.
  intros Hnd E Hid Hh Hp. apply earlier_points with (ValueEntry.date e);
    auto.
  - now rewrite (@updateDoc_ids _ db i f Asset.id Hid).
  - unfold recordedDates. rewrite !filter_flat_map.
    apply (@updateDoc_flat_map _ db i f a _ E).
    now apply dates_before.
  - intros x Hx. unfold knownValues.
    apply (@updateDoc_flat_map _ db i f a _ E).
    now rewrite (@knownValue_before a (f a) e x Hh Hx).
Qed.

Lemma earlier_points_update (db : Store.assets) (i : string) (v : Q)
    (d : isodate) (p : Merger.Point) :
  NoDup (map Asset.id db) -> date_lt (Merger.date p) d ->
  (In p (Merger.chartData
           (Store.perform db (Store.UpdateAssetValue i v d)))
   <-> In p (Merger.chartData db)).
Proof.
  intros Hnd Hp. simpl. unfold Store.updateAssetValue.
  destruct (Store.findAsset db i) as [a |] eqn:E; [| reflexivity].
  apply (@earlier_points_updateDoc db i _ a (ValueEntry.mk v d None) p);
    auto.
  unfold Merger.historyOf. simpl. now destruct (Asset.valueHistory a).
Qed.

Lemma earlier_points_contribution (db : Store.assets) (i : string)
    (v : Q) (d : isodate) (p : Merger.Point) :
  NoDup (map Asset.id db) -> date_lt (Merger.date p) d ->
  (In p (Merger.chartData
           (Store.perform db (Store.AddContribution i v d)))
   <-> In p (Merger.chartData db)).
Proof.
  intros Hnd Hp. simpl. unfold Store.addContribution.
  destruct (Store.findAsset db i) as [a |] eqn:E; [| reflexivity].
  apply (@earlier_points_updateDoc db i _ a
           (ValueEntry.mk (numOrZero (Asset.currentValue a) + v) d
              (Some "contribution"%string)) p); auto.
  unfold Merger.historyOf. simpl. now destruct (Asset.valueHistory a).
Qed.

Lemma earlier_points_addAsset (db : Store.assets) (i name type : string)
    (v : Q) (d : isodate) (p : Merger.Point) :
  NoDup (map Asset.id db) -> ~ In i (map Asset.id db) ->
  date_lt (Merger.date p) d ->
  (In p (Merger.chartData
           (Store.perform db (Store.AddAsset i name type v d)))
   <-> In p (Merger.chartData db)).
Proof.
  intros Hnd Hi Hp. simpl. unfold Store.addAsset.
  apply earlier_points with d; auto.
  - rewrite map_app. simpl.
    eapply Permutation_NoDup; [apply Permutation_cons_append |].
    now constructor.
  - unfold recordedDates. rewrite flat_map_app, filter_app. simpl.
    rewrite date_leb_refl. simpl. now rewrite app_nil_r.
  - intros x Hx. unfold knownValues. rewrite flat_map_app. simpl.
    unfold knownValue, Merger.historyOf. simpl.
    rewrite (date_lt_not_leb Hx). simpl. now rewrite app_nil_r.
Qed.

End EarlierPointsFacts.

(** X24.  A new entry does not rewrite the past: after a value update, a
    contribution or a new asset dated [d], the series of the merger has
    before [d] the very points it had (the assets having distinct
    identifiers, the new asset a new one). *)
Theorem new_entry_keeps_earlier_points
    (db : Store.assets) (i name type : string) (v : Q) (d : isodate)
    (p : Merger.Point) :
  NoDup (map Asset.id db) ->
  date_lt (Merger.date p) d ->
  let series db := fst (Merger.calculateNetWorthHistory db) in
  (In p (series (Store.perform db (Store.UpdateAssetValue i v d)))
   <-> In p (series db))
  /\ (In p (series (Store.perform db (Store.AddContribution i v d)))
      <-> In p (series db))
  /\ (~ In i (map Asset.id db) ->
      (In p (series (Store.perform db (Store.AddAsset i name type v d)))
       <-> In p (series db))).
Proof.
  intros Hnd Hp series. unfold series.
  cbn [fst Merger.calculateNetWorthHistory].
  split; [now apply earlier_points_update |].
  split; [now apply earlier_points_contribution |].
  intros Hi. now apply earlier_points_addAsset.
Qed.

Lemma new_entry_keeps_earlier_points_witness :
  In (Merger.mk (mkDate 2024 1 1) 100)
    (fst (Merger.calculateNetWorthHistory
            (Store.perform [assetA; assetB]
               (Store.UpdateAssetValue "A" 30 (mkDate 2024 3 1)))))
  <-> In (Merger.mk (mkDate 2024 1 1) 100)
        (fst (Merger.calculateNetWorthHistory [assetA; assetB])).
Proof.
  refine (proj1 (@new_entry_keeps_earlier_points [assetA; assetB] "A"
                   "Asset A" "Cash" 30 (mkDate 2024 3 1)
                   (Merger.mk (mkDate 2024 1 1) 100) _ _)).
  - simpl. constructor.
    + intros [H | []]. discriminate H.
    + constructor; [intros [] | constructor].
  - reflexivity.
Defined.


(** ** Transactions as the forms let them in *)

Section EnteredFacts.

Lemma date_leb_ym (a b : isodate) :
  date_leb a b = true -> ym_le (ymOf a) (ymOf b).
Proof.
  unfold date_leb, date_compare, ym_le, ymOf. simpl.
  destruct (Z.compare_spec (year a) (year b)); try discriminate;
    [| intros _; now left].
  destruct (Z.compare_spec (month a) (month b)); try discriminate;
    intros _; right; split; auto; lia.
Qed.

End EnteredFacts.

(* ================================================================== *)
(** * Part V.  Properties on the JavaScript host *)
(* ================================================================== *)

(** ** Rounding to two decimals *)

Section RoundingFacts.


End RoundingFacts.

(** ** Projection *)

Section ProjectionPoints.
Variable currentYear : Z.
Variables annualGrowthRate monthlyContribution : float.

Let step := Js.Projection.monthStep annualGrowthRate monthlyContribution.
Let months := Js.Projection.months annualGrowthRate monthlyContribution.
Let years :=
  Js.Projection.years currentYear annualGrowthRate monthlyContribution.



(** The point the outer loop emits in its turn number [j] (from 0) when
    it starts with loop variable [y] and value [v]. *)
Let emitted (y : Z) (v : float) (j : nat) : Js.Projection.Point :=
  {| Js.Projection.year := (currentYear + (y + Z.of_nat j))%Z;
     Js.Projection.projectedNetWorth :=
       Js.round2 (months (12 * S j) v) |}.




End ProjectionPoints.




(** ** Recurrence Activity Evaluator on the host *)

Section HostEvaluatorFacts.
Variable behind : Js.host.

Lemma hostYm_own (d : isodate) :
  readsOwnMonth behind d -> hostYm behind d = ymOf d.
Proof.
  unfold readsOwnMonth, hostYm, Js.newDate, ymOf. intros [H | H].
  - rewrite H. simpl. f_equal. lia.
  - replace (day d <=? 1)%Z with false
      by (symmetry; apply Z.leb_gt; exact H).
    rewrite andb_false_r. simpl. f_equal. lia.
Qed.

Lemma host_year_own (d : isodate) :
  readsOwnYear behind d -> getFullYear (Js.newDate behind d) = year d.
Proof.
  unfold readsOwnYear, Js.newDate. intros H.
  destruct (behind d && (day d <=? 1)%Z) eqn:E; [| reflexivity].
  apply andb_true_iff in E. destruct E as [E1 E2].
  apply Z.leb_le in E2.
  destruct (month d <=? 1)%Z eqn:E3; [| reflexivity].
  apply Z.leb_le in E3. exfalso.
  destruct H as [H | [H | H]]; [congruence | lia | lia].
Qed.

(** The evaluator compares the months in which the host reads the two
    dates. *)
Lemma active_on_host (t : Js.Tx.t) (target : ym) :
  Js.Monthly.isTransactionActiveInMonth behind t (monthDate target) = true
  <-> ym_le (hostYm behind (Js.Tx.date t)) target
      /\ match Js.Tx.endDate t with
         | None => True
         | Some e => ym_le target (hostYm behind e)
         end.
Proof.
  unfold Js.Monthly.isTransactionActiveInMonth, ym_le, hostYm, monthDate.
  destruct target as [y m]. simpl.
  rewrite andb_true_iff, orb_true_iff, andb_true_iff.
  rewrite Z.ltb_lt, Z.eqb_eq, Z.leb_le.
  destruct (Js.Tx.endDate t) as [e |]; simpl.
  - rewrite orb_true_iff, andb_true_iff.
    rewrite Z.gtb_lt, Z.eqb_eq, Z.geb_le. intuition lia.
  - intuition lia.
Qed.

Lemma monthFilter_on_host (t : Js.Tx.t) (target : ym) :
  Js.Monthly.monthFilter behind (monthDate target) t = true
  <-> if monthlyRecurring t
      then ym_le (hostYm behind (Js.Tx.date t)) target
           /\ match Js.Tx.endDate t with
              | None => True
              | Some e => ym_le target (hostYm behind e)
              end
      else hostYm behind (Js.Tx.date t) = target.
Proof.
  unfold Js.Monthly.monthFilter, monthlyRecurring.
  destruct (Js.Tx.isRecurring t && (Js.Tx.frequency t =? "Monthly")%string).
  - apply active_on_host.
  - unfold hostYm. destruct target as [y m]. simpl.
    rewrite andb_true_iff, !Z.eqb_eq. split.
    + intros [H1 H2]. f_equal; lia.
    + intros H. inversion H. lia.
Qed.

(** Where the host reads the dates of a record in their own months, the
    filter follows the rule of the specification. *)
Lemma monthFilter_rule (t : Js.Tx.t) (target : ym) :
  readsOwnMonth behind (Js.Tx.date t) ->
  (forall e, Js.Tx.endDate t = Some e -> readsOwnMonth behind e) ->
  (Js.Monthly.monthFilter behind (monthDate target) t = true
   <-> activeInMonth t target).
Proof.
  intros Hd He. rewrite monthFilter_on_host. unfold activeInMonth.
  rewrite (hostYm_own Hd).
  destruct (Js.Tx.endDate t) as [e |]; [| reflexivity].
  rewrite (hostYm_own (He e eq_refl)). reflexivity.
Qed.

Lemma filtered_on_host (items : list Js.Tx.t) (m y : Z) (t : Js.Tx.t) :
  (1 <= m <= 12)%Z -> (99 < y)%Z ->
  (In t (Js.Monthly.filtered behind items m y)
   <-> In t items
       /\ Js.Monthly.monthFilter behind (monthDate (y, m)) t = true).
Proof.
  intros Hm Hy. unfold Js.Monthly.filtered.
  now rewrite jsSort_In, filter_In, newDateYM_month by assumption.
Qed.

End HostEvaluatorFacts.

(** C3.  In a host that reads the date and the end date of a record in
    their own calendar months (a host whose clock is not behind UTC, or
    dates that are not the first of a month), the month filter follows
    the rule of the claim.  In a host behind UTC it does not: the
    one-off income dated 2024-03-01 is left out of March 2024, in which
    its date lies, and listed in February 2024, while a host at UTC
    lists it in March; and the monthly record from 2024-03-15 to
    2024-05-10 is active from March to May in both. *)
Theorem first_of_month_counts_in_previous_month :
  (forall (behind : Js.host) (t : Js.Tx.t) (target : ym),
      readsOwnMonth behind (Js.Tx.date t) ->
      (forall e, Js.Tx.endDate t = Some e -> readsOwnMonth behind e) ->
      (Js.Monthly.monthFilter behind (monthDate target) t = true
       <-> activeInMonth t target))
  /\ Js.Monthly.filteredIncome Js.west [firstOfMarch] 3 2024 = []
  /\ Js.Monthly.filteredIncome Js.west [firstOfMarch] 2 2024
     = [firstOfMarch]
  /\ Js.Monthly.filteredIncome Js.utc [firstOfMarch] 3 2024
     = [firstOfMarch]
  /\ (forall behind : Js.host,
         map (fun m =>
                Js.Monthly.monthFilter behind (monthDate (2024, m)%Z)
                  courseFees)
           [2; 3; 4; 5; 6]%Z
         = [false; true; true; true; false]).
Proof.
  split; [intros behind t target; apply monthFilter_rule |].
  split; [reflexivity |]. split; [reflexivity |]. split; [reflexivity |].
  intros behind. unfold Js.Monthly.monthFilter,
    Js.Monthly.isTransactionActiveInMonth, Js.newDate. simpl.
  rewrite !andb_false_r. reflexivity.
Qed.

(** C8, as stated, fails: the end date 2024-03-10 is earlier than the
    date 2024-03-15, yet the record is active in March 2024 (in every
    host, as neither date is the first of a month). *)
Lemma end_earlier_in_same_month_is_active :
  monthlyRecurring endsEarlierThatMonth = true
  /\ Js.Tx.endDate endsEarlierThatMonth = Some (mkDate 2024 3 10)
  /\ date_lt (mkDate 2024 3 10) (Js.Tx.date endsEarlierThatMonth)
  /\ Js.Monthly.monthFilter Js.utc (monthDate (2024, 3)%Z)
       endsEarlierThatMonth = true
  /\ Js.Monthly.monthFilter Js.west (monthDate (2024, 3)%Z)
       endsEarlierThatMonth = true.
Proof. repeat split. Qed.

(** C8, amended.  For every monthly recurring record whose date and end
    date the host reads in their own calendar months: when the end date
    lies in a calendar month before the month of the date, the evaluator
    answers inactive for every target month; when it lies in the month
    of the date, the record is active in that month and in no other.
    The evaluator is a total function: no record is rejected. *)
Theorem end_month_before_start_is_inactive
    (behind : Js.host) (t : Js.Tx.t) (e : isodate) :
  monthlyRecurring t = true ->
  Js.Tx.endDate t = Some e ->
  readsOwnMonth behind (Js.Tx.date t) ->
  readsOwnMonth behind e ->
  (ym_lt (ymOf e) (ymOf (Js.Tx.date t)) ->
   forall sel : jsDate, Js.Monthly.monthFilter behind sel t = false)
  /\ (ymOf e = ymOf (Js.Tx.date t) ->
      forall target : ym,
        Js.Monthly.monthFilter behind (monthDate target) t = true <->
        target = ymOf (Js.Tx.date t)).
Proof.
  intros Hrec Hend Hd He.
  assert (Hrule : forall target,
             Js.Monthly.monthFilter behind (monthDate target) t = true
             <-> activeInMonth t target).
  { intros target. apply monthFilter_rule; auto.
    intros e' E. rewrite Hend in E. injection E as <-. exact He. }
  split.
  - intros Hlt sel.
    destruct (Js.Monthly.monthFilter behind sel t) eqn:E;
      [exfalso | reflexivity].
    rewrite <- (monthDate_of_Date sel) in E.
    apply Hrule in E. unfold activeInMonth in E.
    rewrite Hrec, Hend in E. destruct E as [H1 H2].
    unfold ym_lt, ym_le, ymOf in *. simpl in *. lia.
  - intros Heq target. rewrite Hrule. unfold activeInMonth.
    rewrite Hrec, Hend, Heq.
    destruct target as [y m]. unfold ym_le, ymOf. simpl. split.
    + intros [H1 H2]. f_equal; lia.
    + intros H. inversion H. lia.
Qed.

Lemma end_month_before_start_is_inactive_witness :
  ym_lt (ymOf (mkDate 2023 11 30)) (ymOf (Js.Tx.date endsTheYearBefore))
  /\ Js.Monthly.monthFilter Js.west (monthDate (2024, 1)%Z)
       endsTheYearBefore = false.
Proof.
  assert (Hlt : ym_lt (ymOf (mkDate 2023 11 30))
                  (ymOf (Js.Tx.date endsTheYearBefore))).
  { left. simpl. lia. }
  split; [exact Hlt |].
  refine (proj1 (@end_month_before_start_is_inactive Js.west
                   endsTheYearBefore (mkDate 2023 11 30)
                   eq_refl eq_refl _ _)
            Hlt (monthDate (2024, 1)%Z)).
  - right. simpl. lia.
  - right. simpl. lia.
Defined.

(** ** The years on offer *)

Section HostYearsFacts.
Variable behind : Js.host.

Lemma host_addYears_In (dates : list isodate) (years : list Z) (x : Z) :
  In x (Js.Monthly.addYears behind years dates)
  <-> In x years
      \/ exists d, In d dates /\ x = getFullYear (Js.newDate behind d).
Proof.
  unfold Js.Monthly.addYears. revert years.
  induction dates as [| d dates IH]; intros years; simpl.
  - split; auto. intros [H | [d [[] _]]]; auto.
  - rewrite IH, JsSet_add_In. simpl. split.
    + intros [[H | H] | [d' [H1 H2]]]; eauto.
    + intros [H | [d' [[<- | H1] H2]]]; eauto.
Qed.

Lemma host_recurringEndDates_In (items : list Js.Tx.t) (e : isodate) :
  In e (Js.Monthly.recurringEndDates items)
  <-> exists t, In t items /\ Js.Tx.isRecurring t = true
                /\ Js.Tx.endDate t = Some e.
Proof.
  unfold Js.Monthly.recurringEndDates, Js.Monthly.withRecurringEnd.
  rewrite in_flat_map. split.
  - intros [t [Ht He]]. apply filter_In in Ht. destruct Ht as [Ht Hf].
    exists t. split; auto.
    destruct (Js.Tx.endDate t) as [e' |]; [| destruct He].
    destruct He as [<- | []].
    destruct (Js.Tx.isRecurring t); [auto | discriminate Hf].
  - intros [t [Ht [Hr He]]]. exists t. split.
    + apply filter_In. split; auto. now rewrite Hr, He.
    + rewrite He. now left.
Qed.

(** The years on offer, exactly: those in which the host reads the
    dates. *)
Lemma host_availableYears_In (currentYear : Z)
    (income expenses : list Js.Tx.t) (x : Z) :
  In x (Js.Monthly.availableYears behind currentYear income expenses)
  <-> x = currentYear \/ x = (currentYear - 1)%Z
      \/ x = (currentYear + 1)%Z
      \/ (exists t, In t (income ++ expenses)
                    /\ x = getFullYear (Js.newDate behind (Js.Tx.date t)))
      \/ (exists t e, In t (income ++ expenses)
                      /\ Js.Tx.isRecurring t = true
                      /\ Js.Tx.endDate t = Some e
                      /\ x = getFullYear (Js.newDate behind e)).
Proof.
  unfold Js.Monthly.availableYears.
  rewrite jsSort_In, !host_addYears_In, !JsSet_add_In. simpl.
  split.
  - intros H.
    repeat match goal with
      | H : _ \/ _ |- _ => destruct H as [H | H]
      end; try contradiction; auto;
      destruct H as [d [Hd ->]];
      try (apply in_map_iff in Hd; destruct Hd as [t [<- Ht]];
           right; right; right; left; exists t; rewrite in_app_iff;
           now auto);
      apply host_recurringEndDates_In in Hd;
      destruct Hd as [t [Ht [Hr He]]];
      right; right; right; right; exists t, d; rewrite in_app_iff;
      now auto.
  - intros [-> | [-> | [-> | [[t [Ht ->]] | [t [e [Ht [Hr [He ->]]]]]]]]];
      auto 10.
    + apply in_app_iff in Ht. destruct Ht as [Ht | Ht].
      * left; left; left; right. exists (Js.Tx.date t). split; auto.
        now apply in_map.
      * left; left; right. exists (Js.Tx.date t). split; auto.
        now apply in_map.
    + apply in_app_iff in Ht. destruct Ht as [Ht | Ht].
      * left; right. exists e. split; auto.
        apply host_recurringEndDates_In. eauto.
      * right. exists e. split; auto.
        apply host_recurringEndDates_In. eauto.
Qed.

End HostYearsFacts.

(** C9, as stated, fails.  The year of the end date of a record that is
    not recurring is not offered (the list is built from the end dates
    of recurring records only).  And in a host behind UTC an income
    dated 2027-01-01, as the form writes it, offers 2026 and not 2027. *)
Lemma year_of_a_date_not_offered :
  In giftWithEnd ([giftWithEnd] ++ [])
  /\ Js.Tx.endDate giftWithEnd = Some (mkDate 2030 1 1)
  /\ existsb (Z.eqb (year (mkDate 2030 1 1)))
       (Js.Monthly.availableYears Js.utc 2024 [giftWithEnd] [])
     = false
  /\ Js.Tx.date newYearIncome = mkDate 2027 1 1
  /\ Js.Monthly.availableYears Js.west 2024 [newYearIncome] []
     = [2026; 2025; 2024; 2023]%Z
  /\ existsb (Z.eqb (year (Js.Tx.date newYearIncome)))
       (Js.Monthly.availableYears Js.west 2024 [newYearIncome] [])
     = false.
Proof.
  split; [now left |]. repeat split.
Qed.

(** C9, amended.  For every income and expense collection the list of
    available years contains the current year, the previous year and the
    next year, so it is never empty, and, of the dates that the host
    reads in their own calendar year (every date in a host whose clock
    is not behind UTC, and every date but the first of January in any
    host), the year of the date of every record and the year of the end
    date of every recurring record that has one. *)
Theorem available_years_hold
    (behind : Js.host) (currentYear : Z)
    (income expenses : list Js.Tx.t) :
  let years :=
    Js.Monthly.availableYears behind currentYear income expenses in
  In currentYear years
  /\ In (currentYear - 1)%Z years
  /\ In (currentYear + 1)%Z years
  /\ (forall t,
         In t (income ++ expenses) ->
         readsOwnYear behind (Js.Tx.date t) ->
         In (year (Js.Tx.date t)) years)
  /\ (forall t e,
         In t (income ++ expenses) ->
         Js.Tx.isRecurring t = true -> Js.Tx.endDate t = Some e ->
         readsOwnYear behind e ->
         In (year e) years)
  /\ years <> [].
Proof.
  intros years. unfold years.
  assert (Hc : In currentYear
                 (Js.Monthly.availableYears behind currentYear income
                    expenses)).
  { apply host_availableYears_In. auto. }
  split; [exact Hc |].
  split; [apply host_availableYears_In; auto |].
  split; [apply host_availableYears_In; auto |].
  split; [| split].
  - intros t Ht Hy. apply host_availableYears_In.
    right; right; right; left. exists t. split; [exact Ht |].
    symmetry. now apply host_year_own.
  - intros t e Ht Hr He Hy. apply host_availableYears_In.
    right; right; right; right. exists t, e.
    repeat (split; [assumption |]).
    symmetry. now apply host_year_own.
  - intros E. rewrite E in Hc. destruct Hc.
Qed.

(** A host at UTC reads a date string as Part I does. *)
Lemma newDate_at_utc (s : isodate) : Js.newDate Js.utc s = newDate s.
Proof. reflexivity. Qed.

(** ** Binary64 facts *)

Section FloatFacts.






End FloatFacts.

(** ** Totals of stored amounts *)

Section HostTotalFacts.
Variable rt : Js.conversions.

Lemma plus_number (x : float) (v : Js.value) :
  textAmount v = false ->
  Js.plus rt (Js.VNum x) v = Js.VNum (x + Js.toNumber rt v).
Proof. destruct v; simpl; intros H; try discriminate H; reflexivity. Qed.












End HostTotalFacts.



(** ** Dashboard against Monthly Overview, on the host *)

Section HostDashboardFacts.
Variable behind : Js.host.
Variables currentMonth currentYear : Z.
Hypothesis month_index : (0 <= currentMonth <= 11)%Z.
Hypothesis four_digit_year : (99 < currentYear)%Z.

Lemma newDateYM_current :
  newDateYM currentYear (currentMonth + 1 - 1)
  = {| getFullYear := currentYear; getMonth := currentMonth |}.
Proof.
  unfold newDateYM.
  replace (currentMonth + 1 - 1)%Z with currentMonth by lia.
  replace ((0 <=? currentYear) && (currentYear <=? 99))%Z with false
    by (symmetry; apply andb_false_iff; right; apply Z.leb_gt; lia).
  rewrite Z.div_small, Z.mod_small by lia.
  f_equal. lia.
Qed.

Lemma host_checks_agree (t : Js.Tx.t) :
  Js.Dashboard.isTransactionActiveInCurrentMonth behind currentMonth
    currentYear t
  = Js.Monthly.isTransactionActiveInMonth behind t
      (newDateYM currentYear (currentMonth + 1 - 1)).
Proof. rewrite newDateYM_current. reflexivity. Qed.

Lemma host_filters_agree (t : Js.Tx.t) :
  Js.Dashboard.currentMonthFilter behind currentMonth currentYear t
  = Js.Monthly.monthFilter behind
      (newDateYM currentYear (currentMonth + 1 - 1)) t.
Proof.
  unfold Js.Dashboard.currentMonthFilter, Js.Monthly.monthFilter.
  rewrite <- host_checks_agree. rewrite newDateYM_current.
  cbn [getFullYear getMonth].
  destruct (Js.Tx.isRecurring t && (Js.Tx.frequency t =? "Monthly")%string);
    [reflexivity | apply andb_comm].
Qed.

Lemma host_overview_list (items : list Js.Tx.t) :
  Js.Monthly.filtered behind items (currentMonth + 1) currentYear
  = jsSort Js.Monthly.newestFirst
      (filter
         (Js.Dashboard.currentMonthFilter behind currentMonth currentYear)
         items).
Proof.
  unfold Js.Monthly.filtered. f_equal.
  apply filter_ext. intros t. symmetry. apply host_filters_agree.
Qed.

End HostDashboardFacts.

Section OrderedSortFacts.
Variable A : Type.
Variable cmp : A -> A -> comparison.

(** The sort leaves a list as it is when no element has to move. *)
Lemma jsSort_ordered (l : list A) :
  Sorted (fun a b => cmp a b <> Gt) l -> jsSort cmp l = l.
Proof.
  induction 1 as [| x l Hs IH Hd]; simpl; [reflexivity |].
  rewrite IH. destruct Hd as [| y l Hxy]; simpl; [reflexivity |].
  destruct (cmp x y); try reflexivity. now elim Hxy.
Qed.

End OrderedSortFacts.

(** C10, as stated, fails.  Three incomes of March 2024 of 0.1, 0.2 and
    0.3 stand oldest first in the collection.  The dashboard adds them
    in this order and shows 0.6000000000000001; the overview adds them
    newest first and shows 0.6.  Against an expense of 0.6 the balance of
    the dashboard is positive and that of the overview is zero. *)
Lemma dashboard_and_overview_totals_differ :
  (forall rt,
      Js.Dashboard.currentMonthIncome Js.utc 2 2024 rt smallIncomes
      = Js.VNum 0.6000000000000001)
  /\ (forall rt,
         Js.Monthly.totalMonthlyIncome Js.utc rt smallIncomes 3 2024
         = Js.VNum 0.6)
  /\ PrimFloat.eqb 0.6000000000000001 0.6 = false
  /\ (forall rt,
         PrimFloat.ltb 0
           (Js.Dashboard.currentMonthBalance Js.utc 2 2024 rt smallIncomes
              smallExpenses)
         = true)
  /\ (forall rt,
         Js.Monthly.monthlyBalance Js.utc rt smallIncomes smallExpenses
           3 2024
         = 0%float).
Proof.
  split; [intros rt; reflexivity |].
  split; [intros rt; reflexivity |].
  split; [reflexivity |].
  split; intros rt; reflexivity.
Qed.

(** C10, amended.  With the month index and the year of the current
    date ([0 <= currentMonth <= 11], a year after 99), for every host:
    the two activity checks, and the two filters built on them, return
    the same boolean for every transaction when the overview is set to
    the current month; so the overview lists the very transactions the
    dashboard adds up, reordered newest first.  The dashboard adds the
    amounts in the order of the collection and the overview in the order
    of its list: the income, the expenses and the balance of the two are
    equal whenever the transactions of the current month already stand
    newest first in the collections. *)
Theorem dashboard_and_overview_agree
    (behind : Js.host) (rt : Js.conversions)
    (currentMonth currentYear : Z) (income expenses : list Js.Tx.t) :
  (0 <= currentMonth <= 11)%Z ->
  (99 < currentYear)%Z ->
  (forall t,
      Js.Dashboard.isTransactionActiveInCurrentMonth behind currentMonth
        currentYear t
      = Js.Monthly.isTransactionActiveInMonth behind t
          (newDateYM currentYear (currentMonth + 1 - 1)))
  /\ (forall t,
         Js.Dashboard.currentMonthFilter behind currentMonth currentYear t
         = Js.Monthly.monthFilter behind
             (newDateYM currentYear (currentMonth + 1 - 1)) t)
  /\ (forall items,
         Js.Monthly.filtered behind items (currentMonth + 1) currentYear
         = jsSort Js.Monthly.newestFirst
             (filter
                (Js.Dashboard.currentMonthFilter behind currentMonth
                   currentYear)
                items)
         /\ Permutation
              (Js.Monthly.filtered behind items (currentMonth + 1)
                 currentYear)
              (filter
                 (Js.Dashboard.currentMonthFilter behind currentMonth
                    currentYear)
                 items))
  /\ (standsNewestFirst
        (filter
           (Js.Dashboard.currentMonthFilter behind currentMonth
              currentYear)
           income) ->
      Js.Dashboard.currentMonthIncome behind currentMonth currentYear rt
        income
      = Js.Monthly.totalMonthlyIncome behind rt income (currentMonth + 1)
          currentYear)
  /\ (standsNewestFirst
        (filter
           (Js.Dashboard.currentMonthFilter behind currentMonth
              currentYear)
           expenses) ->
      Js.Dashboard.currentMonthExpenses behind currentMonth currentYear rt
        expenses
      = Js.Monthly.totalMonthlyExpenses behind rt expenses
          (currentMonth + 1) currentYear)
  /\ (standsNewestFirst
        (filter
           (Js.Dashboard.currentMonthFilter behind currentMonth
              currentYear)
           income) ->
      standsNewestFirst
        (filter
           (Js.Dashboard.currentMonthFilter behind currentMonth
              currentYear)
           expenses) ->
      Js.Dashboard.currentMonthBalance behind currentMonth currentYear rt
        income expenses
      = Js.Monthly.monthlyBalance behind rt income expenses
          (currentMonth + 1) currentYear).
Proof.
  intros Hm Hy.
  assert (Hsum : forall items,
             standsNewestFirst
               (filter
                  (Js.Dashboard.currentMonthFilter behind currentMonth
                     currentYear)
                  items) ->
             Js.Dashboard.currentMonthTotal behind currentMonth
               currentYear rt items
             = Js.Monthly.total rt
                 (Js.Monthly.filtered behind items (currentMonth + 1)
                    currentYear)).
  { intros items Hs. rewrite (host_overview_list behind Hm Hy).
    rewrite (@jsSort_ordered _ _ _ Hs). reflexivity. }
  split; [intros t; now apply host_checks_agree |].
  split; [intros t; now apply host_filters_agree |].
  split; [| split; [| split]].
  - intros items. split; [now apply host_overview_list |].
    rewrite (host_overview_list behind Hm Hy). apply jsSort_perm.
  - intros Hs. now apply Hsum.
  - intros Hs. now apply Hsum.
  - intros Hi He.
    unfold Js.Dashboard.currentMonthBalance, Js.Monthly.monthlyBalance,
      Js.Dashboard.currentMonthIncome, Js.Dashboard.currentMonthExpenses,
      Js.Monthly.totalMonthlyIncome, Js.Monthly.totalMonthlyExpenses,
      Js.Monthly.filteredIncome, Js.Monthly.filteredExpenses.
    now rewrite (Hsum income Hi), (Hsum expenses He).
Qed.

Lemma dashboard_and_overview_agree_witness :
  Js.Dashboard.currentMonthFilter Js.west 2 2024 firstOfMarch
  = Js.Monthly.monthFilter Js.west (newDateYM 2024 (2 + 1 - 1))
      firstOfMarch.
Proof.
  refine (proj1 (proj2
            (@dashboard_and_overview_agree Js.west
               plainRuntime
               2 2024 [firstOfMarch] [] _ _))
            firstOfMarch); lia.
Defined.

(** ** Objects as dictionaries *)

Section ObjFacts.

Lemma filter_split_perm (A : Type) (p : A -> bool) (l : list A) :
  Permutation (filter p l ++ filter (fun x => negb (p x)) l) l.
Proof.
  induction l as [| x l IH]; simpl; [constructor |].
  destruct (p x); simpl.
  - now constructor.
  - rewrite <- Permutation_middle. now constructor.
Qed.

Lemma entries_perm (o : Js.Obj.t) : Permutation (Js.Obj.entries o) o.
Proof.
  unfold Js.Obj.entries. rewrite jsSort_perm. apply filter_split_perm.
Qed.

(** The groups of a list under keys that are pairwise distinct, each
    element falling under one key at most. *)
Variables K A : Type.
Variable under_key : K -> A -> bool.
Hypothesis one_key :
  forall x k k', under_key k x = true -> under_key k' x = true -> k = k'.

Lemma groups_without (x : A) (l : list A) (ks : list K) :
  (forall k, In k ks -> under_key k x = false) ->
  flat_map (fun k => filter (under_key k) (x :: l)) ks
  = flat_map (fun k => filter (under_key k) l) ks.
Proof.
  induction ks as [| k ks IH]; intros Hn; [reflexivity |].
  cbn [flat_map]. rewrite IH by (intros k' H; apply Hn; now right).
  f_equal. cbn [filter]. rewrite (Hn k) by now left. reflexivity.
Qed.

Lemma groups_with (x : A) (l : list A) (ks : list K) :
  NoDup ks -> (exists k, In k ks /\ under_key k x = true) ->
  Permutation
    (flat_map (fun k => filter (under_key k) (x :: l)) ks)
    (x :: flat_map (fun k => filter (under_key k) l) ks).
Proof.
  induction 1 as [| k ks Hk Hnd IH]; intros [k0 [Hin Hx]];
    [destruct Hin |].
  cbn [flat_map].
  destruct (under_key k x) eqn:E.
  - rewrite groups_without.
    + cbn [filter]. rewrite E. reflexivity.
    + intros k' Hk'. destruct (under_key k' x) eqn:E'; [| reflexivity].
      exfalso. apply Hk. now rewrite (one_key E E').
  - destruct Hin as [<- | Hin]; [congruence |].
    rewrite IH by eauto. cbn [filter]. rewrite E.
    symmetry. apply Permutation_middle.
Qed.

Lemma groups_partition (l : list A) (ks : list K) :
  NoDup ks ->
  Permutation
    (flat_map (fun k => filter (under_key k) l) ks)
    (filter (fun x => existsb (fun k => under_key k x) ks) l).
Proof.
  intros Hnd. induction l as [| x l IH].
  - simpl. clear Hnd. induction ks as [| k ks IHk]; simpl;
      [constructor | exact IHk].
  - match goal with
    | |- Permutation _ (filter ?q _) =>
        change (filter q (x :: l))
          with (if q x then x :: filter q l else filter q l)
    end.
    cbv beta. destruct (existsb (fun k => under_key k x) ks) eqn:E.
    + rewrite groups_with; auto.
      apply existsb_exists in E. exact E.
    + rewrite groups_without; auto.
      intros k Hk. destruct (under_key k x) eqn:E'; [| reflexivity].
      assert (T : existsb (fun k => under_key k x) ks = true)
        by (apply existsb_exists; eauto).
      congruence.
Qed.

End ObjFacts.

(** ** Expense breakdowns on the host *)

Section HostBreakdownFacts.
Variable rt : Js.conversions.
Variable keyOf : Js.Tx.t -> option string.

Lemma host_summarise_snoc (l : list Js.Tx.t) (e : Js.Tx.t) :
  Js.Monthly.summarise rt keyOf (l ++ [e])
  = Js.Obj.addTo rt (Js.Monthly.summarise rt keyOf l)
      (propKey (keyOf e)) (Js.Tx.amount e).
Proof. unfold Js.Monthly.summarise. now rewrite fold_left_app. Qed.

Lemma groupAmount_snoc (k : string) (amounts : list Js.value)
    (a : Js.value) :
  groupAmount rt k (amounts ++ [a])
  = Js.plus rt (Js.orZero (groupAmount rt k amounts)) a.
Proof. unfold groupAmount. now rewrite fold_left_app. Qed.

Lemma keyed_snoc (k : string) (l : list Js.Tx.t) (e : Js.Tx.t) :
  keyed keyOf k (l ++ [e])
  = keyed keyOf k l
    ++ (if (propKey (keyOf e) =? k)%string then [e] else []).
Proof. unfold keyed. now rewrite filter_app. Qed.

(** What the object holds after a list of expenses. *)
Lemma host_summarise_inv (l : list Js.Tx.t) :
  NoDup (JsMap.keys (Js.Monthly.summarise rt keyOf l))
  /\ (forall k,
         In k (JsMap.keys (Js.Monthly.summarise rt keyOf l))
         <-> k <> "__proto__"%string
             /\ exists e, In e l /\ propKey (keyOf e) = k)
  /\ (forall k,
         k <> "__proto__"%string ->
         Js.Obj.get rt (Js.Monthly.summarise rt keyOf l) k
         = groupAmount rt k (map Js.Tx.amount (keyed keyOf k l))).
Proof.
  induction l as [| e l IH] using rev_ind.
  - split; [constructor |]. split.
    + intros k. simpl. split; [tauto |]. intros [_ [e [[] _]]].
    + intros k Hk. reflexivity.
  - destruct IH as [Hnd [Hk Hg]]. rewrite host_summarise_snoc.
    unfold Js.Obj.addTo.
    destruct (String.eqb_spec (propKey (keyOf e)) "__proto__") as [E | E].
    + split; [exact Hnd |]. split.
      * intros k. rewrite Hk. split.
        -- intros [H [e' [H1 H2]]]. split; auto. exists e'.
           rewrite in_app_iff. auto.
        -- intros [H [e' [H1 H2]]]. split; auto.
           apply in_app_iff in H1. destruct H1 as [H1 | [<- | []]];
             [eauto | congruence].
      * intros k Hne. rewrite Hg by exact Hne. rewrite keyed_snoc.
        destruct (String.eqb_spec (propKey (keyOf e)) k) as [E' | E'];
          [congruence |].
        now rewrite app_nil_r.
    + split; [now apply (@keys_set_NoDup _ _ _ String.eqb_eq) |]. split.
      * intros k. rewrite (@keys_set_In _ _ _ String.eqb_eq), Hk. split.
        -- intros [[H [e' [H1 H2]]] | ->].
           ++ split; auto. exists e'. rewrite in_app_iff. auto.
           ++ split; auto. exists e. rewrite in_app_iff. simpl. auto.
        -- intros [H [e' [H1 H2]]]. apply in_app_iff in H1.
           destruct H1 as [H1 | [<- | []]]; eauto.
      * intros k Hne. unfold Js.Obj.get at 1. rewrite keyed_snoc.
        destruct (String.eqb_spec (propKey (keyOf e)) k) as [E' | E'].
        -- subst k. rewrite (@get_set_same _ _ _ String.eqb_eq).
           rewrite map_app. cbn [map]. rewrite groupAmount_snoc.
           now rewrite Hg.
        -- rewrite (@get_set_other _ _ _ String.eqb_eq) by exact E'.
           rewrite app_nil_r. now apply Hg.
Qed.

Lemma flat_map_fst (B : Type) (f : string -> list B)
    (b : list (string * Js.value)) :
  flat_map (fun kv => f (fst kv)) b = flat_map f (map fst b).
Proof. induction b as [| kv b IH]; simpl; congruence. Qed.

(** The breakdown of a list: the entries of the object, sorted. *)
Lemma host_breakdown (l : list Js.Tx.t) :
  holdsEachOnce rt keyOf l
    (jsSort (Js.Monthly.largestFirst rt)
       (Js.Obj.entries (Js.Monthly.summarise rt keyOf l))).
Proof.
  destruct (host_summarise_inv l) as [Hnd [Hk Hg]].
  set (m := Js.Monthly.summarise rt keyOf l) in *.
  set (b := jsSort (Js.Monthly.largestFirst rt) (Js.Obj.entries m)).
  assert (P : Permutation b m).
  { unfold b. rewrite jsSort_perm. apply entries_perm. }
  assert (Pk : Permutation (map fst b) (JsMap.keys m))
    by (apply Permutation_map; exact P).
  assert (Hnd' : NoDup (map fst b)).
  { eapply Permutation_NoDup; [symmetry; exact Pk | exact Hnd]. }
  assert (Hk' : forall k,
             In k (map fst b)
             <-> k <> "__proto__"%string
                 /\ exists e, In e l /\ propKey (keyOf e) = k).
  { intros k. rewrite <- Hk. split; apply Permutation_in;
      [exact Pk | symmetry; exact Pk]. }
  split; [exact Hnd' |]. split; [exact Hk' |]. split.
  - intros k v Hin.
    assert (Hne : k <> "__proto__"%string).
    { apply (Hk' k). apply in_map_iff. exists (k, v). auto. }
    apply (Permutation_in _ P) in Hin.
    apply (@In_get_Some _ _ _ String.eqb_eq _ _ _ Hnd) in Hin.
    rewrite <- (Hg k Hne). unfold Js.Obj.get. now rewrite Hin.
  - rewrite (flat_map_fst (fun k => keyed keyOf k l)).
    assert (G := @groups_partition string Js.Tx.t
                   (fun k e => (propKey (keyOf e) =? k)%string)).
    unfold keyed. rewrite G.
    + erewrite filter_ext_in; [reflexivity |].
      intros e He. cbv beta.
      destruct (String.eqb_spec (propKey (keyOf e)) "__proto__")
        as [E | E]; simpl.
      * destruct (existsb _ (map fst b)) eqn:X; [| reflexivity].
        apply existsb_exists in X. destruct X as [k [Hin X]].
        apply String.eqb_eq in X. subst k.
        apply Hk' in Hin. tauto.
      * apply existsb_exists. exists (propKey (keyOf e)).
        split; [| apply String.eqb_refl].
        apply Hk'. eauto.
    + intros e k k' H1 H2. apply String.eqb_eq in H1, H2. congruence.
    + exact Hnd'.
Qed.

(** Under a plain key, amounts none of which is text add up as
    numbers. *)
Lemma fold_group_number (amounts : list Js.value) (x : float) :
  existsb textAmount amounts = false ->
  fold_left (fun s a => Js.plus rt (Js.orZero s) a) amounts (Js.VNum x)
  = Js.VNum
      (fold_left (fun s a => (Js.numOrZero s + Js.toNumber rt a)%float)
         amounts x).
Proof.
  revert x. induction amounts as [| a l IH]; intros x H; simpl.
  - reflexivity.
  - simpl in H. apply orb_false_iff in H. destruct H as [Ha Hl].
    replace (Js.orZero (Js.VNum x)) with (Js.VNum (Js.numOrZero x)).
    + rewrite plus_number by exact Ha. now apply IH.
    + unfold Js.orZero, Js.numOrZero, Js.truthy.
      now destruct (PrimFloat.is_nan x || PrimFloat.eqb x 0)%bool.
Qed.

Lemma plainKey_inherited (k : string) :
  plainKey k = true -> Js.Obj.inherited rt k = Js.VUndefined.
Proof.
  unfold plainKey, Js.Obj.inherited, JsMap.has. intros H.
  apply andb_true_iff in H. destruct H as [H1 H2].
  apply negb_true_iff in H1. rewrite H1.
  destruct (JsMap.get String.eqb Js.Obj.methods k);
    [discriminate H2 | reflexivity].
Qed.

Lemma groupAmount_number (k : string) (amounts : list Js.value) :
  plainKey k = true ->
  amounts <> [] ->
  existsb textAmount amounts = false ->
  groupAmount rt k amounts = Js.VNum (groupSum rt amounts).
Proof.
  intros Hk Hne Ht. unfold groupAmount, groupSum.
  rewrite plainKey_inherited by exact Hk.
  destruct amounts as [| a l]; [now elim Hne |].
  cbn [fold_left]. simpl in Ht. apply orb_false_iff in Ht.
  destruct Ht as [Ha Hl].
  change (Js.orZero Js.VUndefined) with (Js.VNum 0).
  rewrite plus_number by exact Ha.
  now apply fold_group_number.
Qed.

End HostBreakdownFacts.

Section HostTypeFacts.

Lemma typeAsWritten_key (e : Js.Tx.t) :
  typeAsWritten e ->
  propKey (Js.Tx.type e)
  = (if Js.Tx.isRecurring e then "Recurring" else "One-Off")%string.
Proof. unfold typeAsWritten. now intros ->. Qed.

Lemma keyed_by_flag (l : list Js.Tx.t) :
  Forall typeAsWritten l ->
  keyed Js.Tx.type "Recurring" l = filter Js.Tx.isRecurring l
  /\ keyed Js.Tx.type "One-Off" l
     = filter (fun e => negb (Js.Tx.isRecurring e)) l.
Proof.
  intros H. unfold keyed. split; apply filter_ext_in; intros e He;
    rewrite Forall_forall in H; rewrite (typeAsWritten_key (H e He));
    now destruct (Js.Tx.isRecurring e).
Qed.

End HostTypeFacts.

(** C6, as stated, fails.  The expenses listed for March 2024 are 0.1
    (Personal, one-off), 0.1 (Shared, monthly) and 19.99 (Personal,
    one-off).  Their total is 20.189999999999998.  The breakdown by
    category holds 20.09 and 0.1 and the breakdown by type holds the same
    two amounts, which add up to 20.19. *)
Lemma breakdown_sum_is_not_the_total :
  Js.Monthly.filteredExpenses Js.utc marchExpenses 3 2024 = marchExpenses
  /\ (forall rt,
         Js.Monthly.totalMonthlyExpenses Js.utc rt marchExpenses 3 2024
         = Js.VNum 20.189999999999998)
  /\ (forall rt,
         Js.Monthly.expenseSummaryByCategory rt
           (Js.Monthly.filteredExpenses Js.utc marchExpenses 3 2024)
         = [("Personal"%string, Js.VNum 20.09);
            ("Shared"%string, Js.VNum 0.1)])
  /\ (forall rt,
         Js.Monthly.expenseSummaryByType rt
           (Js.Monthly.filteredExpenses Js.utc marchExpenses 3 2024)
         = [("One-Off"%string, Js.VNum 20.09);
            ("Recurring"%string, Js.VNum 0.1)])
  /\ (forall rt,
         breakdownTotal rt
           (Js.Monthly.expenseSummaryByCategory rt
              (Js.Monthly.filteredExpenses Js.utc marchExpenses 3 2024))
         = Js.VNum 20.19
         /\ breakdownTotal rt
              (Js.Monthly.expenseSummaryByType rt
                 (Js.Monthly.filteredExpenses Js.utc marchExpenses 3 2024))
            = Js.VNum 20.19)
  /\ PrimFloat.eqb 20.19 20.189999999999998 = false.
Proof.
  split; [reflexivity |].
  split; [intros rt; reflexivity |].
  split; [intros rt; reflexivity |].
  split; [intros rt; reflexivity |].
  split; [intros rt; split; reflexivity |].
  reflexivity.
Qed.

(** C6, amended.  For every expense collection and every target month,
    each of the two breakdowns holds every filtered expense once: no key
    stands twice, the keys are those of the filtered expenses (the
    [category], respectively the stored [type], a missing field reading
    [undefined]), and the expenses filed under the keys are together the
    filtered expenses, none twice and none left out (but those whose key
    is [__proto__], under which an object stores nothing).  The amount
    under a key is what the amounts of its expenses add up to in the
    order of the list; when the key is no name of [Object.prototype] and
    no amount is text, it is their binary64 sum from [0] (a sum so far
    of [NaN] being taken as [0]).  When the [type] fields are as the
    application writes them, the keys of the breakdown by type are
    ['Recurring'] and ['One-Off'] and file the expenses by their
    [isRecurring] flag.  (That the amounts of a breakdown add up to the
    total exactly is not part of the statement.) *)
Theorem breakdowns_hold_each_expense_once
    (behind : Js.host) (rt : Js.conversions)
    (expenses : list Js.Tx.t) (m y : Z) :
  holdsEachOnce rt Js.Tx.category
    (Js.Monthly.filteredExpenses behind expenses m y)
    (Js.Monthly.expenseSummaryByCategory rt
       (Js.Monthly.filteredExpenses behind expenses m y))
  /\ holdsEachOnce rt Js.Tx.type
       (Js.Monthly.filteredExpenses behind expenses m y)
       (Js.Monthly.expenseSummaryByType rt
          (Js.Monthly.filteredExpenses behind expenses m y))
  /\ (forall k v,
         In (k, v)
           (Js.Monthly.expenseSummaryByCategory rt
              (Js.Monthly.filteredExpenses behind expenses m y)) ->
         plainKey k = true ->
         existsb textAmount
           (map Js.Tx.amount
              (keyed Js.Tx.category k
                 (Js.Monthly.filteredExpenses behind expenses m y)))
         = false ->
         v = Js.VNum
               (groupSum rt
                  (map Js.Tx.amount
                     (keyed Js.Tx.category k
                        (Js.Monthly.filteredExpenses behind expenses m
                           y)))))
  /\ (forall k v,
         In (k, v)
           (Js.Monthly.expenseSummaryByType rt
              (Js.Monthly.filteredExpenses behind expenses m y)) ->
         plainKey k = true ->
         existsb textAmount
           (map Js.Tx.amount
              (keyed Js.Tx.type k
                 (Js.Monthly.filteredExpenses behind expenses m y)))
         = false ->
         v = Js.VNum
               (groupSum rt
                  (map Js.Tx.amount
                     (keyed Js.Tx.type k
                        (Js.Monthly.filteredExpenses behind expenses m
                           y)))))
  /\ (Forall typeAsWritten
        (Js.Monthly.filteredExpenses behind expenses m y) ->
      (forall k,
          In k
            (map fst
               (Js.Monthly.expenseSummaryByType rt
                  (Js.Monthly.filteredExpenses behind expenses m y))) ->
          k = "Recurring"%string \/ k = "One-Off"%string)
      /\ keyed Js.Tx.type "Recurring"
           (Js.Monthly.filteredExpenses behind expenses m y)
         = filter Js.Tx.isRecurring
             (Js.Monthly.filteredExpenses behind expenses m y)
      /\ keyed Js.Tx.type "One-Off"
           (Js.Monthly.filteredExpenses behind expenses m y)
         = filter (fun e => negb (Js.Tx.isRecurring e))
             (Js.Monthly.filteredExpenses behind expenses m y)).
Proof.
  set (shown := Js.Monthly.filteredExpenses behind expenses m y).
  assert (Hc := host_breakdown rt Js.Tx.category shown).
  assert (Ht := host_breakdown rt Js.Tx.type shown).
  assert (Hnum : forall keyOf k v,
             holdsEachOnce rt keyOf shown
               (jsSort (Js.Monthly.largestFirst rt)
                  (Js.Obj.entries (Js.Monthly.summarise rt keyOf shown))) ->
             In (k, v)
               (jsSort (Js.Monthly.largestFirst rt)
                  (Js.Obj.entries (Js.Monthly.summarise rt keyOf shown))) ->
             plainKey k = true ->
             existsb textAmount
               (map Js.Tx.amount (keyed keyOf k shown)) = false ->
             v = Js.VNum
                   (groupSum rt (map Js.Tx.amount (keyed keyOf k shown)))).
  { intros keyOf k v [_ [Hk [Hv _]]] Hin Hp Hx.
    rewrite (Hv k v Hin). apply groupAmount_number; auto.
    assert (Hin' : In k
              (map fst
                 (jsSort (Js.Monthly.largestFirst rt)
                    (Js.Obj.entries
                       (Js.Monthly.summarise rt keyOf shown))))).
    { apply in_map_iff. exists (k, v). auto. }
    apply Hk in Hin'. destruct Hin' as [_ [e [He Hke]]].
    intros E. apply map_eq_nil in E.
    assert (Hin' : In e (keyed keyOf k shown)).
    { unfold keyed. apply filter_In. split; auto.
      now apply String.eqb_eq. }
    rewrite E in Hin'. destruct Hin'. }
  split; [exact Hc |]. split; [exact Ht |].
  split; [intros k v; now apply Hnum |].
  split; [intros k v; now apply Hnum |].
  intros Hw. split; [| now apply keyed_by_flag].
  intros k Hin. destruct Ht as [_ [Hk _]].
  apply Hk in Hin. destruct Hin as [_ [e [He <-]]].
  rewrite Forall_forall in Hw. rewrite (typeAsWritten_key (Hw e He)).
  destruct (Js.Tx.isRecurring e); auto.
Qed.

(** ** Histories on the host *)

Section HostHistoryFacts.

Lemma host_lastEntry_snoc (h : list Js.ValueEntry.t) (e : Js.ValueEntry.t) :
  OnHost.lastEntry (h ++ [e]) = Some e.
Proof. unfold OnHost.lastEntry. now rewrite rev_app_distr. Qed.

Lemma host_lastEntry_In (h : list Js.ValueEntry.t) (e : Js.ValueEntry.t) :
  OnHost.lastEntry h = Some e -> In e h.
Proof.
  unfold OnHost.lastEntry. destruct (rev h) as [| x r] eqn:E; [discriminate |].
  intros H. inversion H. subst. apply in_rev. rewrite E. now left.
Qed.

Lemma host_lastEntry_None (h : list Js.ValueEntry.t) :
  OnHost.lastEntry h = None <-> h = [].
Proof.
  unfold OnHost.lastEntry. split.
  - destruct (rev h) as [| x r] eqn:E; [| discriminate].
    intros _. rewrite <- (rev_involutive h), E. reflexivity.
  - now intros ->.
Qed.

Lemma host_chronLatest_snoc (h : list Js.ValueEntry.t) (e : Js.ValueEntry.t) :
  OnHost.chronLatest (h ++ [e]) = OnHost.laterOf (OnHost.chronLatest h) e.
Proof. unfold OnHost.chronLatest. now rewrite fold_left_app. Qed.

Lemma host_chronLatest_None (h : list Js.ValueEntry.t) :
  OnHost.chronLatest h = None <-> h = [].
Proof.
  split; [| now intros ->].
  destruct h as [| x h] using rev_ind; auto.
  rewrite host_chronLatest_snoc. unfold OnHost.laterOf.
  destruct (OnHost.chronLatest h); [| discriminate].
  now destruct (date_leb _ _).
Qed.

Let sameDate (e x : Js.ValueEntry.t) : bool :=
  date_eqb (Js.ValueEntry.date x) (Js.ValueEntry.date e).

(** The chronologically latest entry is in the history, no entry is
    dated after it, and it is the last of the entries of its date. *)
Lemma host_chronLatest_spec (h : list Js.ValueEntry.t) (e : Js.ValueEntry.t) :
  OnHost.chronLatest h = Some e ->
  In e h
  /\ (forall x, In x h ->
        date_leb (Js.ValueEntry.date x) (Js.ValueEntry.date e) = true)
  /\ OnHost.lastEntry (filter (sameDate e) h) = Some e.
Proof.
  revert e. induction h as [| x h IH] using rev_ind; intros e.
  - discriminate.
  - rewrite host_chronLatest_snoc. unfold OnHost.laterOf.
    destruct (OnHost.chronLatest h) as [b |] eqn:Eb.
    + destruct (IH b eq_refl) as [Hin [Hmax Hlast]].
      destruct (date_leb (Js.ValueEntry.date b) (Js.ValueEntry.date x)) eqn:Ele;
        intros H; injection H as <-.
      * split; [apply in_app_iff; simpl; auto |]. split.
        -- intros y Hy. apply in_app_iff in Hy.
           destruct Hy as [Hy | [Hy | []]].
           ++ eapply date_leb_trans; [apply Hmax, Hy | exact Ele].
           ++ subst y. apply date_leb_refl.
        -- rewrite filter_app. simpl. unfold sameDate at 2.
           rewrite date_eqb_refl. apply host_lastEntry_snoc.
      * split; [apply in_app_iff; auto |]. split.
        -- intros y Hy. apply in_app_iff in Hy.
           destruct Hy as [Hy | [Hy | []]]; auto. subst y.
           destruct (date_leb_total (Js.ValueEntry.date b) (Js.ValueEntry.date x))
             as [H | H]; [congruence |].
           apply date_leb_lt_or_eq. now left.
        -- rewrite filter_app. simpl. unfold sameDate at 2.
           replace (date_eqb (Js.ValueEntry.date x) (Js.ValueEntry.date b))
             with false.
           ++ now rewrite app_nil_r.
           ++ symmetry. apply date_eqb_neq. intros Heq.
              rewrite Heq, date_leb_refl in Ele. discriminate.
    + apply host_chronLatest_None in Eb. subst h. simpl.
      intros H. injection H as <-.
      split; [now left |]. split.
      * intros y [Hy | []]. subst y. apply date_leb_refl.
      * unfold sameDate. now rewrite date_eqb_refl.
Qed.

(** Only one entry has these three properties. *)
Lemma host_latest_unique (h : list Js.ValueEntry.t) (e e' : Js.ValueEntry.t) :
  In e h -> In e' h ->
  (forall x, In x h ->
     date_leb (Js.ValueEntry.date x) (Js.ValueEntry.date e) = true) ->
  (forall x, In x h ->
     date_leb (Js.ValueEntry.date x) (Js.ValueEntry.date e') = true) ->
  OnHost.lastEntry (filter (sameDate e) h) = Some e ->
  OnHost.lastEntry (filter (sameDate e') h) = Some e' ->
  e = e'.
Proof.
  intros Hin Hin' Hmax Hmax' Hl Hl'.
  assert (Hd : Js.ValueEntry.date e = Js.ValueEntry.date e').
  { apply date_leb_antisym; auto. }
  unfold sameDate in *. rewrite Hd in Hl. congruence.
Qed.

End HostHistoryFacts.

(** ** Value History Merger on the host: the first pass *)

Section HostFirstPassFacts.

Local Abbreviation dget := (JsMap.get date_eqb).

Lemma host_recordEntry_valueOn (i : string) (m : Js.Merger.DailyValues)
    (e : Js.ValueEntry.t) (d : isodate) (j : string) :
  Js.Merger.valueOn (Js.Merger.recordEntry i m e) d j
  = if OnHost.onDate d e && String.eqb i j then Some (Js.ValueEntry.value e)
    else Js.Merger.valueOn m d j.
Proof.
  unfold Js.Merger.recordEntry, Js.Merger.valueOn, JsMap.has, OnHost.onDate.
  destruct (dget m (Js.ValueEntry.date e)) as [inner |] eqn:E.
  - rewrite E.
    destruct (date_eqb (Js.ValueEntry.date e) d) eqn:Ed; simpl.
    + apply date_eqb_eq in Ed. subst d.
      rewrite (@get_set_same _ _ _ date_eqb_eq), E.
      destruct (String.eqb i j) eqn:Ei.
      * apply String.eqb_eq in Ei. subst j.
        apply (@get_set_same _ _ _ String.eqb_eq).
      * apply String.eqb_neq in Ei.
        now apply (@get_set_other _ _ _ String.eqb_eq).
    + apply date_eqb_neq in Ed.
      now rewrite (@get_set_other _ _ _ date_eqb_eq) by exact Ed.
  - rewrite (@get_set_same _ _ _ date_eqb_eq).
    destruct (date_eqb (Js.ValueEntry.date e) d) eqn:Ed; simpl.
    + apply date_eqb_eq in Ed. subst d.
      rewrite (@get_set_same _ _ _ date_eqb_eq), E. simpl.
      now destruct (String.eqb i j).
    + apply date_eqb_neq in Ed.
      now rewrite !(@get_set_other _ _ _ date_eqb_eq) by exact Ed.
Qed.

Lemma host_recordEntry_keys (i : string) (m : Js.Merger.DailyValues)
    (e : Js.ValueEntry.t) (d : isodate) :
  In d (JsMap.keys (Js.Merger.recordEntry i m e))
  <-> In d (JsMap.keys m) \/ d = Js.ValueEntry.date e.
Proof.
  unfold Js.Merger.recordEntry, JsMap.has.
  destruct (dget m (Js.ValueEntry.date e)) as [inner |] eqn:E.
  - rewrite E. apply (@keys_set_In _ _ _ date_eqb_eq).
  - rewrite (@get_set_same _ _ _ date_eqb_eq).
    rewrite !(@keys_set_In _ _ _ date_eqb_eq). tauto.
Qed.

Lemma host_recordEntry_NoDup (i : string) (m : Js.Merger.DailyValues)
    (e : Js.ValueEntry.t) :
  NoDup (JsMap.keys m) -> NoDup (JsMap.keys (Js.Merger.recordEntry i m e)).
Proof.
  intros H. unfold Js.Merger.recordEntry, JsMap.has.
  destruct (dget m (Js.ValueEntry.date e)) as [inner |] eqn:E.
  - rewrite E. now apply (@keys_set_NoDup _ _ _ date_eqb_eq).
  - rewrite (@get_set_same _ _ _ date_eqb_eq).
    now do 2 apply (@keys_set_NoDup _ _ _ date_eqb_eq).
Qed.

(** All the entries of one asset. *)
Lemma host_recordEntries_valueOn (i : string) (es : list Js.ValueEntry.t)
    (m : Js.Merger.DailyValues) (d : isodate) (j : string) :
  Js.Merger.valueOn (fold_left (Js.Merger.recordEntry i) es m) d j
  = if String.eqb i j
    then match OnHost.lastEntry (filter (OnHost.onDate d) es) with
         | Some e => Some (Js.ValueEntry.value e)
         | None => Js.Merger.valueOn m d j
         end
    else Js.Merger.valueOn m d j.
Proof.
  induction es as [| e es IH] using rev_ind.
  - simpl. now destruct (String.eqb i j).
  - rewrite fold_left_app. simpl. rewrite host_recordEntry_valueOn, IH.
    rewrite filter_app. simpl.
    destruct (OnHost.onDate d e); simpl.
    + destruct (String.eqb i j); [now rewrite host_lastEntry_snoc | reflexivity].
    + now rewrite app_nil_r.
Qed.

Lemma host_recordEntries_keys (i : string) (es : list Js.ValueEntry.t)
    (m : Js.Merger.DailyValues) (d : isodate) :
  In d (JsMap.keys (fold_left (Js.Merger.recordEntry i) es m))
  <-> In d (JsMap.keys m) \/ In d (map Js.ValueEntry.date es).
Proof.
  revert m. induction es as [| e es IH]; intros m; simpl.
  - tauto.
  - rewrite IH, host_recordEntry_keys. intuition.
Qed.

Lemma host_recordEntries_NoDup (i : string) (es : list Js.ValueEntry.t)
    (m : Js.Merger.DailyValues) :
  NoDup (JsMap.keys m) ->
  NoDup (JsMap.keys (fold_left (Js.Merger.recordEntry i) es m)).
Proof.
  revert m. induction es as [| e es IH]; intros m H; simpl; auto.
  apply IH. now apply host_recordEntry_NoDup.
Qed.

(** One turn of [assets.forEach] in the first pass. *)
Let recordAsset (m : Js.Merger.DailyValues) (asset : Js.Asset.t)
  : Js.Merger.DailyValues :=
  fold_left (Js.Merger.recordEntry (Js.Asset.id asset))
    (jsSort Js.Merger.byDate (Js.Merger.historyOf asset)) m.

(** Sorting a history by date keeps the entries of one date in the
    order of their insertion. *)
Lemma host_sorted_history_onDate (h : list Js.ValueEntry.t) (d : isodate) :
  filter (OnHost.onDate d) (jsSort Js.Merger.byDate h) = filter (OnHost.onDate d) h.
Proof.
  apply jsSort_filter. intros x y Hx Hy. unfold OnHost.onDate in *.
  apply date_eqb_eq in Hx. apply date_eqb_eq in Hy.
  unfold Js.Merger.byDate. rewrite Hx, Hy, date_compare_refl. discriminate.
Qed.

Lemma host_recordAsset_valueOn (m : Js.Merger.DailyValues) (a : Js.Asset.t)
    (d : isodate) (j : string) :
  Js.Merger.valueOn (recordAsset m a) d j
  = if String.eqb (Js.Asset.id a) j
    then match OnHost.explicitOn a d with
         | Some v => Some v
         | None => Js.Merger.valueOn m d j
         end
    else Js.Merger.valueOn m d j.
Proof.
  unfold recordAsset. rewrite host_recordEntries_valueOn.
  rewrite host_sorted_history_onDate.
  unfold OnHost.explicitOn, OnHost.explicitEntry.
  now destruct (OnHost.lastEntry _).
Qed.

Lemma host_firstPass_fold_valueOn (assets : list Js.Asset.t)
    (m : Js.Merger.DailyValues) (d : isodate) (j : string) :
  NoDup (map Js.Asset.id assets) ->
  Js.Merger.valueOn (fold_left recordAsset assets m) d j
  = match OnHost.findAsset assets j with
    | Some a => match OnHost.explicitOn a d with
                | Some v => Some v
                | None => Js.Merger.valueOn m d j
                end
    | None => Js.Merger.valueOn m d j
    end.
Proof.
  unfold OnHost.findAsset. revert m.
  induction assets as [| a assets IH]; intros m Hnd; simpl.
  - reflexivity.
  - inversion Hnd as [| ? ? Hni Hnd']. subst.
    rewrite IH by exact Hnd'. rewrite host_recordAsset_valueOn.
    destruct (String.eqb (Js.Asset.id a) j) eqn:E.
    + apply String.eqb_eq in E. subst j.
      destruct (find _ assets) as [a' |] eqn:Ef; [| reflexivity].
      exfalso. apply find_some in Ef. destruct Ef as [Hin He].
      apply String.eqb_eq in He. apply Hni. rewrite <- He.
      now apply in_map.
    + reflexivity.
Qed.

Lemma host_findAsset_NoDup (assets : list Js.Asset.t) (a : Js.Asset.t) :
  NoDup (map Js.Asset.id assets) -> In a assets ->
  OnHost.findAsset assets (Js.Asset.id a) = Some a.
Proof.
  unfold OnHost.findAsset.
  induction assets as [| x assets IH]; simpl; [tauto |].
  intros Hnd [-> | Hin].
  - now rewrite String.eqb_refl.
  - inversion Hnd as [| ? ? Hni Hnd']. subst.
    destruct (String.eqb (Js.Asset.id x) (Js.Asset.id a)) eqn:E; auto.
    apply String.eqb_eq in E. exfalso. apply Hni. rewrite E.
    now apply in_map.
Qed.

(** What the first pass knows of an asset on a date. *)
Lemma host_firstPass_valueOn (assets : list Js.Asset.t) (a : Js.Asset.t)
    (d : isodate) :
  NoDup (map Js.Asset.id assets) -> In a assets ->
  Js.Merger.valueOn (Js.Merger.firstPass assets) d (Js.Asset.id a)
  = OnHost.explicitOn a d.
Proof.
  intros Hnd Hin. unfold Js.Merger.firstPass.
  change (Js.Merger.valueOn (fold_left recordAsset assets []) d (Js.Asset.id a)
          = OnHost.explicitOn a d).
  rewrite host_firstPass_fold_valueOn by exact Hnd.
  rewrite (@host_findAsset_NoDup _ _ Hnd Hin).
  now destruct (OnHost.explicitOn a d).
Qed.

Lemma host_firstPass_fold_keys (assets : list Js.Asset.t)
    (m : Js.Merger.DailyValues) (d : isodate) :
  In d (JsMap.keys (fold_left recordAsset assets m))
  <-> In d (JsMap.keys m) \/ In d (OnHost.recordedDates assets).
Proof.
  unfold OnHost.recordedDates. revert m.
  induction assets as [| a assets IH]; intros m; simpl.
  - tauto.
  - rewrite IH. unfold recordAsset. rewrite host_recordEntries_keys.
    rewrite in_app_iff.
    assert (Hs : In d (map Js.ValueEntry.date
                         (jsSort Js.Merger.byDate (Js.Merger.historyOf a)))
                 <-> In d (map Js.ValueEntry.date (Js.Merger.historyOf a))).
    { rewrite !in_map_iff. split; intros [e [He Hin]]; exists e;
        (split; [exact He |]); now apply jsSort_In in Hin || apply jsSort_In. }
    rewrite Hs. tauto.
Qed.

Lemma host_firstPass_keys (assets : list Js.Asset.t) (d : isodate) :
  In d (JsMap.keys (Js.Merger.firstPass assets))
  <-> In d (OnHost.recordedDates assets).
Proof.
  unfold Js.Merger.firstPass.
  change (In d (JsMap.keys (fold_left recordAsset assets []))
          <-> In d (OnHost.recordedDates assets)).
  rewrite host_firstPass_fold_keys. simpl. tauto.
Qed.

Lemma host_firstPass_NoDup (assets : list Js.Asset.t) :
  NoDup (JsMap.keys (Js.Merger.firstPass assets)).
Proof.
  unfold Js.Merger.firstPass.
  assert (H : NoDup (JsMap.keys (@nil (isodate * JsMap.t string float))))
    by constructor.
  revert H. generalize (@nil (isodate * JsMap.t string float)) as m.
  induction assets as [| a assets IH]; intros m H; simpl; auto.
  apply IH. now apply host_recordEntries_NoDup.
Qed.

(** The dates of the series: ascending, each once, those recorded. *)
Lemma host_uniqueDates_sorted (assets : list Js.Asset.t) :
  StronglySorted date_lt (Js.Merger.uniqueDates (Js.Merger.firstPass assets)).
Proof.
  unfold Js.Merger.uniqueDates.
  apply jsSort_sorted.
  - intros x y. reflexivity.
  - intros x y. unfold date_lt. rewrite (date_compare_antisym x y).
    destruct (date_compare x y); simpl; split; congruence.
  - apply date_compare_eq.
  - apply date_lt_trans.
  - apply host_firstPass_NoDup.
Qed.

Lemma host_uniqueDates_In (assets : list Js.Asset.t) (d : isodate) :
  In d (Js.Merger.uniqueDates (Js.Merger.firstPass assets))
  <-> In d (OnHost.recordedDates assets).
Proof.
  unfold Js.Merger.uniqueDates. rewrite jsSort_In. apply host_firstPass_keys.
Qed.

End HostFirstPassFacts.

(** ** Value History Merger on the host: the second pass *)

Section HostSecondPassFacts.
Variable dailyValuesMap : Js.Merger.DailyValues.
Variable assets : list Js.Asset.t.

Local Abbreviation sget := (JsMap.get String.eqb).
Local Abbreviation carryForward :=
  (Js.Merger.carryForward dailyValuesMap assets).
Local Abbreviation walk := (Js.Merger.walk dailyValuesMap assets).
Local Abbreviation isAsset := (OnHost.isAssetOf assets).
Local Abbreviation carried := (OnHost.carriedIn dailyValuesMap).

(** The carried map after the dates [ds]. *)
Let after (ds : list isodate) (cur : JsMap.t string float) : JsMap.t string float :=
  fold_left carryForward ds cur.

Lemma host_walk_acc (ds : list isodate) (cur : JsMap.t string float)
    (acc : list Js.Merger.Point) :
  walk ds cur acc = acc ++ walk ds cur [].
Proof.
  revert cur acc. induction ds as [| d ds IH]; intros cur acc; simpl.
  - now rewrite app_nil_r.
  - rewrite IH. rewrite (IH _ [_]). now rewrite app_assoc.
Qed.

Lemma host_walk_dates (ds : list isodate) (cur : JsMap.t string float) :
  map Js.Merger.date (walk ds cur []) = ds.
Proof.
  revert cur. induction ds as [| d ds IH]; intros cur; simpl.
  - reflexivity.
  - rewrite host_walk_acc. simpl. now rewrite IH.
Qed.

(** What one date does to the carried value of an identifier. *)
Lemma host_carryForward_get (cur : JsMap.t string float) (d : isodate)
    (i : string) :
  sget (carryForward cur d) i
  = match (if isAsset i then Js.Merger.valueOn dailyValuesMap d i else None)
    with
    | Some v => Some v
    | None => sget cur i
    end.
Proof.
  unfold Js.Merger.carryForward, OnHost.isAssetOf. revert cur.
  induction assets as [| a l IH]; intros cur; simpl.
  - reflexivity.
  - rewrite IH. clear IH.
    destruct (String.eqb (Js.Asset.id a) i) eqn:E; simpl.
    + apply String.eqb_eq in E. subst i.
      destruct (Js.Merger.valueOn dailyValuesMap d (Js.Asset.id a)) as [v |].
      * rewrite (@get_set_same _ _ _ String.eqb_eq).
        now destruct (existsb _ l).
      * now destruct (existsb _ l).
    + apply String.eqb_neq in E.
      destruct (Js.Merger.valueOn dailyValuesMap d (Js.Asset.id a)) as [v |].
      * now rewrite (@get_set_other _ _ _ String.eqb_eq) by exact E.
      * reflexivity.
Qed.

Lemma host_carryForward_NoDup (cur : JsMap.t string float) (d : isodate) :
  NoDup (JsMap.keys cur) -> NoDup (JsMap.keys (carryForward cur d)).
Proof.
  unfold Js.Merger.carryForward. revert cur.
  induction assets as [| a l IH]; intros cur H; simpl; auto.
  apply IH. destruct (Js.Merger.valueOn dailyValuesMap d (Js.Asset.id a)); auto.
  now apply (@keys_set_NoDup _ _ _ String.eqb_eq).
Qed.

Lemma host_after_get (ds : list isodate) (cur : JsMap.t string float) (i : string) :
  isAsset i = true ->
  sget (after ds cur) i = carried i ds (sget cur i).
Proof.
  intros Hi. unfold after, OnHost.carriedIn. revert cur.
  induction ds as [| d ds IH]; intros cur; simpl.
  - reflexivity.
  - rewrite IH. f_equal. rewrite host_carryForward_get, Hi. reflexivity.
Qed.

Lemma host_after_NoDup (ds : list isodate) (cur : JsMap.t string float) :
  NoDup (JsMap.keys cur) -> NoDup (JsMap.keys (after ds cur)).
Proof.
  unfold after. revert cur.
  induction ds as [| d ds IH]; intros cur H; simpl; auto.
  apply IH. now apply host_carryForward_NoDup.
Qed.

End HostSecondPassFacts.

(** ** Carrying a history forward on the host *)

Section HostCarryFacts.


Variable h : list Js.ValueEntry.t.

Lemma host_carriedEntry_snoc (ds : list isodate) (d : isodate)
    (start : option Js.ValueEntry.t) :
  OnHost.carriedEntry h (ds ++ [d]) start
  = match OnHost.lastEntry (filter (OnHost.onDate d) h) with
    | Some e => Some e
    | None => OnHost.carriedEntry h ds start
    end.
Proof. unfold OnHost.carriedEntry. now rewrite fold_left_app. Qed.

(** Over ascending dates, the carried entry is the latest of the entries
    whose date is among them. *)
Lemma host_carriedEntry_spec (ds : list isodate) :
  StronglySorted date_lt ds ->
  match OnHost.carriedEntry h ds None with
  | Some e =>
      In e h /\ In (Js.ValueEntry.date e) ds
      /\ (forall x, In x h -> In (Js.ValueEntry.date x) ds ->
            date_leb (Js.ValueEntry.date x) (Js.ValueEntry.date e) = true)
      /\ OnHost.lastEntry (filter (OnHost.onDate (Js.ValueEntry.date e)) h) = Some e
  | None => forall x, In x h -> ~ In (Js.ValueEntry.date x) ds
  end.
Proof.
  induction ds as [| d ds IH] using rev_ind; intros Hs.
  - simpl. intros x _ [].
  - apply sorted_app_inv in Hs. destruct Hs as [Hs [_ Hlt]].
    specialize (IH Hs). rewrite host_carriedEntry_snoc.
    destruct (OnHost.lastEntry (filter (OnHost.onDate d) h)) as [e |] eqn:El.
    + assert (He := host_lastEntry_In _ El). apply filter_In in He.
      destruct He as [Hin Hd]. unfold OnHost.onDate in Hd.
      apply date_eqb_eq in Hd.
      split; [exact Hin |].
      split; [rewrite Hd; apply in_app_iff; simpl; auto |].
      split; [| now rewrite Hd].
      intros x Hx Hxd. rewrite Hd. apply in_app_iff in Hxd.
      destruct Hxd as [Hxd | [<- | []]].
      * apply date_leb_lt_or_eq. left. apply Hlt; simpl; auto.
      * apply date_leb_refl.
    + apply host_lastEntry_None in El.
      assert (Hno : forall x, In x h -> Js.ValueEntry.date x <> d).
      { intros x Hx Hd.
        assert (Hf : In x (filter (OnHost.onDate d) h)).
        { apply filter_In. split; auto. unfold OnHost.onDate.
          now apply date_eqb_eq. }
        rewrite El in Hf. exact Hf. }
      destruct (OnHost.carriedEntry h ds None) as [e |].
      * destruct IH as [Hin [Hd [Hmax Hl]]].
        split; [exact Hin |].
        split; [apply in_app_iff; auto |].
        split; [| exact Hl].
        intros x Hx Hxd. apply in_app_iff in Hxd.
        destruct Hxd as [Hxd | [Hxd | []]]; auto.
        exfalso. now apply (Hno x Hx).
      * intros x Hx Hxd. apply in_app_iff in Hxd.
        destruct Hxd as [Hxd | [Hxd | []]].
        -- now apply (IH x Hx).
        -- now apply (Hno x Hx).
Qed.

Lemma host_filter_filter_imp (p q : Js.ValueEntry.t -> bool) (l : list Js.ValueEntry.t) :
  (forall x, p x = true -> q x = true) ->
  filter p (filter q l) = filter p l.
Proof.
  intros Hpq. induction l as [| x l IH]; simpl; auto.
  destruct (q x) eqn:Eq; simpl.
  - now rewrite IH.
  - destruct (p x) eqn:Ep; auto.
    apply Hpq in Ep. congruence.
Qed.

(** At a date [d] of an ascending list of dates holding every date of
    the history, what has been carried up to [d] is the
    chronologically latest entry dated on or before [d]. *)
Lemma host_carriedEntry_chronLatest (ds1 ds2 : list isodate) (d : isodate) :
  StronglySorted date_lt (ds1 ++ d :: ds2) ->
  (forall x, In x h -> In (Js.ValueEntry.date x) (ds1 ++ d :: ds2)) ->
  OnHost.carriedEntry h (ds1 ++ [d]) None
  = OnHost.chronLatest (filter (fun e => date_leb (Js.ValueEntry.date e) d) h).
Proof.
  intros Hs Hall.
  apply sorted_app_inv in Hs. destruct Hs as [Hs1 [Hs2 Hlt]].
  inversion Hs2 as [| ? ? Hs2' Hgt]. subst.
  rewrite Forall_forall in Hgt.
  assert (Hpre : StronglySorted date_lt (ds1 ++ [d])).
  { apply sorted_snoc; auto. intros x Hx. apply Hlt; simpl; auto. }
  assert (Hiff : forall x, In x h ->
                   (In (Js.ValueEntry.date x) (ds1 ++ [d])
                    <-> date_leb (Js.ValueEntry.date x) d = true)).
  { intros x Hx. split.
    - intros Hd. apply in_app_iff in Hd.
      destruct Hd as [Hd | [<- | []]].
      + apply date_leb_lt_or_eq. left. apply Hlt; simpl; auto.
      + apply date_leb_refl.
    - intros Hle. specialize (Hall x Hx). apply in_app_iff in Hall.
      apply in_app_iff.
      destruct Hall as [Hd | [Hd | Hd]]; simpl; auto.
      apply Hgt in Hd. apply date_lt_not_leb in Hd. congruence. }
  set (L := filter (fun e => date_leb (Js.ValueEntry.date e) d) h).
  assert (HL : forall x, In x L
                 <-> In x h /\ In (Js.ValueEntry.date x) (ds1 ++ [d])).
  { intros x. unfold L. rewrite filter_In. split.
    - intros [Hx Hle]. split; auto. now apply Hiff.
    - intros [Hx Hd]. split; auto. now apply Hiff. }
  assert (Hc := host_carriedEntry_spec Hpre).
  destruct (OnHost.chronLatest L) as [e' |] eqn:Ec.
  - apply host_chronLatest_spec in Ec. destruct Ec as [Hin' [Hmax' Hl']].
    destruct (OnHost.carriedEntry h (ds1 ++ [d]) None) as [e |].
    + destruct Hc as [Hin [Hd [Hmax Hl]]]. f_equal.
      apply (@host_latest_unique L e e').
      * apply HL. auto.
      * exact Hin'.
      * intros x Hx. apply HL in Hx. now apply Hmax.
      * exact Hmax'.
      * unfold L.
        rewrite host_filter_filter_imp; [exact Hl |].
        intros x Hx. unfold OnHost.onDate in Hx. apply date_eqb_eq in Hx.
        rewrite Hx. apply Hiff; auto.
      * exact Hl'.
    + exfalso. apply HL in Hin'. destruct Hin' as [H1 H2].
      now apply (Hc e').
  - apply host_chronLatest_None in Ec.
    destruct (OnHost.carriedEntry h (ds1 ++ [d]) None) as [e |]; auto.
    exfalso. destruct Hc as [Hin [Hd _]].
    assert (He : In e L) by (apply HL; auto).
    rewrite Ec in He. exact He.
Qed.

(** Values are carried as entries are. *)
Lemma host_carriedIn_entry (dailyValuesMap : Js.Merger.DailyValues) (i : string)
    (ds : list isodate) (start : option Js.ValueEntry.t) :
  (forall d, Js.Merger.valueOn dailyValuesMap d i
             = option_map Js.ValueEntry.value
                 (OnHost.lastEntry (filter (OnHost.onDate d) h))) ->
  OnHost.carriedIn dailyValuesMap i ds (option_map Js.ValueEntry.value start)
  = option_map Js.ValueEntry.value (OnHost.carriedEntry h ds start).
Proof.
  intros Hv. unfold OnHost.carriedIn, OnHost.carriedEntry. revert start.
  induction ds as [| d ds IH]; intros start; simpl.
  - reflexivity.
  - rewrite Hv. rewrite <- IH. f_equal.
    now destruct (OnHost.lastEntry (filter (OnHost.onDate d) h)).
Qed.

End HostCarryFacts.

(** ** The order of the carried map *)

Section HostKeyOrderFacts.

Lemma filter_nil_existsb (A : Type) (p : A -> bool) (l : list A) :
  filter p l = [] <-> existsb p l = false.
Proof.
  induction l as [| x l IH]; simpl; [tauto |].
  destruct (p x); simpl; [split; discriminate | exact IH].
Qed.

Lemma explicitOn_None (a : Js.Asset.t) (d : isodate) :
  OnHost.explicitOn a d = None
  <-> existsb (OnHost.onDate d) (Js.Merger.historyOf a) = false.
Proof.
  unfold OnHost.explicitOn, OnHost.explicitEntry.
  rewrite <- filter_nil_existsb, <- host_lastEntry_None.
  destruct (OnHost.lastEntry _); simpl; split; congruence.
Qed.

Lemma carriedIn_None (D : Js.Merger.DailyValues) (i : string)
    (ds : list isodate) (start : option float) :
  OnHost.carriedIn D i ds start = None
  <-> start = None /\ forall d, In d ds -> Js.Merger.valueOn D d i = None.
Proof.
  unfold OnHost.carriedIn. revert start.
  induction ds as [| d ds IH]; intros start; simpl.
  - split; [intros ->; split; [reflexivity | intros d []] | tauto].
  - rewrite IH. destruct (Js.Merger.valueOn D d i) eqn:E.
    + split; [intros [H _]; discriminate H |].
      intros [_ H]. specialize (H d (or_introl eq_refl)). congruence.
    + split.
      * intros [-> H]. split; auto. intros d' [<- | Hd]; auto.
      * intros [-> H]. split; auto.
Qed.

(** One date appends to the carried map, in the order of the
    collection, the assets that have a value on the date and no key
    yet. *)
Lemma carryForward_key_order (D : Js.Merger.DailyValues)
    (assets : list Js.Asset.t) (cur : JsMap.t string float) (d : isodate) :
  NoDup (map Js.Asset.id assets) ->
  JsMap.keys (Js.Merger.carryForward D assets cur d)
  = JsMap.keys cur
    ++ map Js.Asset.id
         (filter
            (fun a =>
               match Js.Merger.valueOn D d (Js.Asset.id a) with
               | Some _ => negb (JsMap.has String.eqb cur (Js.Asset.id a))
               | None => false
               end)
            assets).
Proof.
  unfold Js.Merger.carryForward. revert cur.
  induction assets as [| a assets IH]; intros cur Hnd; simpl.
  - now rewrite app_nil_r.
  - inversion Hnd as [| ? ? Hni Hnd']. subst. rewrite IH by exact Hnd'.
    destruct (Js.Merger.valueOn D d (Js.Asset.id a)) as [v |] eqn:E;
      [| reflexivity].
    rewrite keys_set.
    erewrite filter_ext_in with (l := assets).
    + destruct (JsMap.has String.eqb cur (Js.Asset.id a)); simpl;
        [reflexivity | now rewrite <- app_assoc].
    + intros a0 H0. cbv beta.
      destruct (Js.Merger.valueOn D d (Js.Asset.id a0)); auto.
      f_equal. unfold JsMap.has.
      rewrite (@get_set_other _ _ _ String.eqb_eq); auto.
      intros Heq. apply Hni. rewrite Heq. now apply in_map.
Qed.

(** The values of a map whose keys are those of a list, in its
    order. *)
Lemma values_by_keys (A V : Type) (key : A -> string) (f : A -> option V)
    (m : JsMap.t string V) (l : list A) :
  NoDup (JsMap.keys m) ->
  JsMap.keys m = map key l ->
  (forall a, In a l -> JsMap.get String.eqb m (key a) = f a) ->
  JsMap.values m
  = flat_map (fun a => match f a with Some v => [v] | None => [] end) l.
Proof.
  revert l. induction m as [| [k v] m IH]; intros l Hnd Hk Hf.
  - destruct l; [reflexivity | discriminate Hk].
  - destruct l as [| a l]; [discriminate Hk |].
    simpl in Hk. injection Hk as Hka Hk'.
    inversion Hnd as [| ? ? Hni Hnd']. subst.
    assert (Ha := Hf a (or_introl eq_refl)). simpl in Ha.
    rewrite String.eqb_refl in Ha. cbn [flat_map]. rewrite <- Ha.
    simpl. f_equal. apply IH; auto.
    intros a' Ha'. rewrite <- (Hf a' (or_intror Ha')). simpl.
    destruct (String.eqb_spec (key a) (key a')) as [E | E];
      [| reflexivity].
    exfalso. apply Hni. rewrite E.
    assert (X : In (key a') (map key l)) by now apply in_map.
    rewrite <- Hk' in X. exact X.
Qed.

(** A history that is not empty has an earliest entry. *)
Lemma earliest_entry (h : list Js.ValueEntry.t) :
  h <> [] ->
  exists e, In e h
            /\ forall x, In x h ->
                 date_leb (Js.ValueEntry.date e) (Js.ValueEntry.date x)
                 = true.
Proof.
  induction h as [| x h IH]; [congruence |]. intros _.
  destruct h as [| y h].
  - exists x. split; [now left |]. intros z [<- | []].
    apply date_leb_refl.
  - destruct IH as [e [He Hall]]; [discriminate |].
    destruct (date_leb_total (Js.ValueEntry.date x)
                (Js.ValueEntry.date e)) as [H | H].
    + exists x. split; [now left |]. intros z [<- | Hz].
      * apply date_leb_refl.
      * eapply date_leb_trans; [exact H | now apply Hall].
    + exists e. split; [now right |]. intros z [<- | Hz].
      * apply date_leb_lt_or_eq. now left.
      * now apply Hall.
Qed.

Lemma startsOn_spec (d : isodate) (a : Js.Asset.t) :
  OnHost.startsOn d a = true
  <-> (exists e, In e (Js.Merger.historyOf a) /\ Js.ValueEntry.date e = d)
      /\ forall x, In x (Js.Merger.historyOf a) ->
           date_leb d (Js.ValueEntry.date x) = true.
Proof.
  unfold OnHost.startsOn.
  rewrite andb_true_iff, existsb_exists, forallb_forall.
  unfold OnHost.onDate. split.
  - intros [[e [He Hd]] H]. apply date_eqb_eq in Hd. eauto.
  - intros [[e [He Hd]] H]. split; auto. exists e. split; auto.
    now apply date_eqb_eq.
Qed.

Lemma startsOn_one_date (a : Js.Asset.t) (d d' : isodate) :
  OnHost.startsOn d a = true -> OnHost.startsOn d' a = true -> d = d'.
Proof.
  rewrite !startsOn_spec.
  intros [[e [He <-]] H] [[e' [He' <-]] H'].
  apply date_leb_antisym; auto.
Qed.

End HostKeyOrderFacts.

(** ** The merged series on the host *)

Section HostMergerFacts.
Variable assets : list Js.Asset.t.
Hypothesis distinct_ids : NoDup (map Js.Asset.id assets).

Let D := Js.Merger.firstPass assets.
Let uds := Js.Merger.uniqueDates D.

Lemma host_isAssetOf_In (a : Js.Asset.t) :
  In a assets -> OnHost.isAssetOf assets (Js.Asset.id a) = true.
Proof.
  intros H. unfold OnHost.isAssetOf. apply existsb_exists.
  exists a. split; [exact H | apply String.eqb_refl].
Qed.

Lemma host_history_dates (a : Js.Asset.t) (x : Js.ValueEntry.t) :
  In a assets -> In x (Js.Merger.historyOf a) ->
  In (Js.ValueEntry.date x) uds.
Proof.
  intros Ha Hx. apply host_uniqueDates_In.
  unfold OnHost.recordedDates. apply in_flat_map. exists a.
  split; [exact Ha | now apply in_map].
Qed.

(** The value carried for an asset at a date of the series is the value
    the asset is known to have on that date. *)
Lemma host_carried_knownValue (a : Js.Asset.t) (ds1 ds2 : list isodate)
    (d : isodate) :
  In a assets ->
  uds = ds1 ++ d :: ds2 ->
  JsMap.get String.eqb
    (fold_left (Js.Merger.carryForward D assets) (ds1 ++ [d]) [])
    (Js.Asset.id a)
  = OnHost.knownValue a d.
Proof.
  intros Hin Huds.
  rewrite host_after_get by (now apply host_isAssetOf_In).
  change (JsMap.get String.eqb [] (Js.Asset.id a))
    with (option_map Js.ValueEntry.value None).
  rewrite (@host_carriedIn_entry (Js.Merger.historyOf a)).
  - unfold OnHost.knownValue. f_equal.
    apply host_carriedEntry_chronLatest with (ds2 := ds2).
    + rewrite <- Huds. apply host_uniqueDates_sorted.
    + intros x Hx. rewrite <- Huds.
      exact (@host_history_dates a x Hin Hx).
  - intros d'. unfold D. now rewrite host_firstPass_valueOn.
Qed.

(** An asset gets its key on the date on which its history begins. *)
Lemma entry_condition (a : Js.Asset.t) (ds ds2 : list isodate)
    (d : isodate) :
  In a assets ->
  uds = ds ++ d :: ds2 ->
  match Js.Merger.valueOn D d (Js.Asset.id a) with
  | Some _ =>
      negb
        (JsMap.has String.eqb
           (fold_left (Js.Merger.carryForward D assets) ds [])
           (Js.Asset.id a))
  | None => false
  end
  = OnHost.startsOn d a.
Proof.
  intros Hin Huds.
  assert (Hs : StronglySorted date_lt (ds ++ d :: ds2)).
  { rewrite <- Huds. apply host_uniqueDates_sorted. }
  destruct (sorted_app_inv _ _ Hs) as [_ [Hs2 Hlt]].
  inversion Hs2 as [| ? ? _ Hgt]. subst. rewrite Forall_forall in Hgt.
  unfold D. rewrite host_firstPass_valueOn by assumption. fold D.
  unfold JsMap.has.
  rewrite host_after_get by (now apply host_isAssetOf_In).
  change (JsMap.get String.eqb [] (Js.Asset.id a)) with (@None float).
  destruct (OnHost.explicitOn a d) as [v |] eqn:E.
  - assert (Hex : existsb (OnHost.onDate d) (Js.Merger.historyOf a) = true).
    { destruct (existsb (OnHost.onDate d) (Js.Merger.historyOf a)) eqn:X;
        [reflexivity |].
      apply explicitOn_None in X. congruence. }
    unfold OnHost.startsOn. rewrite Hex. simpl.
    destruct (OnHost.carriedIn D (Js.Asset.id a) ds None) eqn:C.
    + (* an earlier date holds a value *)
      simpl. symmetry. apply not_true_is_false. intros F.
      rewrite forallb_forall in F.
      assert (N : OnHost.carriedIn D (Js.Asset.id a) ds None <> None)
        by congruence.
      apply N. apply carriedIn_None. split; [reflexivity |].
      intros d' Hd'. unfold D.
      rewrite host_firstPass_valueOn by assumption.
      apply explicitOn_None.
      destruct (existsb (OnHost.onDate d') (Js.Merger.historyOf a)) eqn:X;
        [| reflexivity].
      apply existsb_exists in X. destruct X as [e [He Hd]].
      unfold OnHost.onDate in Hd. apply date_eqb_eq in Hd.
      specialize (F e He). rewrite Hd in F.
      assert (L : date_lt d' d) by (apply Hlt; [exact Hd' | now left]).
      apply date_lt_not_leb in L. congruence.
    + simpl. symmetry. apply forallb_forall. intros e He.
      apply carriedIn_None in C. destruct C as [_ C].
      assert (Hu := @host_history_dates a e Hin He).
      rewrite Huds in Hu. apply in_app_iff in Hu.
      destruct Hu as [Hu | [Hu | Hu]].
      * exfalso. specialize (C _ Hu). unfold D in C.
        rewrite host_firstPass_valueOn in C by assumption.
        apply explicitOn_None in C.
        assert (T : existsb (OnHost.onDate (Js.ValueEntry.date e))
                      (Js.Merger.historyOf a) = true).
        { apply existsb_exists. exists e. split; auto.
          apply date_eqb_refl. }
        congruence.
      * rewrite <- Hu. apply date_leb_refl.
      * apply date_leb_lt_or_eq. left. now apply Hgt.
  - apply explicitOn_None in E. unfold OnHost.startsOn. now rewrite E.
Qed.

Lemma after_key_order (ds ds2 : list isodate) :
  uds = ds ++ ds2 ->
  JsMap.keys (fold_left (Js.Merger.carryForward D assets) ds [])
  = map Js.Asset.id (OnHost.entryOrder assets ds).
Proof.
  revert ds2. induction ds as [| d ds IH] using rev_ind; intros ds2 Huds.
  - reflexivity.
  - rewrite <- app_assoc in Huds. simpl in Huds.
    rewrite fold_left_app. cbn [fold_left].
    rewrite carryForward_key_order by exact distinct_ids.
    rewrite (IH _ Huds). unfold OnHost.entryOrder.
    rewrite flat_map_app, map_app. cbn [flat_map]. rewrite app_nil_r.
    f_equal. f_equal. apply filter_ext_in. intros a Ha.
    now apply entry_condition with (ds2 := ds2).
Qed.

Lemma entryOrder_In (ds : list isodate) (a : Js.Asset.t) :
  In a (OnHost.entryOrder assets ds) -> In a assets.
Proof.
  unfold OnHost.entryOrder. rewrite in_flat_map.
  intros [d [_ H]]. apply filter_In in H. tauto.
Qed.

(** The sum of a point: the values known on its date, in the order in
    which the assets entered the map. *)
Lemma carried_values (ds1 ds2 : list isodate) (d : isodate) :
  uds = ds1 ++ d :: ds2 ->
  Js.Merger.sumValues
    (fold_left (Js.Merger.carryForward D assets) (ds1 ++ [d]) [])
  = OnHost.sumInOrder (OnHost.heldValues assets (ds1 ++ [d]) d).
Proof.
  intros Huds. unfold Js.Merger.sumValues, OnHost.sumInOrder,
    OnHost.heldValues. f_equal.
  apply values_by_keys with (key := Js.Asset.id).
  - apply host_after_NoDup. constructor.
  - apply after_key_order with (ds2 := ds2).
    now rewrite <- app_assoc.
  - intros a Ha. apply host_carried_knownValue with (ds2 := ds2); auto.
    now apply entryOrder_In in Ha.
Qed.

(** The assets in the map at a date are those that have a value known
    on it. *)
Lemma entryOrder_known (ds1 ds2 : list isodate) (d : isodate) :
  uds = ds1 ++ d :: ds2 ->
  Permutation (OnHost.entryOrder assets (ds1 ++ [d]))
    (filter
       (fun a =>
          match OnHost.knownValue a d with
          | Some _ => true
          | None => false
          end)
       assets).
Proof.
  intros Huds.
  assert (Hs : StronglySorted date_lt (ds1 ++ d :: ds2)).
  { rewrite <- Huds. apply host_uniqueDates_sorted. }
  destruct (sorted_app_inv _ _ Hs) as [Hs1 [Hs2 Hlt]].
  inversion Hs2 as [| ? ? _ Hgt]. subst. rewrite Forall_forall in Hgt.
  unfold OnHost.entryOrder.
  rewrite (@groups_partition isodate Js.Asset.t OnHost.startsOn).
  - erewrite filter_ext_in; [reflexivity |]. intros a Ha. cbv beta.
    unfold OnHost.knownValue.
    destruct (OnHost.chronLatest _) as [e |] eqn:C; simpl.
    + apply host_chronLatest_spec in C. destruct C as [He _].
      apply filter_In in He. destruct He as [He Hle].
      destruct (@earliest_entry (Js.Merger.historyOf a)) as [e0 [He0 Hmin]].
      { intros N. rewrite N in He. destruct He. }
      apply existsb_exists. exists (Js.ValueEntry.date e0). split.
      * assert (Hu := @host_history_dates a e0 Ha He0).
        rewrite Huds in Hu. apply in_app_iff in Hu.
        destruct Hu as [Hu | [Hu | Hu]].
        -- apply in_app_iff. now left.
        -- apply in_app_iff. right. now left.
        -- exfalso. apply Hgt in Hu.
           assert (L : date_leb (Js.ValueEntry.date e0) d = true).
           { eapply date_leb_trans; [apply (Hmin e He) | exact Hle]. }
           apply date_lt_not_leb in Hu. congruence.
      * apply startsOn_spec. split; eauto.
    + apply host_chronLatest_None in C.
      apply not_true_is_false. intros X.
      apply existsb_exists in X. destruct X as [d' [Hd' X]].
      apply startsOn_spec in X. destruct X as [[e [He Hd]] _].
      assert (Hin' : In e
                (filter (fun e => date_leb (Js.ValueEntry.date e) d)
                   (Js.Merger.historyOf a))).
      { apply filter_In. split; [exact He |]. rewrite Hd.
        apply in_app_iff in Hd'. destruct Hd' as [Hd' | [<- | []]].
        - apply date_leb_lt_or_eq. left. apply Hlt; [exact Hd' | now left].
        - apply date_leb_refl. }
      rewrite C in Hin'. destruct Hin'.
  - intros a k k'. apply startsOn_one_date.
  - assert (Hs' : StronglySorted date_lt (ds1 ++ [d])).
    { apply sorted_snoc; auto. intros x Hx. apply Hlt; [exact Hx | now left]. }
    clear - Hs'. induction Hs' as [| x l Hs IH Hall]; constructor; auto.
    intros Hin. rewrite Forall_forall in Hall.
    apply (date_lt_irrefl (Hall x Hin)).
Qed.

(** The points of the series, by their place. *)
Lemma host_walk_place (ds : list isodate) (cur : JsMap.t string float)
    (before after : list Js.Merger.Point) (p : Js.Merger.Point) :
  Js.Merger.walk D assets ds cur [] = before ++ p :: after ->
  ds = map Js.Merger.date before ++ Js.Merger.date p
       :: map Js.Merger.date after
  /\ Js.Merger.totalNetWorth p
     = Js.round2
         (Js.Merger.sumValues
            (fold_left (Js.Merger.carryForward D assets)
               (map Js.Merger.date before ++ [Js.Merger.date p]) cur)).
Proof.
  revert cur before. induction ds as [| d ds IH]; intros cur before H.
  - destruct before; discriminate H.
  - simpl in H. rewrite host_walk_acc in H.
    destruct before as [| b before]; simpl in H.
    + injection H as Hp Ha. subst p. simpl. split; [| reflexivity].
      f_equal. rewrite <- Ha. symmetry. apply host_walk_dates.
    + injection H as Hb Hw. subst b. simpl.
      destruct (IH _ _ Hw) as [E1 E2]. split; [now f_equal | exact E2].
Qed.

Lemma host_point (before after : list Js.Merger.Point)
    (p : Js.Merger.Point) :
  Js.Merger.chartData assets = before ++ p :: after ->
  Js.Merger.totalNetWorth p
  = Js.round2
      (OnHost.sumInOrder
         (OnHost.heldValues assets
            (map Js.Merger.date before ++ [Js.Merger.date p])
            (Js.Merger.date p)))
  /\ Permutation
       (OnHost.entryOrder assets
          (map Js.Merger.date before ++ [Js.Merger.date p]))
       (filter
          (fun a =>
             match OnHost.knownValue a (Js.Merger.date p) with
             | Some _ => true
             | None => false
             end)
          assets).
Proof.
  intros H. unfold Js.Merger.chartData in H.
  apply host_walk_place in H. destruct H as [Hu Ht]. fold D uds in Hu.
  split.
  - rewrite Ht. f_equal.
    now apply carried_values with (ds2 := map Js.Merger.date after).
  - now apply entryOrder_known with (ds2 := map Js.Merger.date after).
Qed.

End HostMergerFacts.

(** C1, as stated, fails.  Two assets worth 0.12 and 0.005 on one date:
    the sum of the two values, rounded to two decimals, is 0.12 (a
    hundred times the sum lies between 11.5 and 12.5), and the series
    holds 0.13, the rounding of the binary64 sum 0.125.  Three assets
    worth 0.001, 0.009 and 0.015 on one date: the series holds 0.02 or
    0.03 with the order of the assets in the collection. *)
Lemma series_total_is_not_the_exact_sum :
  Js.Merger.chartData [twelveCents; halfCent]
  = [Js.Merger.mk (mkDate 2024 1 1) 0.13]
  /\ OnHost.knownValue twelveCents (mkDate 2024 1 1) = Some 0.12%float
  /\ OnHost.knownValue halfCent (mkDate 2024 1 1) = Some 0.005%float
  /\ (12 - (1 # 2) <= 100 * (exactValue 0.12 + exactValue 0.005))%Q
  /\ (100 * (exactValue 0.12 + exactValue 0.005) < 12 + (1 # 2))%Q
  /\ PrimFloat.eqb 0.13 0.12 = false
  /\ Js.Merger.chartData [smallX; smallY; smallZ]
     = [Js.Merger.mk (mkDate 2024 1 1) 0.02]
  /\ Js.Merger.chartData [smallZ; smallY; smallX]
     = [Js.Merger.mk (mkDate 2024 1 1) 0.03]
  /\ PrimFloat.eqb 0.02 0.03 = false.
Proof.
  split; [reflexivity |]. split; [reflexivity |].
  split; [reflexivity |].
  split; [vm_compute; discriminate |].
  split; [vm_compute; reflexivity |].
  split; [reflexivity |]. split; [reflexivity |].
  split; reflexivity.
Qed.

(** C1, amended.  For every collection of assets, the series of the
    merger has one point per distinct date found in any asset's
    [valueHistory], in ascending order of date.  When the assets have
    distinct identifiers, [totalNetWorth] at a date is the binary64 sum
    from [0], rounded by [toFixed(2)], of the value of the most recent
    entry dated on or before that date of every asset that has one, an
    asset without such an entry adding no term; the values are added in
    the order in which the histories of the assets begin, assets whose
    histories begin on one date in the order of the collection.  Asset A
    with history [{2024-01-01, 100}] and asset B with history
    [{2024-01-02, 50}] give the series [{2024-01-01, 100}, {2024-01-02,
    150}]; assets worth 0.12 and 0.005 on one date give 0.13. *)
Theorem merged_series_in_entry_order (assets : list Js.Asset.t) :
  StronglySorted date_lt (map Js.Merger.date (Js.Merger.chartData assets))
  /\ (forall d,
         In d (map Js.Merger.date (Js.Merger.chartData assets))
         <-> In d (OnHost.recordedDates assets))
  /\ (NoDup (map Js.Asset.id assets) ->
      forall before p after,
        Js.Merger.chartData assets = before ++ p :: after ->
        Js.Merger.totalNetWorth p
        = Js.round2
            (OnHost.sumInOrder
               (OnHost.heldValues assets
                  (map Js.Merger.date before ++ [Js.Merger.date p])
                  (Js.Merger.date p)))
        /\ Permutation
             (OnHost.entryOrder assets
                (map Js.Merger.date before ++ [Js.Merger.date p]))
             (filter
                (fun a =>
                   match OnHost.knownValue a (Js.Merger.date p) with
                   | Some _ => true
                   | None => false
                   end)
                assets))
  /\ Js.Merger.chartData [hostAssetA; hostAssetB]
     = [ Js.Merger.mk (mkDate 2024 1 1) 100;
         Js.Merger.mk (mkDate 2024 1 2) 150 ]
  /\ Js.Merger.chartData [twelveCents; halfCent]
     = [Js.Merger.mk (mkDate 2024 1 1) 0.13].
Proof.
  split; [| split; [| split; [| split]]].
  - unfold Js.Merger.chartData. rewrite host_walk_dates.
    apply host_uniqueDates_sorted.
  - intros d. unfold Js.Merger.chartData. rewrite host_walk_dates.
    apply host_uniqueDates_In.
  - intros Hnd before p after H. now apply host_point with (after := after).
  - reflexivity.
  - reflexivity.
Qed.

(** ** Further properties on the host *)

Section HostYearsOrderFacts.
Variable behind : Js.host.

Lemma host_addYears_NoDup (dates : list isodate) (years : list Z) :
  NoDup years -> NoDup (Js.Monthly.addYears behind years dates).
Proof.
  unfold Js.Monthly.addYears. revert years.
  induction dates as [| d dates IH]; intros years H; simpl; auto.
  apply IH. now apply JsSet_add_NoDup.
Qed.

Lemma host_availableYears_descending (currentYear : Z)
    (income expenses : list Js.Tx.t) :
  StronglySorted (fun a b => (b < a)%Z)
    (Js.Monthly.availableYears behind currentYear income expenses).
Proof.
  unfold Js.Monthly.availableYears.
  apply jsSort_sorted.
  - intros x y. rewrite Z.compare_lt_iff. reflexivity.
  - intros x y. rewrite Z.compare_gt_iff. reflexivity.
  - intros x y H. apply Z.compare_eq in H. congruence.
  - intros x y z. lia.
  - repeat apply host_addYears_NoDup. repeat apply JsSet_add_NoDup.
    constructor.
Qed.

End HostYearsOrderFacts.

(** X4.  The list of available years is strictly descending, so no
    year occurs twice, and it holds these years and no other: the current
    year, the one before, the one after, the year in which the host
    reads the date of every transaction, and the year in which it reads
    the end date of every recurring transaction that has one.  In a host
    behind UTC a date of 2029-01-01 thus offers 2028, and 2029 only if
    something else does. *)
Theorem available_years_as_host_reads (behind : Js.host) (currentYear : Z)
    (income expenses : list Js.Tx.t) :
  StronglySorted (fun a b => (b < a)%Z)
    (Js.Monthly.availableYears behind currentYear income expenses)
  /\ (forall x,
         In x (Js.Monthly.availableYears behind currentYear income expenses)
         <-> x = currentYear \/ x = (currentYear - 1)%Z
             \/ x = (currentYear + 1)%Z
             \/ (exists t, In t (income ++ expenses)
                           /\ x = getFullYear
                                    (Js.newDate behind (Js.Tx.date t)))
             \/ (exists t e, In t (income ++ expenses)
                             /\ Js.Tx.isRecurring t = true
                             /\ Js.Tx.endDate t = Some e
                             /\ x = getFullYear (Js.newDate behind e)))
  /\ Js.Monthly.availableYears Js.west 2024
       [oneOffIncome "i13" (Js.VNum 10) (mkDate 2029 1 1)] []
     = [2028; 2025; 2024; 2023]%Z
  /\ Js.Monthly.availableYears Js.utc 2024
       [oneOffIncome "i13" (Js.VNum 10) (mkDate 2029 1 1)] []
     = [2029; 2025; 2024; 2023]%Z.
Proof.
  split; [apply host_availableYears_descending |].
  split; [intros x; apply host_availableYears_In |].
  split; reflexivity.
Qed.

(** X6.  In every host, the months in which a transaction passes the
    month filter have no gap: a transaction active in two months is active in
    every month between them.  A transaction active in some month is
    active in the month in which the host reads its date and, when it is
    recurring monthly with an end date, in the month in which the host
    reads that end date; one that is recurring monthly without an end
    date is active in every later month too. *)
Theorem activity_has_no_gap_on_host
    (behind : Js.host) (t : Js.Tx.t) (a : ym) :
  Js.Monthly.monthFilter behind (monthDate a) t = true ->
  (forall b c : ym,
      Js.Monthly.monthFilter behind (monthDate c) t = true ->
      ym_le a b -> ym_le b c ->
      Js.Monthly.monthFilter behind (monthDate b) t = true)
  /\ Js.Monthly.monthFilter behind
       (monthDate (hostYm behind (Js.Tx.date t))) t = true
  /\ (forall e,
         monthlyRecurring t = true -> Js.Tx.endDate t = Some e ->
         Js.Monthly.monthFilter behind (monthDate (hostYm behind e)) t
         = true)
  /\ (monthlyRecurring t = true -> Js.Tx.endDate t = None ->
      forall b, ym_le a b ->
        Js.Monthly.monthFilter behind (monthDate b) t = true).
Proof.
  rewrite monthFilter_on_host. intros Ha.
  split; [| split; [| split]].
  - intros b c. rewrite !monthFilter_on_host. intros Hc Hab Hbc.
    destruct (monthlyRecurring t).
    + destruct Ha as [Ha1 Ha2], Hc as [Hc1 Hc2]. split.
      * exact (ym_le_trans Ha1 Hab).
      * destruct (Js.Tx.endDate t); [| exact I].
        exact (ym_le_trans Hbc Hc2).
    + rewrite Ha. rewrite Ha in Hc. subst c.
      now apply ym_le_antisym.
  - rewrite monthFilter_on_host.
    destruct (monthlyRecurring t); [| reflexivity].
    destruct Ha as [Ha1 Ha2]. split; [apply ym_le_refl |].
    destruct (Js.Tx.endDate t); [| exact I].
    exact (ym_le_trans Ha1 Ha2).
  - intros e Hr He. rewrite monthFilter_on_host. rewrite Hr in *.
    rewrite He in *. destruct Ha as [Ha1 Ha2].
    split; [exact (ym_le_trans Ha1 Ha2) | apply ym_le_refl].
  - intros Hr He b Hab. rewrite monthFilter_on_host. rewrite Hr in *.
    rewrite He in *. destruct Ha as [Ha1 _].
    split; [exact (ym_le_trans Ha1 Hab) | exact I].
Qed.

Lemma activity_has_no_gap_on_host_witness :
  Js.Monthly.monthFilter Js.west (monthDate (2024, 3)%Z) courseFees = true
  /\ Js.Monthly.monthFilter Js.west (monthDate (2024, 4)%Z) courseFees
     = true
  /\ Js.Monthly.monthFilter Js.west (monthDate (2024, 5)%Z) courseFees
     = true.
Proof.
  assert (Ha : Js.Monthly.monthFilter Js.west (monthDate (2024, 3)%Z)
                 courseFees = true) by reflexivity.
  assert (Hc : Js.Monthly.monthFilter Js.west (monthDate (2024, 5)%Z)
                 courseFees = true) by reflexivity.
  assert (Hab : ym_le (2024, 3)%Z (2024, 4)%Z) by (right; simpl; lia).
  assert (Hbc : ym_le (2024, 4)%Z (2024, 5)%Z) by (right; simpl; lia).
  split; [exact Ha |]. split; [| exact Hc].
  exact (proj1 (@activity_has_no_gap_on_host Js.west courseFees
                  (2024, 3)%Z Ha)
           (2024, 4)%Z (2024, 5)%Z Hc Hab Hbc).
Defined.

(** X7.  A transaction that does not pass the filter of a month changes
    nothing of the month, wherever it stands in the collection: the
    list, the totals, the balance and the breakdowns are those of the
    collection without it. *)
Theorem inactive_transaction_changes_nothing
    (behind : Js.host) (rt : Js.conversions)
    (l1 l2 other : list Js.Tx.t) (t : Js.Tx.t) (m y : Z) :
  Js.Monthly.monthFilter behind (newDateYM y (m - 1)) t = false ->
  Js.Monthly.filtered behind (l1 ++ t :: l2) m y
  = Js.Monthly.filtered behind (l1 ++ l2) m y
  /\ Js.Monthly.totalMonthlyIncome behind rt (l1 ++ t :: l2) m y
     = Js.Monthly.totalMonthlyIncome behind rt (l1 ++ l2) m y
  /\ Js.Monthly.totalMonthlyExpenses behind rt (l1 ++ t :: l2) m y
     = Js.Monthly.totalMonthlyExpenses behind rt (l1 ++ l2) m y
  /\ Js.Monthly.monthlyBalance behind rt (l1 ++ t :: l2) other m y
     = Js.Monthly.monthlyBalance behind rt (l1 ++ l2) other m y
  /\ Js.Monthly.monthlyBalance behind rt other (l1 ++ t :: l2) m y
     = Js.Monthly.monthlyBalance behind rt other (l1 ++ l2) m y
  /\ Js.Monthly.expenseSummaryByCategory rt
       (Js.Monthly.filteredExpenses behind (l1 ++ t :: l2) m y)
     = Js.Monthly.expenseSummaryByCategory rt
         (Js.Monthly.filteredExpenses behind (l1 ++ l2) m y)
  /\ Js.Monthly.expenseSummaryByType rt
       (Js.Monthly.filteredExpenses behind (l1 ++ t :: l2) m y)
     = Js.Monthly.expenseSummaryByType rt
         (Js.Monthly.filteredExpenses behind (l1 ++ l2) m y).
Proof.
  intros H.
  assert (E : Js.Monthly.filtered behind (l1 ++ t :: l2) m y
              = Js.Monthly.filtered behind (l1 ++ l2) m y).
  { unfold Js.Monthly.filtered. rewrite !filter_app. simpl.
    now rewrite H. }
  unfold Js.Monthly.monthlyBalance, Js.Monthly.totalMonthlyIncome,
    Js.Monthly.totalMonthlyExpenses, Js.Monthly.filteredIncome,
    Js.Monthly.filteredExpenses.
  rewrite E. repeat split.
Qed.

Lemma inactive_transaction_changes_nothing_witness :
  Js.Monthly.totalMonthlyIncome Js.west
    plainRuntime
    ([salaryOfMarch] ++ firstOfMarch :: []) 3 2024
  = Js.Monthly.totalMonthlyIncome Js.west
      plainRuntime
      ([salaryOfMarch] ++ []) 3 2024.
Proof.
  refine (proj1 (proj2
            (@inactive_transaction_changes_nothing Js.west _
               [salaryOfMarch] [] [] firstOfMarch 3 2024 _))).
  reflexivity.
Defined.

(** X25.  A transaction whose end date, when it has one, is not before
    its date (the forms refuse an end date before the start date) is listed
    in the monthly overview of the month of its date, in every host that
    reads its date and its end date in their own calendar months: every
    host that is not behind UTC, and any host for dates that are not the
    first of a month. *)
Theorem entered_transaction_listed_in_its_month
    (behind : Js.host) (items : list Js.Tx.t) (t : Js.Tx.t) :
  In t items ->
  (forall e, Js.Tx.endDate t = Some e ->
             date_leb (Js.Tx.date t) e = true /\ readsOwnMonth behind e) ->
  readsOwnMonth behind (Js.Tx.date t) ->
  (1 <= month (Js.Tx.date t) <= 12)%Z -> (99 < year (Js.Tx.date t))%Z ->
  In t (Js.Monthly.filtered behind items (month (Js.Tx.date t))
          (year (Js.Tx.date t))).
Proof.
  intros Hin He Hd Hm Hy. apply filtered_on_host; auto.
  split; [exact Hin |].
  apply monthFilter_rule; auto.
  - intros e E. now apply He.
  - unfold activeInMonth.
    destruct (monthlyRecurring t); [| reflexivity].
    split; [apply ym_le_refl |].
    destruct (Js.Tx.endDate t) as [e |] eqn:E; [| exact I].
    destruct (He e eq_refl) as [Hle _].
    change (ym_le (ymOf (Js.Tx.date t)) (ymOf e)).
    now apply date_leb_ym.
Qed.

Lemma entered_transaction_listed_in_its_month_witness :
  In courseFees (Js.Monthly.filtered Js.west [firstOfMarch; courseFees]
                   3 2024).
Proof.
  apply (@entered_transaction_listed_in_its_month Js.west
           [firstOfMarch; courseFees] courseFees).
  - simpl. auto.
  - intros e H. injection H as <-. split; [reflexivity |].
    right. simpl. lia.
  - right. simpl. lia.
  - simpl. lia.
  - simpl. lia.
Defined.

(** X8.  The dashboard's chart of categories has one slice per category
    of the expenses of the current month, none twice, holding what the
    amounts of the category add up to in the order of the collection;
    its categories are those of the breakdown by category of the monthly
    overview selected on the current month. *)
Theorem dashboard_chart_holds_each_expense_once
    (behind : Js.host) (rt : Js.conversions)
    (currentMonth currentYear : Z) (expenses : list Js.Tx.t) :
  (0 <= currentMonth <= 11)%Z -> (99 < currentYear)%Z ->
  holdsEachOnce rt Js.Tx.category
    (filter (Js.Dashboard.currentMonthFilter behind currentMonth currentYear)
       expenses)
    (map (fun s => (Js.Lists.name s, Js.Lists.value s))
       (Js.Lists.expenseCategoriesData behind currentMonth currentYear rt
          expenses))
  /\ (forall k,
         In k
           (map Js.Lists.name
              (Js.Lists.expenseCategoriesData behind currentMonth
                 currentYear rt expenses))
         <-> In k
               (map fst
                  (Js.Monthly.expenseSummaryByCategory rt
                     (Js.Monthly.filteredExpenses behind expenses
                        (currentMonth + 1) currentYear)))).
Proof.
  intros Hm Hy.
  set (active := filter (Js.Dashboard.currentMonthFilter behind
                           currentMonth currentYear) expenses).
  assert (E : map (fun s => (Js.Lists.name s, Js.Lists.value s))
                (Js.Lists.expenseCategoriesData behind currentMonth
                   currentYear rt expenses)
              = Js.Obj.entries
                  (Js.Monthly.summarise rt Js.Tx.category active)).
  { unfold Js.Lists.expenseCategoriesData. rewrite map_map. simpl.
    fold active. erewrite map_ext; [apply map_id |].
    intros [k v]. reflexivity. }
  assert (Hd := host_summarise_inv rt Js.Tx.category active).
  destruct Hd as [Hnd [Hk Hg]].
  assert (P : Permutation
                (Js.Obj.entries
                   (Js.Monthly.summarise rt Js.Tx.category active))
                (Js.Monthly.summarise rt Js.Tx.category active))
    by apply entries_perm.
  assert (Hkeys : forall k,
             In k (map fst
                     (Js.Obj.entries
                        (Js.Monthly.summarise rt Js.Tx.category active)))
             <-> k <> "__proto__"%string
                 /\ exists e, In e active
                              /\ propKey (Js.Tx.category e) = k).
  { intros k. rewrite <- Hk. split; apply Permutation_in;
      [apply Permutation_map; exact P
      | symmetry; apply Permutation_map; exact P]. }
  split.
  - rewrite E.
    assert (B := host_breakdown rt Js.Tx.category active).
    destruct B as [_ [_ [_ B4]]].
    split; [| split; [exact Hkeys | split]].
    + eapply Permutation_NoDup; [| exact Hnd].
      symmetry. apply Permutation_map. exact P.
    + intros k v Hin.
      assert (Hne : k <> "__proto__"%string).
      { apply (Hkeys k). apply in_map_iff. exists (k, v). auto. }
      apply (Permutation_in _ P) in Hin.
      apply (@In_get_Some _ _ _ String.eqb_eq _ _ _ Hnd) in Hin.
      rewrite <- (Hg k Hne). unfold Js.Obj.get. now rewrite Hin.
    + rewrite <- B4. apply Permutation_flat_map.
      symmetry. apply jsSort_perm.
  - intros k.
    assert (N : map Js.Lists.name
                  (Js.Lists.expenseCategoriesData behind currentMonth
                     currentYear rt expenses)
                = map fst
                    (map (fun s => (Js.Lists.name s, Js.Lists.value s))
                       (Js.Lists.expenseCategoriesData behind currentMonth
                          currentYear rt expenses))).
    { rewrite map_map. reflexivity. }
    rewrite N, E, Hkeys.
    destruct (host_breakdown rt Js.Tx.category
                (Js.Monthly.filteredExpenses behind expenses
                   (currentMonth + 1) currentYear)) as [_ [Hk' _]].
    unfold Js.Monthly.expenseSummaryByCategory. rewrite Hk'.
    unfold Js.Monthly.filteredExpenses.
    rewrite (host_overview_list behind Hm Hy). fold active.
    split; intros [H1 [e [H2 H3]]]; split; auto; exists e; split; auto.
    + now apply jsSort_In.
    + now apply jsSort_In in H2.
Qed.

Lemma dashboard_chart_holds_each_expense_once_witness :
  In "Personal"%string
    (map Js.Lists.name
       (Js.Lists.expenseCategoriesData Js.utc 2 2024 plainRuntime
          marchExpenses))
  <-> In "Personal"%string
        (map fst
           (Js.Monthly.expenseSummaryByCategory plainRuntime
              (Js.Monthly.filteredExpenses Js.utc marchExpenses (2 + 1)
                 2024))).
Proof.
  refine (proj2
            (@dashboard_chart_holds_each_expense_once Js.utc plainRuntime
               2 2024 marchExpenses _ _) "Personal"%string); lia.
Defined.

